(** * HdrHistogramJS, AssemblyScript core: [src/assembly/Histogram.ts]

    A shallow embedding of the class [Histogram<T, U>] and the properties of
    its bucket layout, recording paths, percentile query and merge.

    Conventions of the embedding.
    - [u64] and [i32] values are integers of [Z]; every operation of the
      source that can leave the type's range has its wrap-around written out
      ([u64], [i32], [shl64], [shr64], [wrapU]).
    - The counts array [T] is a list of counters, each below [2^counterBits]
      ([U] is [u8], [u16] or [u32] for the three exported classes).
    - A method is a function from the histogram it runs on to an [Outcome]:
      the value it returns, or the failure it raises, each with the histogram
      as the method left it.
    - [<f64>value] on a [u64] is the IEEE-754 conversion (round to nearest,
      ties to even, 53 significant bits).  [Math.log2] returns a double,
      the one nearest to the logarithm of the double it receives: next to a
      power of two [2^K] that double is [K] itself.  [Math.pow(10, d)] is
      taken at its value [10^d], a double for the six values of [d] the
      constructor lets through. *)

From Stdlib Require Import ZArith Lia Bool Floats.
From stdpp Require Import base list.

Local Open Scope Z_scope.

(** ** Machine integers *)

Definition U64_MAX_VALUE : Z := 2 ^ 64 - 1.

(** Wrap-around of an unsigned integer of [w] bits. *)
Definition wrapU (w x : Z) : Z := x mod 2 ^ w.

Definition u64 (x : Z) : Z := wrapU 64 x.

(** Wrap-around of a signed 32-bit integer. *)
Definition i32 (x : Z) : Z := (x + 2 ^ 31) mod 2 ^ 32 - 2 ^ 31.

(** [x << n] and [x >> n] on [u64]: the shift count is taken modulo 64. *)
Definition shl64 (x n : Z) : Z := u64 (Z.shiftl x (n mod 64)).
Definition shr64 (x n : Z) : Z := Z.shiftr x (n mod 64).

(** [x << n] and [x >> n] on [i32]: the shift count is taken modulo 32. *)
Definition shl32 (x n : Z) : Z := i32 (Z.shiftl x (n mod 32)).
Definition shr32 (x n : Z) : Z := Z.shiftr x (n mod 32).

(** ** Doubles at integer arguments *)

(** [<f64>value] for a [u64]: the nearest double, ties to the even
    significand, given as the integer that double denotes. *)
Definition f64_of_u64 (value : Z) : Z :=
  let e := Z.log2 value - 52 in
  if e <=? 0 then value
  else
    let q := Z.shiftr value e in
    let r := value mod 2 ^ e in
    let half := 2 ^ (e - 1) in
    let q' := if (half <? r) || ((r =? half) && Z.odd q) then q + 1 else q in
    Z.shiftl q' e.

(** *** [Math.log2]

    [Math.log2(x)] is the double nearest to the logarithm of [x].  For a
    double [x] between [2^k] and [2^(k+1)] the logarithm lies between [k]
    and [k + 1], where the doubles are [2^(e-52)] apart, [e] being the
    binary exponent of [k].  When the logarithm is closer than half of that to
    [k + 1], or to [k], what [Math.log2] returns is that integer.  At the
    distance [d] of the power of two [2^K] the logarithm is
    [K + log2(1 -+ d / 2^K)], off [K] by [d / (2^K * ln 2)] to the first
    order, so it rounds to [K] when [d / 2^K <= ln 2 * 2^(e-53)]: for a
    [u64] that is [2^49 - 1] first, then the [2], [5], [11], [22] integers
    below [2^50], [2^51], [2^52], [2^53], and the 22 doubles below each
    later power of two; above a power of two it is [2^49 + 1] first.  The
    terms of higher order move the bound on [d] by less than [2^-30] for a
    [u64] and change no case; the cases are those of the algorithm of the
    standard library, [Math_log2] below. *)

(** [ln 2] to 18 decimals, as [ln2_e18 / 10^18]. *)
Definition ln2_e18 : Z := 693147180559945309.

(** Whether the logarithm of a double at the distance [d] of [2^K] rounds
    to [K], [e] being the exponent of the doubles on that side of [K]. *)
Definition log2_rounds_to (K e d : Z) : bool :=
  d * 10 ^ 18 * 2 ^ (53 - e) <=? ln2_e18 * 2 ^ K.

(** The integer that [Math.log2(x)] is, when it is one, for a double [x]
    that denotes a positive integer: [x] is a power of two, or next to one. *)
Definition log2_integer (x : Z) : option Z :=
  let k := Z.log2 x in
  if x =? 2 ^ k then Some k
  else if (1 <=? k) && log2_rounds_to (k + 1) (Z.log2 k) (2 ^ (k + 1) - x)
  then Some (k + 1)
  else if (1 <=? k) && log2_rounds_to k (Z.log2 k) (x - 2 ^ k)
  then Some k
  else None.

(** [floor(Math.log2(x))] for a double [x] that denotes a non-negative
    integer; [None] is [-Infinity], the logarithm of zero. *)
Definition floor_log2 (x : Z) : option Z :=
  if x <=? 0 then None
  else Some (match log2_integer x with
             | Some K => K
             | None => Z.log2 x
             end).

(** [ceil(Math.log2(x))] for a double [x] that denotes a positive integer. *)
Definition ceil_log2 (x : Z) : Z :=
  match log2_integer x with
  | Some K => K
  | None => Z.log2 x + 1
  end.

(** ** Failures and outcomes *)

(** What a method can raise: the [throw] statements of the source, a failed
    [assert], an access outside a typed array, and a loop that never ends. *)
Inductive Failure : Type :=
| LowestDiscernibleValueTooSmall   (* "lowestDiscernibleValue must be >= 1" *)
| HighestTrackableValueTooSmall    (* "highestTrackableValue ... (2 * lowestDiscernibleValue)" *)
| SignificantDigitsOutOfRange      (* "numberOfSignificantValueDigits must be between 0 and 5" *)
| NegativeValue                    (* "Histogram recorded value cannot be negative." *)
| OutsideCoveredRange (value : Z)  (* "Value ... is outside of histogram covered range" *)
| OtherDoesNotFit                  (* "The other histogram includes values that do not fit ..." *)
| CountOverflow (newCount : Z)     (* newCount + " would overflow short integer count" *)
| AssertionFailed                  (* assert(...) *)
| IndexOutOfBounds                 (* typed array access or copy outside the array *)
| InvalidConversion                (* a double with no u64 value *)
| Diverges.                        (* the loop is still running when the fuel is spent *)

(** The result of a method that reads the histogram and changes nothing. *)
Inductive Result (A : Type) : Type :=
| Ok (a : A)
| Err (e : Failure).
Arguments Ok {A} a.
Arguments Err {A} e.

Definition bindR {A B : Type} (r : Result A) (k : A -> Result B) : Result B :=
  match r with
  | Ok a => k a
  | Err e => Err e
  end.

(** ** The histogram object *)

(** The fields of [Histogram<T, U>], those it inherits from
    [AbstractHistogramBase] first.  The two iterators, [identity] and
    [integerToDoubleValueConversionRatio] take no part in the methods below
    and are left out.  [counterBits] is the width of the element type [U]. *)
Record Histogram : Type := mkHistogram {
  autoResize : bool;
  lowestDiscernibleValue : Z;
  highestTrackableValue : Z;
  numberOfSignificantValueDigits : Z;
  bucketCount : Z;
  subBucketCount : Z;
  countsArrayLength : Z;
  startTimeStampMsec : Z;
  endTimeStampMsec : Z;
  leadingZeroCountBase : Z;
  subBucketHalfCountMagnitude : Z;
  unitMagnitude : Z;
  subBucketHalfCount : Z;
  subBucketMask : Z;
  unitMagnitudeMask : Z;
  maxValue : Z;
  minNonZeroValue : Z;
  counterBits : Z;
  counts : list Z;
  totalCount : Z
}.

(** Field assignments [this.f = x]. *)
Definition set_highestTrackableValue (x : Z) (h : Histogram) : Histogram :=
  mkHistogram h.(autoResize) h.(lowestDiscernibleValue) x
    h.(numberOfSignificantValueDigits) h.(bucketCount) h.(subBucketCount)
    h.(countsArrayLength) h.(startTimeStampMsec) h.(endTimeStampMsec)
    h.(leadingZeroCountBase) h.(subBucketHalfCountMagnitude) h.(unitMagnitude)
    h.(subBucketHalfCount) h.(subBucketMask) h.(unitMagnitudeMask) h.(maxValue)
    h.(minNonZeroValue) h.(counterBits) h.(counts) h.(totalCount).

Definition set_bucketCount (x : Z) (h : Histogram) : Histogram :=
  mkHistogram h.(autoResize) h.(lowestDiscernibleValue) h.(highestTrackableValue)
    h.(numberOfSignificantValueDigits) x h.(subBucketCount)
    h.(countsArrayLength) h.(startTimeStampMsec) h.(endTimeStampMsec)
    h.(leadingZeroCountBase) h.(subBucketHalfCountMagnitude) h.(unitMagnitude)
    h.(subBucketHalfCount) h.(subBucketMask) h.(unitMagnitudeMask) h.(maxValue)
    h.(minNonZeroValue) h.(counterBits) h.(counts) h.(totalCount).

Definition set_countsArrayLength (x : Z) (h : Histogram) : Histogram :=
  mkHistogram h.(autoResize) h.(lowestDiscernibleValue) h.(highestTrackableValue)
    h.(numberOfSignificantValueDigits) h.(bucketCount) h.(subBucketCount)
    x h.(startTimeStampMsec) h.(endTimeStampMsec)
    h.(leadingZeroCountBase) h.(subBucketHalfCountMagnitude) h.(unitMagnitude)
    h.(subBucketHalfCount) h.(subBucketMask) h.(unitMagnitudeMask) h.(maxValue)
    h.(minNonZeroValue) h.(counterBits) h.(counts) h.(totalCount).

Definition set_timeStamps (s e : Z) (h : Histogram) : Histogram :=
  mkHistogram h.(autoResize) h.(lowestDiscernibleValue) h.(highestTrackableValue)
    h.(numberOfSignificantValueDigits) h.(bucketCount) h.(subBucketCount)
    h.(countsArrayLength) s e
    h.(leadingZeroCountBase) h.(subBucketHalfCountMagnitude) h.(unitMagnitude)
    h.(subBucketHalfCount) h.(subBucketMask) h.(unitMagnitudeMask) h.(maxValue)
    h.(minNonZeroValue) h.(counterBits) h.(counts) h.(totalCount).

Definition set_leadingZeroCountBase (x : Z) (h : Histogram) : Histogram :=
  mkHistogram h.(autoResize) h.(lowestDiscernibleValue) h.(highestTrackableValue)
    h.(numberOfSignificantValueDigits) h.(bucketCount) h.(subBucketCount)
    h.(countsArrayLength) h.(startTimeStampMsec) h.(endTimeStampMsec)
    x h.(subBucketHalfCountMagnitude) h.(unitMagnitude)
    h.(subBucketHalfCount) h.(subBucketMask) h.(unitMagnitudeMask) h.(maxValue)
    h.(minNonZeroValue) h.(counterBits) h.(counts) h.(totalCount).

Definition set_maxValue (x : Z) (h : Histogram) : Histogram :=
  mkHistogram h.(autoResize) h.(lowestDiscernibleValue) h.(highestTrackableValue)
    h.(numberOfSignificantValueDigits) h.(bucketCount) h.(subBucketCount)
    h.(countsArrayLength) h.(startTimeStampMsec) h.(endTimeStampMsec)
    h.(leadingZeroCountBase) h.(subBucketHalfCountMagnitude) h.(unitMagnitude)
    h.(subBucketHalfCount) h.(subBucketMask) h.(unitMagnitudeMask) x
    h.(minNonZeroValue) h.(counterBits) h.(counts) h.(totalCount).

Definition set_minNonZeroValue (x : Z) (h : Histogram) : Histogram :=
  mkHistogram h.(autoResize) h.(lowestDiscernibleValue) h.(highestTrackableValue)
    h.(numberOfSignificantValueDigits) h.(bucketCount) h.(subBucketCount)
    h.(countsArrayLength) h.(startTimeStampMsec) h.(endTimeStampMsec)
    h.(leadingZeroCountBase) h.(subBucketHalfCountMagnitude) h.(unitMagnitude)
    h.(subBucketHalfCount) h.(subBucketMask) h.(unitMagnitudeMask) h.(maxValue)
    x h.(counterBits) h.(counts) h.(totalCount).

Definition set_counts (x : list Z) (h : Histogram) : Histogram :=
  mkHistogram h.(autoResize) h.(lowestDiscernibleValue) h.(highestTrackableValue)
    h.(numberOfSignificantValueDigits) h.(bucketCount) h.(subBucketCount)
    h.(countsArrayLength) h.(startTimeStampMsec) h.(endTimeStampMsec)
    h.(leadingZeroCountBase) h.(subBucketHalfCountMagnitude) h.(unitMagnitude)
    h.(subBucketHalfCount) h.(subBucketMask) h.(unitMagnitudeMask) h.(maxValue)
    h.(minNonZeroValue) h.(counterBits) x h.(totalCount).

Definition set_totalCount (x : Z) (h : Histogram) : Histogram :=
  mkHistogram h.(autoResize) h.(lowestDiscernibleValue) h.(highestTrackableValue)
    h.(numberOfSignificantValueDigits) h.(bucketCount) h.(subBucketCount)
    h.(countsArrayLength) h.(startTimeStampMsec) h.(endTimeStampMsec)
    h.(leadingZeroCountBase) h.(subBucketHalfCountMagnitude) h.(unitMagnitude)
    h.(subBucketHalfCount) h.(subBucketMask) h.(unitMagnitudeMask) h.(maxValue)
    h.(minNonZeroValue) h.(counterBits) h.(counts) x.

(** The outcome of a method that may assign to the fields of [this]: the
    histogram is the object as the method left it, also when it throws. *)
Inductive Outcome (A : Type) : Type :=
| Return (a : A) (h : Histogram)
| Throw (e : Failure) (h : Histogram).
Arguments Return {A} a h.
Arguments Throw {A} e h.

Definition M (A : Type) : Type := Histogram -> Outcome A.

Definition ret {A : Type} (a : A) : M A := fun h => Return a h.
Definition throw {A : Type} (e : Failure) : M A := fun h => Throw e h.
Definition bind {A B : Type} (m : M A) (k : A -> M B) : M B :=
  fun h =>
    match m h with
    | Return a h' => k a h'
    | Throw e h' => Throw e h'
    end.
Definition get : M Histogram := fun h => Return h h.
Definition modify (f : Histogram -> Histogram) : M unit := fun h => Return tt (f h).
Definition liftR {A : Type} (r : Histogram -> Result A) : M A :=
  fun h =>
    match r h with
    | Ok a => Return a h
    | Err e => Throw e h
    end.

Notation "'do' x <- m ; k" := (bind m (fun x => k))
  (at level 10, x name, m at level 100, k at level 200).
Notation "'do_' m ; k" := (bind m (fun _ => k))
  (at level 10, m at level 100, k at level 200).

(** The histogram a method leaves behind, and whether it returned. *)
Definition final {A : Type} (o : Outcome A) : Histogram :=
  match o with
  | Return _ h => h
  | Throw _ h => h
  end.

Definition returned {A : Type} (o : Outcome A) : bool :=
  match o with
  | Return _ _ => true
  | Throw _ _ => false
  end.

(** ** Layout: sizing the counts array *)

(** [getBucketsNeededToCoverValue]: the [while] loop, [fuel] iterations of
    it at most.  [smallestUntrackableValue] doubles on every turn. *)
Fixpoint bucketsNeededLoop (fuel : nat) (value smallestUntrackableValue bucketsNeeded : Z)
  : Result Z :=
  if smallestUntrackableValue <=? value then
    if shr64 U64_MAX_VALUE 1 <? smallestUntrackableValue then
      Ok (i32 (bucketsNeeded + 1))
    else
      match fuel with
      | O => Err Diverges
      | S fuel' =>
          bucketsNeededLoop fuel' value (shl64 smallestUntrackableValue 1)
            (i32 (bucketsNeeded + 1))
      end
  else Ok bucketsNeeded.

(** The loop doubles a non-zero [u64] at most 63 times before it passes
    [u64.MAX_VALUE >> 1]; 64 turns are enough whenever the loop ends. *)
Definition loopFuel : nat := 64.

Definition getBucketsNeededToCoverValue (h : Histogram) (value : Z) : Result Z :=
  bucketsNeededLoop loopFuel value
    (shl64 (u64 h.(subBucketCount)) h.(unitMagnitude)) 1.

Definition getLengthForNumberOfBuckets (h : Histogram) (numberOfBuckets : Z) : Z :=
  i32 ((numberOfBuckets + 1) * shr32 h.(subBucketCount) 1).

Definition determineArrayLengthNeeded (h : Histogram) (highest : Z) : Result Z :=
  if highest <? u64 (2 * h.(lowestDiscernibleValue)) then
    Err HighestTrackableValueTooSmall
  else
    bindR (getBucketsNeededToCoverValue h highest)
      (fun n => Ok (getLengthForNumberOfBuckets h n)).

Definition establishSize (newHighestTrackableValue : Z) : M unit :=
  do len <- liftR (fun h => determineArrayLengthNeeded h newHighestTrackableValue);
  do_ modify (set_countsArrayLength len);
  do n <- liftR (fun h => getBucketsNeededToCoverValue h newHighestTrackableValue);
  do_ modify (set_bucketCount n);
  modify (set_highestTrackableValue newHighestTrackableValue).

(** [instantiate<T>(length)]: a typed array of [length] zeros. *)
Definition instantiate (length : Z) : list Z := replicate (Z.to_nat length) 0.

(** ** Construction *)

(** [init], on the object [super()] left: of the inherited fields only
    [autoResize] and the two time stamps are read by the methods below, and
    their initial values are those of the base class, given here as
    arguments. *)
Definition init (W : Z) (autoResize0 : bool) (start0 end0 : Z)
  (lowest highest digits : Z) : Outcome unit :=
  let largestValueWithSingleUnitResolution := u64 (2 * u64 (10 ^ digits)) in
  let unitMagnitude :=
    match floor_log2 (f64_of_u64 lowest) with
    | Some l => l
    | None => 0
    end in
  let unitMagnitudeMask := u64 (shl64 1 unitMagnitude - 1) in
  let subBucketCountMagnitude :=
    ceil_log2 (f64_of_u64 largestValueWithSingleUnitResolution) in
  let subBucketHalfCountMagnitude := i32 (subBucketCountMagnitude - 1) in
  let subBucketCount := shl32 1 subBucketCountMagnitude in
  let subBucketHalfCount := shr32 subBucketCount 1 in
  let subBucketMask := shl64 (u64 (u64 subBucketCount - 1)) unitMagnitude in
  let h0 :=
    mkHistogram autoResize0 lowest highest digits 0 subBucketCount 0 start0 end0
      0 subBucketHalfCountMagnitude unitMagnitude subBucketHalfCount
      subBucketMask unitMagnitudeMask 0 U64_MAX_VALUE W [] 0 in
  (do_ establishSize highest;
   do h <- get;
   do_ modify (set_counts (instantiate h.(countsArrayLength)));
   modify (set_leadingZeroCountBase
     (i32 (53 - unitMagnitude - subBucketHalfCountMagnitude - 1)))) h0.

(** [new Histogram<T, U>(...)]: the argument checks, then [init]. *)
Definition new_Histogram (W : Z) (autoResize0 : bool) (start0 end0 : Z)
  (lowest highest digits : Z) : Result Histogram :=
  if lowest <? 1 then Err LowestDiscernibleValueTooSmall
  else if highest <? u64 (2 * lowest) then Err HighestTrackableValueTooSmall
  else if (digits <? 0) || (5 <? digits) then Err SignificantDigitsOutOfRange
  else
    match init W autoResize0 start0 end0 lowest highest digits with
    | Return _ h => Ok h
    | Throw e _ => Err e
    end.

(** ** Layout: values and indexes *)

Definition getBucketIndex (h : Histogram) (value : Z) : Z :=
  match floor_log2 (f64_of_u64 value) with
  | Some l =>
      i32 (Z.max (l - h.(subBucketHalfCountMagnitude) - h.(unitMagnitude)) 0)
  | None => 0
  end.

Definition getSubBucketIndex (h : Histogram) (value bucketIndex : Z) : Z :=
  i32 (shr64 value (bucketIndex + h.(unitMagnitude))).

Definition computeCountsArrayIndex (h : Histogram) (bucketIndex subBucketIndex : Z)
  : Result Z :=
  if negb (subBucketIndex <? h.(subBucketCount)) then Err AssertionFailed
  else if negb ((bucketIndex =? 0) || (h.(subBucketHalfCount) <=? subBucketIndex))
  then Err AssertionFailed
  else
    let bucketBaseIndex :=
      i32 ((bucketIndex + 1) * shl32 1 h.(subBucketHalfCountMagnitude)) in
    let offsetInBucket := i32 (subBucketIndex - h.(subBucketHalfCount)) in
    Ok (i32 (bucketBaseIndex + offsetInBucket)).

Definition countsArrayIndex (h : Histogram) (value : Z) : Result Z :=
  if value <? 0 then Err NegativeValue
  else
    let bucketIndex := getBucketIndex h value in
    let subBucketIndex := getSubBucketIndex h value bucketIndex in
    computeCountsArrayIndex h bucketIndex subBucketIndex.

Definition valueFromIndexes (h : Histogram) (bucketIndex subBucketIndex : Z) : Z :=
  shl64 (u64 subBucketIndex) (bucketIndex + h.(unitMagnitude)).

Definition valueFromIndex (h : Histogram) (index : Z) : Z :=
  let bucketIndex := i32 (shr32 index h.(subBucketHalfCountMagnitude) - 1) in
  let subBucketIndex :=
    i32 (Z.land index (i32 (h.(subBucketHalfCount) - 1)) + h.(subBucketHalfCount)) in
  if bucketIndex <? 0 then
    valueFromIndexes h 0 (i32 (subBucketIndex - h.(subBucketHalfCount)))
  else valueFromIndexes h bucketIndex subBucketIndex.

Definition sizeOfEquivalentValueRange (h : Histogram) (value : Z) : Z :=
  let bucketIndex := getBucketIndex h value in
  shl64 1 (h.(unitMagnitude) + bucketIndex).

Definition lowestEquivalentValue (h : Histogram) (value : Z) : Z :=
  let bucketIndex := getBucketIndex h value in
  let subBucketIndex := getSubBucketIndex h value bucketIndex in
  valueFromIndexes h bucketIndex subBucketIndex.

Definition nextNonEquivalentValue (h : Histogram) (value : Z) : Z :=
  u64 (lowestEquivalentValue h value + sizeOfEquivalentValueRange h value).

Definition highestEquivalentValue (h : Histogram) (value : Z) : Z :=
  u64 (nextNonEquivalentValue h value - 1).

Definition medianEquivalentValue (h : Histogram) (value : Z) : Z :=
  u64 (lowestEquivalentValue h value + shr64 (sizeOfEquivalentValueRange h value) 1).

(** ** The counts array *)

(** [a[index]] on a typed array, [None] outside it. *)
Definition array_get (a : list Z) (index : Z) : option Z :=
  if index <? 0 then None else a !! Z.to_nat index.

(** [a[index] = x], for an index inside the array. *)
Definition array_set (a : list Z) (index x : Z) : list Z :=
  <[Z.to_nat index := x]> a.

(** [target.set(source)]: copies [source] over the start of [target]. *)
Definition typed_array_set (target source : list Z) : option (list Z) :=
  if (length source <=? length target)%nat
  then Some (source ++ drop (length source) target)
  else None.

Definition getCountAtIndex (h : Histogram) (index : Z) : Result Z :=
  match array_get h.(counts) index with
  | Some c => Ok (u64 c)
  | None => Err IndexOutOfBounds
  end.

(** [currentCount + 1] has the element type [U], and an unsigned count is
    never below zero. *)
Definition incrementCountAtIndex (index : Z) : M unit :=
  do h <- get;
  match array_get h.(counts) index with
  | None => throw IndexOutOfBounds
  | Some currentCount =>
      let newCount := wrapU h.(counterBits) (currentCount + 1) in
      if newCount <? 0 then throw (CountOverflow newCount)
      else modify (set_counts (array_set h.(counts) index newCount))
  end.

(** [currentCount + value] is a [u64]; [<U>newCount] keeps its low bits. *)
Definition addToCountAtIndex (index value : Z) : M unit :=
  do h <- get;
  match array_get h.(counts) index with
  | None => throw IndexOutOfBounds
  | Some currentCount =>
      let newCount := u64 (currentCount + value) in
      if newCount <? 0 then throw (CountOverflow newCount)
      else
        modify (set_counts
          (array_set h.(counts) index (wrapU h.(counterBits) newCount)))
  end.

Definition incrementTotalCount : M unit :=
  modify (fun h => set_totalCount (u64 (h.(totalCount) + 1)) h).

Definition resize (newHighestTrackableValue : Z) : M unit :=
  do_ establishSize newHighestTrackableValue;
  do h <- get;
  let newCounts := instantiate h.(countsArrayLength) in
  match typed_array_set newCounts h.(counts) with
  | None => throw IndexOutOfBounds
  | Some newCounts' => modify (set_counts newCounts')
  end.

Definition clearCounts : M unit :=
  modify (fun h => set_counts (replicate (length h.(counts)) 0) h).

Definition reset : M unit :=
  do_ clearCounts;
  do_ modify (set_totalCount 0);
  do_ modify (set_timeStamps 0 0);
  do_ modify (set_maxValue 0);
  modify (set_minNonZeroValue U64_MAX_VALUE).

(** ** Recording *)

Definition updatedMaxValue (value : Z) : M unit :=
  do h <- get;
  let internalValue := u64 (value + h.(unitMagnitudeMask)) in
  modify (set_maxValue internalValue).

Definition updateMinNonZeroValue (value : Z) : M unit :=
  do h <- get;
  if value <=? h.(unitMagnitudeMask) then ret tt
  else
    let internalValue := Z.land value (u64 (Z.lnot h.(unitMagnitudeMask))) in
    modify (set_minNonZeroValue internalValue).

Definition updateMinAndMax (value : Z) : M unit :=
  do h <- get;
  do_ (if h.(maxValue) <? value then updatedMaxValue value else ret tt);
  do h <- get;
  if (value <? h.(minNonZeroValue)) && negb (value =? 0)
  then updateMinNonZeroValue value
  else ret tt.

Definition handleRecordException (count value : Z) : M unit :=
  do h <- get;
  if negb h.(autoResize) then throw (OutsideCoveredRange value)
  else
    do_ resize value;
    do countsIndex <- liftR (fun h => countsArrayIndex h value);
    do_ addToCountAtIndex countsIndex count;
    modify (fun h =>
      set_highestTrackableValue
        (highestEquivalentValue h (valueFromIndex h (i32 (h.(countsArrayLength) - 1))))
        h).

Definition recordSingleValue (value : Z) : M unit :=
  do countsIndex <- liftR (fun h => countsArrayIndex h value);
  do h <- get;
  do_ (if h.(countsArrayLength) <=? countsIndex
       then handleRecordException 1 value
       else incrementCountAtIndex countsIndex);
  do_ updateMinAndMax value;
  incrementTotalCount.

Definition recordValue (value : Z) : M unit := recordSingleValue value.

Definition recordCountAtValue (count value : Z) : M unit :=
  do countsIndex <- liftR (fun h => countsArrayIndex h value);
  do h <- get;
  do_ (if h.(countsArrayLength) <=? countsIndex
       then handleRecordException count value
       else addToCountAtIndex countsIndex count);
  do_ updateMinAndMax value;
  modify (fun h => set_totalCount (u64 (h.(totalCount) + count)) h).

(** [values.forEach(body)]: the calls one after the other, up to the first
    that throws. *)
Fixpoint forEach (values : list Z) (body : Z -> M unit) : M unit :=
  match values with
  | [] => ret tt
  | v :: rest => do_ body v; forEach rest body
  end.

(** [numbers.forEach((n) => histogram.recordValue(n))], as the tests fill a
    histogram. *)
Definition recordValues (numbers : list Z) : M unit := forEach numbers recordValue.

(** ** Correction for coordinated omission *)

(** The [for] loop of both interval methods, [fuel] turns of it at most:
    [missingValue] runs down in steps of the expected interval while it is
    at least the interval. *)
Fixpoint missingValuesLoop (fuel : nat) (body : Z -> M unit)
  (expectedIntervalBetweenValueSamples missingValue : Z) : M unit :=
  if expectedIntervalBetweenValueSamples <=? missingValue then
    match fuel with
    | O => throw Diverges
    | S fuel' =>
        do_ body missingValue;
        missingValuesLoop fuel' body expectedIntervalBetweenValueSamples
          (u64 (missingValue - expectedIntervalBetweenValueSamples))
    end
  else ret tt.

Definition recordSingleValueWithExpectedInterval (fuel : nat)
  (value expectedIntervalBetweenValueSamples : Z) : M unit :=
  do_ recordSingleValue value;
  if expectedIntervalBetweenValueSamples <=? 0 then ret tt
  else
    missingValuesLoop fuel recordSingleValue expectedIntervalBetweenValueSamples
      (u64 (value - expectedIntervalBetweenValueSamples)).

Definition recordValueWithCountAndExpectedInterval (fuel : nat)
  (value count expectedIntervalBetweenValueSamples : Z) : M unit :=
  do_ recordCountAtValue count value;
  if value <=? expectedIntervalBetweenValueSamples then ret tt
  else
    missingValuesLoop fuel (recordCountAtValue count)
      expectedIntervalBetweenValueSamples
      (u64 (value - expectedIntervalBetweenValueSamples)).

(** ** Merging *)

(** The loop of the matching-layout branch of [add], from index [i] on:
    every non-zero count of the other histogram is added at its index, and
    the counts added are summed up. *)
Fixpoint addCountsLoop (otherHistogram : Histogram) (n : nat)
  (i observedOtherTotalCount : Z) : M Z :=
  match n with
  | O => ret observedOtherTotalCount
  | S n' =>
      do otherCount <- liftR (fun _ => getCountAtIndex otherHistogram i);
      if 0 <? otherCount then
        do_ addToCountAtIndex i otherCount;
        addCountsLoop otherHistogram n' (i32 (i + 1))
          (u64 (observedOtherTotalCount + otherCount))
      else addCountsLoop otherHistogram n' (i32 (i + 1)) observedOtherTotalCount
  end.

(** The loop of the other branch, from index [i] on: every non-zero count
    below the index of the maximum is recorded at the value of its index. *)
Fixpoint recordCountsLoop (otherHistogram : Histogram) (n : nat) (i : Z) : M unit :=
  match n with
  | O => ret tt
  | S n' =>
      do otherCount <- liftR (fun _ => getCountAtIndex otherHistogram i);
      do_ (if 0 <? otherCount
           then recordCountAtValue otherCount (valueFromIndex otherHistogram i)
           else ret tt);
      recordCountsLoop otherHistogram n' (i32 (i + 1))
  end.

(** [add], for an [otherHistogram] that is another object than [this]:
    the other histogram is read and never written. *)
Definition add (otherHistogram : Histogram) : M unit :=
  do h <- get;
  let highestRecordableValue :=
    highestEquivalentValue h (valueFromIndex h (i32 (h.(countsArrayLength) - 1))) in
  do_ (if highestRecordableValue <? otherHistogram.(maxValue) then
         if negb h.(autoResize) then throw OtherDoesNotFit
         else resize otherHistogram.(maxValue)
       else ret tt);
  do h <- get;
  do_ (if (h.(bucketCount) =? otherHistogram.(bucketCount))
          && (h.(subBucketCount) =? otherHistogram.(subBucketCount))
          && (h.(unitMagnitude) =? otherHistogram.(unitMagnitude))
       then
         do observedOtherTotalCount <-
           addCountsLoop otherHistogram
             (Z.to_nat otherHistogram.(countsArrayLength)) 0 0;
         do_ modify (fun h =>
               set_totalCount (u64 (h.(totalCount) + observedOtherTotalCount)) h);
         do h <- get;
         do_ updatedMaxValue (Z.max h.(maxValue) otherHistogram.(maxValue));
         do h <- get;
         updateMinNonZeroValue
           (Z.min h.(minNonZeroValue) otherHistogram.(minNonZeroValue))
       else
         do otherMaxIndex <-
           liftR (fun _ => countsArrayIndex otherHistogram otherHistogram.(maxValue));
         do otherCount <- liftR (fun _ => getCountAtIndex otherHistogram otherMaxIndex);
         do_ recordCountAtValue otherCount otherHistogram.(maxValue);
         recordCountsLoop otherHistogram (Z.to_nat otherMaxIndex) 0);
  modify (fun h =>
    set_timeStamps
      (Z.min h.(startTimeStampMsec) otherHistogram.(startTimeStampMsec))
      (Z.max h.(endTimeStampMsec) otherHistogram.(endTimeStampMsec)) h).

(** ** Percentiles *)

(** A percentile is a double, a value of Rocq's binary64 [float]. *)
Definition f64 : Type := float.

(** The double of an integer that is one (exact), and otherwise the
    nearest. *)
Definition f64_of_Z (z : Z) : f64 := SF2Prim (binary_normalize 53 1024 z 0 false).

Definition f64_100 : f64 := f64_of_Z 100.

(** [min(x, y)] and [max(x, y)] on doubles, for a [y] that is not zero: a
    NaN operand gives NaN. *)
Definition f64_min (x y : f64) : f64 :=
  if PrimFloat.is_nan x || PrimFloat.is_nan y then PrimFloat.nan
  else if PrimFloat.ltb x y then x else y.

Definition f64_max (x y : f64) : f64 :=
  if PrimFloat.is_nan x || PrimFloat.is_nan y then PrimFloat.nan
  else if PrimFloat.ltb y x then x else y.

(** [ceil(x)]: the least integer double at or above [x]. *)
Definition f64_ceil (x : f64) : f64 :=
  match Prim2SF x with
  | S754_finite s m e =>
      if (0 <=? e)%Z then x
      else
        let v := if s then Z.neg m else Z.pos m in
        let c := - ((- v) / 2 ^ (- e)) in
        if (c =? 0)%Z then (if s then PrimFloat.opp PrimFloat.zero else PrimFloat.zero)
        else f64_of_Z c
  | _ => x
  end.

(** [<u64>x] for a double: its integer part, and no value for a NaN or a
    double outside the range of [u64]. *)
Definition u64_of_f64 (x : f64) : Result Z :=
  match Prim2SF x with
  | S754_zero _ => Ok 0
  | S754_finite s m e =>
      let a := if (0 <=? e)%Z then Z.pos m * 2 ^ e else Z.pos m / 2 ^ (- e) in
      if s then (if a =? 0 then Ok 0 else Err InvalidConversion)
      else if a <? 2 ^ 64 then Ok a else Err InvalidConversion
  | _ => Err InvalidConversion
  end.

(** Modelled from the spec: [ulp.ts] is not among the sources; the spec's
    glossary has [ulp(x)] as "the unit in the last place of [x] in double
    precision", the distance from [|x|] to the next double above it. *)
Definition ulp (x : f64) : f64 :=
  let a := PrimFloat.abs x in
  PrimFloat.sub (PrimFloat.next_up a) a.

(** The count to reach, the first half of [getValueAtPercentile]. *)
Definition countAtPercentile (h : Histogram) (percentile : f64) : Result Z :=
  let requestedPercentile := f64_min percentile f64_100 in
  let fpCountAtPercentile :=
    PrimFloat.mul (PrimFloat.div requestedPercentile f64_100)
      (f64_of_Z (f64_of_u64 h.(totalCount))) in
  u64_of_f64
    (f64_max (f64_ceil (PrimFloat.sub fpCountAtPercentile (ulp fpCountAtPercentile)))
       (f64_of_Z 1)).

(** The [for] loop of [getValueAtPercentile], from index [i] on, with [n]
    indexes left below [countsArrayLength]. *)
Fixpoint percentileScan (h : Histogram) (isZero : bool) (countAtPercentile : Z)
  (n : nat) (i totalToCurrentIndex : Z) : Result Z :=
  match n with
  | O => Ok 0
  | S n' =>
      bindR (getCountAtIndex h i) (fun c =>
        let totalToCurrentIndex := u64 (totalToCurrentIndex + c) in
        if countAtPercentile <=? totalToCurrentIndex then
          let valueAtIndex := valueFromIndex h i in
          Ok (if isZero then lowestEquivalentValue h valueAtIndex
              else highestEquivalentValue h valueAtIndex)
        else percentileScan h isZero countAtPercentile n' (i32 (i + 1))
               totalToCurrentIndex)
  end.

Definition getValueAtPercentile (h : Histogram) (percentile : f64) : Result Z :=
  bindR (countAtPercentile h percentile) (fun countAtPercentile =>
    percentileScan h (PrimFloat.eqb percentile PrimFloat.zero) countAtPercentile
      (Z.to_nat h.(countsArrayLength)) 0 0).

(** ** [Math.log2] as the standard library computes it

    [Math.log2] is no part of [Histogram.ts]: it is [NativeMath.log2] of the
    AssemblyScript standard library (std/assembly/math.ts, after the log2.c
    of musl and FreeBSD).  Its algorithm is given here on Rocq's binary64
    numbers, as the reference the rounding cases of [log2_integer] above are
    checked against. *)

(** [reinterpret<u64>(x)]: the 64 bits of a double. *)
Definition reinterpret_u64 (x : f64) : Z :=
  match Prim2SF x with
  | S754_zero s => if s then 2 ^ 63 else 0
  | S754_infinity s => (if s then 2 ^ 63 else 0) + 2047 * 2 ^ 52
  | S754_nan => 2047 * 2 ^ 52 + 2 ^ 51
  | S754_finite s m e =>
      (if s then 2 ^ 63 else 0)
      + (if 2 ^ 52 <=? Z.pos m then (e + 1075) * 2 ^ 52 + (Z.pos m - 2 ^ 52)
         else Z.pos m)
  end%Z.

(** [reinterpret<f64>(u)]: the double of 64 bits. *)
Definition reinterpret_f64 (u : Z) : f64 :=
  (let s := 2 ^ 63 <=? u in
   let e := (u / 2 ^ 52) mod 2 ^ 11 in
   let m := u mod 2 ^ 52 in
   if e =? 2047 then
     if m =? 0 then (if s then PrimFloat.neg_infinity else PrimFloat.infinity)
     else PrimFloat.nan
   else
     match (if e =? 0 then m else m + 2 ^ 52) with
     | Z.pos p => SF2Prim (S754_finite s p (if e =? 0 then - 1074 else e - 1075))
     | _ => if s then PrimFloat.opp PrimFloat.zero else PrimFloat.zero
     end)%Z.

Definition ivln2hi : f64 := reinterpret_f64 0x3FF7154765200000.
Definition ivln2lo : f64 := reinterpret_f64 0x3DE705FC2EEFA200.
Definition Lg1 : f64 := reinterpret_f64 0x3FE5555555555593.
Definition Lg2 : f64 := reinterpret_f64 0x3FD999999997FA04.
Definition Lg3 : f64 := reinterpret_f64 0x3FD2492494229359.
Definition Lg4 : f64 := reinterpret_f64 0x3FCC71C51D8E78AF.
Definition Lg5 : f64 := reinterpret_f64 0x3FC7466496CB03DE.
Definition Lg6 : f64 := reinterpret_f64 0x3FC39A09D078C69F.
Definition Lg7 : f64 := reinterpret_f64 0x3FC2F112DF3E5244.
Definition Ox1p54 : f64 := reinterpret_f64 0x4350000000000000.

(** The body of [log2] once [x] is a positive normal double, [k] being what
    the scaling of a subnormal has put into the exponent. *)
Definition log2_reduced (k0 : Z) (x : f64) : f64 :=
  let u := reinterpret_u64 x in
  let hx := (u / 2 ^ 32)%Z in
  let hx := ((hx + (0x3FF00000 - 0x3FE6A09E)) mod 2 ^ 32)%Z in
  let k := (k0 + (hx / 2 ^ 20 - 0x3FF))%Z in
  let hx := (hx mod 2 ^ 20 + 0x3FE6A09E)%Z in
  let u := (hx * 2 ^ 32 + u mod 2 ^ 32)%Z in
  let x := reinterpret_f64 u in
  let f := PrimFloat.sub x (f64_of_Z 1) in
  let hfsq := PrimFloat.mul (PrimFloat.mul (PrimFloat.div (f64_of_Z 1) (f64_of_Z 2)) f) f in
  let s := PrimFloat.div f (PrimFloat.add (f64_of_Z 2) f) in
  let z := PrimFloat.mul s s in
  let w := PrimFloat.mul z z in
  let t1 :=
    PrimFloat.mul w
      (PrimFloat.add Lg2
         (PrimFloat.mul w (PrimFloat.add Lg4 (PrimFloat.mul w Lg6)))) in
  let t2 :=
    PrimFloat.mul z
      (PrimFloat.add Lg1
         (PrimFloat.mul w
            (PrimFloat.add Lg3
               (PrimFloat.mul w (PrimFloat.add Lg5 (PrimFloat.mul w Lg7)))))) in
  let r := PrimFloat.add t2 t1 in
  let hi := PrimFloat.sub f hfsq in
  let u := reinterpret_u64 hi in
  let u := (u - u mod 2 ^ 32)%Z in
  let hi := reinterpret_f64 u in
  let lo :=
    PrimFloat.add (PrimFloat.sub (PrimFloat.sub f hi) hfsq)
      (PrimFloat.mul s (PrimFloat.add hfsq r)) in
  let val_hi := PrimFloat.mul hi ivln2hi in
  let val_lo :=
    PrimFloat.add (PrimFloat.mul (PrimFloat.add lo hi) ivln2lo)
      (PrimFloat.mul lo ivln2hi) in
  let y := f64_of_Z k in
  let w := PrimFloat.add y val_hi in
  let val_lo := PrimFloat.add val_lo (PrimFloat.add (PrimFloat.sub y w) val_hi) in
  let val_hi := w in
  PrimFloat.add val_lo val_hi.

Definition Math_log2 (x : f64) : f64 :=
  let u := reinterpret_u64 x in
  let hx := (u / 2 ^ 32)%Z in
  if ((hx <? 0x00100000) || (2 ^ 31 <=? hx))%Z then
    if (u mod 2 ^ 63 =? 0)%Z then
      PrimFloat.div (PrimFloat.opp (f64_of_Z 1)) (PrimFloat.mul x x)
    else if (2 ^ 31 <=? hx)%Z then
      PrimFloat.div (PrimFloat.sub x x) PrimFloat.zero
    else log2_reduced (- 54) (PrimFloat.mul x Ox1p54)
  else if (0x7FF00000 <=? hx)%Z then x
  else if ((hx =? 0x3FF00000) && (u mod 2 ^ 32 =? 0))%Z then PrimFloat.zero
  else log2_reduced 0 x.

(** [floor(x)]: the greatest integer double at or below [x]. *)
Definition f64_floor (x : f64) : f64 :=
  match Prim2SF x with
  | S754_finite s m e =>
      if (0 <=? e)%Z then x
      else
        let v := if s then Z.neg m else Z.pos m in
        let c := (v / 2 ^ (- e))%Z in
        if (c =? 0)%Z then (if s then PrimFloat.opp PrimFloat.zero else PrimFloat.zero)
        else f64_of_Z c
  | _ => x
  end.

(** The doubles next to a power of two [2^K]: the [n] doubles before it and
    the [n] doubles after it that a [u64] converts to. *)
Definition doublesAround (K : Z) (n : nat) : list Z :=
  let below := if K <=? 53 then 1 else 2 ^ (K - 53) in
  let above := if K <=? 52 then 1 else 2 ^ (K - 52) in
  List.filter (fun x => (0 <? x) && (x <=? 2 ^ 64))
    (List.map (fun j => 2 ^ K - Z.of_nat j * below) (seq 1 n)
     ++ 2 ^ K :: List.map (fun j => 2 ^ K + Z.of_nat j * above) (seq 1 n)).

(** Whether [floor_log2] and [ceil_log2] are, at a double [x], the floor
    and the ceiling of what the algorithm computes. *)
Definition log2_model_agrees (x : Z) : bool :=
  let r := Math_log2 (f64_of_Z x) in
  match floor_log2 x, u64_of_f64 (f64_floor r), u64_of_f64 (f64_ceil r) with
  | Some l, Ok l', Ok c' => (l =? l') && (ceil_log2 x =? c')
  | _, _, _ => false
  end.

(** ** Sequences of operations *)

(** The four operations that change the counters, and a sequence of them
    run on one histogram. *)
Inductive Operation : Type :=
| RecordValue (value : Z)
| RecordCountAtValue (count value : Z)
| Add (otherHistogram : Histogram)
| Reset.

Definition perform (op : Operation) : M unit :=
  match op with
  | RecordValue value => recordValue value
  | RecordCountAtValue count value => recordCountAtValue count value
  | Add otherHistogram => add otherHistogram
  | Reset => reset
  end.

Fixpoint performAll (ops : list Operation) : M unit :=
  match ops with
  | [] => ret tt
  | op :: rest => do_ perform op; performAll rest
  end.

(** ** Observations *)

(** [n] values from [from] down, in steps of [step]. *)
Fixpoint stepsDown (n : nat) (from step : Z) : list Z :=
  match n with
  | O => []
  | S n' => from :: stepsDown n' (from - step) step
  end.

(** The synthetic samples of the correction for a value [v] and an interval
    [E > 0]: [v - E], [v - 2E], ... as long as they are at least [E]. *)
Definition syntheticSamples (v E : Z) : list Z :=
  stepsDown (Z.to_nat (v / E - 1)) (v - E) E.

(** The counters that are not zero, each with the value of its index. *)
Definition recordedCounts (h : Histogram) : list (Z * Z) :=
  omap (fun p : Z * Z => if snd p =? 0 then None
                         else Some (valueFromIndex h (fst p), snd p))
    (imap (fun i c => (Z.of_nat i, c)) h.(counts)).

(** ** Sums of counters *)

(** The sum of [counts[i]] over the whole counts array. *)
Definition sumOfCounts (h : Histogram) : Z := foldr Z.add 0 h.(counts).

(** [totalToCurrentIndex] after the loop of [getValueAtPercentile] has added
    the counters up to index [i], wrap-around included. *)
Definition totalToIndex (h : Histogram) (i : Z) : Z :=
  fold_left (fun total c => u64 (total + u64 c))
    (take (Z.to_nat (i + 1)) h.(counts)) 0.

(** The counters of two arrays added pairwise by index, each sum wrapped
    to the counter width [w]. *)
Definition addPairwise (w : Z) (counts otherCounts : list Z) : list Z :=
  zip_with (fun c otherCount => wrapU w (c + otherCount)) counts otherCounts.

(** What separates [totalCount] from the sum of the counters, and what is
    left of conservation when counters wrap: the two agree modulo
    [2^counterBits]. *)
Definition defect (h : Histogram) : Z := h.(totalCount) - sumOfCounts h.

Definition conserved_modulo_width (h : Histogram) : Prop :=
  0 <= h.(counterBits) <= 64 /\ (2 ^ h.(counterBits) | defect h).

(** [moves m h d]: when [m], run on [h], returns, it has kept the counter
    width and changed the defect by [d], modulo [2^counterBits]. *)
Definition moves {A : Type} (m : M A) (h : Histogram) (d : Z) : Prop :=
  forall a h',
    m h = Return a h' ->
    h'.(counterBits) = h.(counterBits)
    /\ (2 ^ h.(counterBits) | defect h' - defect h - d).

(** ** Well-formed layouts *)

(** What [init] establishes about the fields no later method assigns: the
    sub-bucket counts are the powers of two of [subBucketHalfCountMagnitude],
    the mask covers the [unitMagnitude] low bits, and bucket 0 ends below
    [2^64]. *)
Record layout_base (h : Histogram) : Prop := mk_layout_base {
  lo_hm : 0 <= h.(subBucketHalfCountMagnitude) <= 17;
  lo_u : 0 <= h.(unitMagnitude);
  lo_fit : h.(subBucketHalfCountMagnitude) + h.(unitMagnitude) <= 62;
  lo_half : h.(subBucketHalfCount) = 2 ^ h.(subBucketHalfCountMagnitude);
  lo_sbc : h.(subBucketCount) = 2 ^ (h.(subBucketHalfCountMagnitude) + 1);
  lo_mask : h.(unitMagnitudeMask) = 2 ^ h.(unitMagnitude) - 1
}.

(** What [establishSize] adds, in [init] and in [resize]: the top bucket
    ends at or below [2^64], and the counts array has a half bucket more
    than [bucketCount] half buckets. *)
Record layout_ok (h : Histogram) : Prop := mk_layout_ok {
  lo_base : layout_base h;
  lo_B : 1 <= h.(bucketCount);
  lo_top :
    h.(subBucketHalfCountMagnitude) + h.(unitMagnitude) + h.(bucketCount) <= 64;
  lo_len :
    h.(countsArrayLength)
    = (h.(bucketCount) + 1) * 2 ^ h.(subBucketHalfCountMagnitude)
}.

(** What every histogram satisfies from its construction on: the layout is
    well formed, the counts array has the length the layout asks for, and
    every counter fits its width. *)
Record well_formed (h : Histogram) : Prop := mk_well_formed {
  wf_layout : layout_ok h;
  wf_width : 0 <= h.(counterBits) <= 64;
  wf_length : h.(countsArrayLength) = Z.of_nat (length h.(counts));
  wf_range : Forall (fun c => 0 <= c < 2 ^ h.(counterBits)) h.(counts)
}.

(** [keeps P m h]: when [m], run on [h], returns, the histogram it leaves
    satisfies [P]. *)
Definition keeps {A : Type} (P : Histogram -> Prop) (m : M A) (h : Histogram)
  : Prop :=
  forall a h', m h = Return a h' -> P h'.

(** ** Fields by the methods that assign them *)

(** The fields no method assigns once [init] has run. *)
Definition geometry (h : Histogram) :=
  (h.(autoResize), h.(lowestDiscernibleValue), h.(numberOfSignificantValueDigits),
   h.(subBucketCount), h.(leadingZeroCountBase), h.(subBucketHalfCountMagnitude),
   h.(unitMagnitude), h.(subBucketHalfCount), h.(subBucketMask),
   h.(unitMagnitudeMask), h.(counterBits)).

(** The fields [establishSize] and [handleRecordException] assign. *)
Definition sizing (h : Histogram) :=
  (h.(highestTrackableValue), h.(bucketCount), h.(countsArrayLength)).

(** The two time stamps. *)
Definition timeStamps (h : Histogram) :=
  (h.(startTimeStampMsec), h.(endTimeStampMsec)).

(** ** Recorded values by index *)

(** Whether [index] is the index of [value], and how many of [values] have
    the index [index]. *)
Definition hasIndex (h : Histogram) (index value : Z) : bool :=
  match countsArrayIndex h value with
  | Ok i => i =? index
  | Err _ => false
  end.

Definition recordedAt (h : Histogram) (index : Z) (values : list Z) : Z :=
  Z.of_nat (length (List.filter (hasIndex h index) values)).

(** [fixed_size h0 h]: [h] has the geometry, the sizing and the number of
    counters of [h0], a histogram that does not resize. *)
Definition fixed_size (h0 h : Histogram) : Prop :=
  h0.(autoResize) = false
  /\ geometry h = geometry h0 /\ sizing h = sizing h0
  /\ length h.(counts) = length h0.(counts).

(** The fields that neither a counter update nor a resize assigns. *)
Definition bookkeeping (h : Histogram) :=
  (h.(maxValue), h.(minNonZeroValue), h.(unitMagnitudeMask), h.(totalCount)).

(** * Properties *)

(** ** Machine arithmetic *)

Lemma u64_small (x : Z) : 0 <= x < 2 ^ 64 -> u64 x = x.
Proof. intros Hx. unfold u64, wrapU. apply Z.mod_small. exact Hx. Qed.

Lemma u64_range (x : Z) : 0 <= u64 x < 2 ^ 64.
Proof. unfold u64, wrapU. apply Z.mod_pos_bound. lia. Qed.

Lemma wrapU_range (w x : Z) : 0 <= w -> 0 <= wrapU w x < 2 ^ w.
Proof. intros Hw. unfold wrapU. apply Z.mod_pos_bound. apply Z.pow_pos_nonneg; lia. Qed.

Lemma i32_small (x : Z) : - 2 ^ 31 <= x < 2 ^ 31 -> i32 x = x.
Proof. intros Hx. unfold i32. rewrite Z.mod_small; lia. Qed.

Lemma pow2_pos (n : Z) : 0 <= n -> 0 < 2 ^ n.
Proof. intros. apply Z.pow_pos_nonneg; lia. Qed.

Lemma pow2_le (a b : Z) : 0 <= a <= b -> 2 ^ a <= 2 ^ b.
Proof. intros. apply Z.pow_le_mono_r; lia. Qed.

Lemma pow2_lt (a b : Z) : 0 <= a < b -> 2 ^ a < 2 ^ b.
Proof. intros. apply Z.pow_lt_mono_r; lia. Qed.

Lemma shl64_spec (x n : Z) : 0 <= n < 64 -> shl64 x n = u64 (x * 2 ^ n).
Proof.
  intros Hn. unfold shl64. rewrite Z.mod_small by lia.
  rewrite Z.shiftl_mul_pow2 by lia. reflexivity.
Qed.

Lemma shr64_spec (x n : Z) : 0 <= n < 64 -> shr64 x n = x / 2 ^ n.
Proof.
  intros Hn. unfold shr64. rewrite Z.mod_small by lia.
  apply Z.shiftr_div_pow2. lia.
Qed.

Lemma shl32_one (n : Z) : 0 <= n <= 30 -> shl32 1 n = 2 ^ n.
Proof.
  intros Hn. unfold shl32. rewrite Z.mod_small by lia.
  rewrite Z.shiftl_mul_pow2 by lia. rewrite Z.mul_1_l.
  apply i32_small. split.
  - pose proof (pow2_pos n). lia.
  - apply (pow2_lt n 31). lia.
Qed.

Lemma shr32_spec (x n : Z) : 0 <= n < 32 -> shr32 x n = x / 2 ^ n.
Proof.
  intros Hn. unfold shr32. rewrite Z.mod_small by lia.
  apply Z.shiftr_div_pow2. lia.
Qed.

(** ** Conversion to double *)

(** An integer of at most 53 significant bits is a double. *)
Lemma f64_of_u64_exact (s k : Z) :
  0 <= s < 2 ^ 53 -> 0 <= k -> f64_of_u64 (s * 2 ^ k) = s * 2 ^ k.
Proof.
  intros Hs Hk. unfold f64_of_u64. cbv zeta.
  destruct (Z.leb_spec (Z.log2 (s * 2 ^ k) - 52) 0) as [|He]; [reflexivity|].
  assert (Hs0 : 0 < s).
  { destruct (Z.eq_dec s 0) as [->|]; [|lia]. rewrite Z.mul_0_l in He.
    change (Z.log2 0) with 0 in He. lia. }
  rewrite Z.log2_mul_pow2 in * by lia.
  assert (Hl : Z.log2 s <= 52).
  { assert (Z.log2 s < 53); [|lia]. apply Z.log2_lt_pow2; lia. }
  pose proof (Z.log2_nonneg s) as Hl0.
  set (e := k + Z.log2 s - 52) in *.
  assert (Hdiv : s * 2 ^ k = (s * 2 ^ (k - e)) * 2 ^ e).
  { rewrite <- Z.mul_assoc, <- Z.pow_add_r by lia. f_equal. f_equal. lia. }
  assert (Hr : (s * 2 ^ k) mod 2 ^ e = 0).
  { rewrite Hdiv. apply Z.mod_mul. pose proof (pow2_pos e). lia. }
  rewrite Hr.
  assert (Hhalf : 0 < 2 ^ (e - 1)) by (apply pow2_pos; lia).
  replace (2 ^ (e - 1) <? 0) with false by (symmetry; apply Z.ltb_ge; lia).
  replace (0 =? 2 ^ (e - 1)) with false by (symmetry; apply Z.eqb_neq; lia).
  cbn [orb andb].
  rewrite Z.shiftr_div_pow2, Z.shiftl_mul_pow2 by lia.
  rewrite Hdiv at 1. rewrite Z.div_mul by (pose proof (pow2_pos e); lia).
  lia.
Qed.

(** The conversion never passes the next power of two. *)
Lemma f64_of_u64_bounds (v : Z) :
  0 < v -> 2 ^ Z.log2 v <= f64_of_u64 v <= 2 ^ (Z.log2 v + 1).
Proof.
  intros Hv. pose proof (Z.log2_spec v Hv) as [Hlo Hhi].
  rewrite <- Z.add_1_r in Hhi. unfold f64_of_u64. cbv zeta.
  destruct (Z.leb_spec (Z.log2 v - 52) 0) as [|He]; [lia|].
  set (e := Z.log2 v - 52) in *.
  rewrite Z.shiftr_div_pow2 by lia.
  assert (H2e : 0 < 2 ^ e) by (apply pow2_pos; lia).
  assert (Hq : 2 ^ 52 <= v / 2 ^ e < 2 ^ 53).
  { split.
    - apply Z.div_le_lower_bound; [lia|]. rewrite <- Z.pow_add_r by lia.
      replace (e + 52) with (Z.log2 v) by lia. lia.
    - apply Z.div_lt_upper_bound; [lia|]. rewrite <- Z.pow_add_r by lia.
      replace (e + 53) with (Z.log2 v + 1) by lia. lia. }
  assert (Hsplit : 2 ^ Z.log2 v = 2 ^ 52 * 2 ^ e).
  { rewrite <- Z.pow_add_r by lia. f_equal. lia. }
  assert (Hsplit' : 2 ^ (Z.log2 v + 1) = 2 ^ 53 * 2 ^ e).
  { rewrite <- Z.pow_add_r by lia. f_equal. lia. }
  destruct ((2 ^ (e - 1) <? v mod 2 ^ e) || ((v mod 2 ^ e =? 2 ^ (e - 1)) && Z.odd (v / 2 ^ e)));
    rewrite Z.shiftl_mul_pow2 by lia; nia.
Qed.

(** ** The logarithm of a double *)

(** Far enough from [2^K], no logarithm rounds to [K]: for the doubles up
    to [2^64] the distance [2^(K-48)] is enough. *)
Lemma log2_rounds_to_far (K e d : Z) :
  0 <= K -> 0 <= e <= 5 -> 2 ^ K <= d * 2 ^ 48 ->
  log2_rounds_to K e d = false.
Proof.
  intros HK He Hd. unfold log2_rounds_to, ln2_e18. apply Z.leb_gt.
  assert (H2K : 0 < 2 ^ K) by (apply pow2_pos; lia).
  assert (Hd0 : 0 < d) by nia.
  assert (H48 : 2 ^ 48 <= 2 ^ (53 - e)) by (apply pow2_le; lia).
  assert (H1 : d * 2 ^ 48 <= d * 2 ^ (53 - e)) by nia.
  change (10 ^ 18) with 1000000000000000000.
  set (X := 2 ^ K) in *. set (Y := 2 ^ (53 - e)) in *.
  set (Z48 := 2 ^ 48) in *. nia.
Qed.

(** [floor(Math.log2(x))] is the position of the highest bit of [x], or
    one more. *)
Lemma floor_log2_bounds (x : Z) :
  0 < x ->
  exists l, floor_log2 x = Some l /\ Z.log2 x <= l <= Z.log2 x + 1
            /\ (x = 2 ^ Z.log2 x -> l = Z.log2 x).
Proof.
  intros Hx. unfold floor_log2, log2_integer. cbv zeta.
  destruct (Z.leb_spec x 0); [lia|].
  destruct (Z.eqb_spec x (2 ^ Z.log2 x)) as [Heq|Hne].
  - eexists. split; [reflexivity|]. split; [lia|reflexivity].
  - destruct ((1 <=? Z.log2 x)
              && log2_rounds_to (Z.log2 x + 1) (Z.log2 (Z.log2 x))
                   (2 ^ (Z.log2 x + 1) - x)).
    + eexists. split; [reflexivity|]. split; [lia|]. intros; contradiction.
    + destruct ((1 <=? Z.log2 x)
                && log2_rounds_to (Z.log2 x) (Z.log2 (Z.log2 x))
                     (x - 2 ^ Z.log2 x));
        (eexists; split; [reflexivity|]; split; [lia|reflexivity]).
Qed.

(** It is the position of the highest bit when [x] is not within
    [2^(K-48)] of the next power of two [2^K]. *)
Lemma floor_log2_exact (x : Z) :
  0 < x < 2 ^ 64 ->
  2 ^ (Z.log2 x + 1) <= (2 ^ (Z.log2 x + 1) - x) * 2 ^ 48 ->
  floor_log2 x = Some (Z.log2 x).
Proof.
  intros Hx Hfar. unfold floor_log2, log2_integer. cbv zeta.
  destruct (Z.leb_spec x 0); [lia|].
  assert (Hk : 0 <= Z.log2 x < 64).
  { split; [apply Z.log2_nonneg|]. apply Z.log2_lt_pow2; lia. }
  destruct (Z.eqb_spec x (2 ^ Z.log2 x)); [reflexivity|].
  destruct (Z.leb_spec 1 (Z.log2 x)) as [Hk1|Hk0]; cbn [andb].
  - rewrite log2_rounds_to_far.
    + destruct (log2_rounds_to (Z.log2 x) (Z.log2 (Z.log2 x)) (x - 2 ^ Z.log2 x));
        reflexivity.
    + lia.
    + split; [apply Z.log2_nonneg|].
      assert (Z.log2 (Z.log2 x) < 6); [|lia].
      apply Z.log2_lt_pow2; [lia|]. change (2 ^ 6) with 64. lia.
    + exact Hfar.
  - reflexivity.
Qed.

(** So it is for every integer below [2^48]. *)
Lemma floor_log2_below_2_48 (x : Z) :
  0 < x < 2 ^ 48 -> floor_log2 x = Some (Z.log2 x).
Proof.
  intros Hx. apply floor_log2_exact.
  - change (2 ^ 64) with 18446744073709551616.
    change (2 ^ 48) with 281474976710656 in Hx. lia.
  - pose proof (Z.log2_spec x ltac:(lia)) as [Hlo Hhi].
    rewrite <- Z.add_1_r in Hhi.
    assert (Hl : Z.log2 x < 48) by (apply Z.log2_lt_pow2; lia).
    pose proof (Z.log2_nonneg x).
    assert (2 ^ (Z.log2 x + 1) <= 2 ^ 48) by (apply pow2_le; lia).
    nia.
Qed.

(** And for an integer of at most 48 significant bits, whatever its size. *)
Lemma floor_log2_scaled (s k : Z) :
  0 < s < 2 ^ 48 -> 0 <= k -> s * 2 ^ k < 2 ^ 64 ->
  floor_log2 (s * 2 ^ k) = Some (Z.log2 s + k).
Proof.
  intros Hs Hk Hlim.
  assert (H2k : 0 < 2 ^ k) by (apply pow2_pos; lia).
  assert (Hlog : Z.log2 (s * 2 ^ k) = Z.log2 s + k) by (rewrite Z.log2_mul_pow2 by lia; lia).
  rewrite <- Hlog. apply floor_log2_exact; [nia|].
  rewrite Hlog.
  pose proof (Z.log2_spec s ltac:(lia)) as [Hlo Hhi].
  rewrite <- Z.add_1_r in Hhi.
  assert (Hl : Z.log2 s < 48) by (apply Z.log2_lt_pow2; lia).
  pose proof (Z.log2_nonneg s).
  replace (Z.log2 s + k + 1) with ((Z.log2 s + 1) + k) by lia.
  rewrite Z.pow_add_r by lia.
  assert (2 ^ (Z.log2 s + 1) <= 2 ^ 48) by (apply pow2_le; lia).
  set (P := 2 ^ (Z.log2 s + 1)) in *. set (Q := 2 ^ k) in *.
  assert (1 <= P - s) by lia.
  assert (P * Q <= 2 ^ 48 * Q) by nia.
  assert (2 ^ 48 * Q <= (P - s) * Q * 2 ^ 48) by nia.
  lia.
Qed.

(** Where the logarithm rounds: [2^48 - 1] is the last integer before a
    power of two whose logarithm stays below the next integer; from
    [2^49 - 1] on the integers next to a power of two have it as their
    logarithm, and [2^64 - 1] is the double [2^64]. *)
Lemma floor_log2_rounding_examples :
  floor_log2 (f64_of_u64 (2 ^ 48 - 1)) = Some 47
  /\ floor_log2 (f64_of_u64 (2 ^ 49 - 1)) = Some 49
  /\ floor_log2 (f64_of_u64 (2 ^ 49 - 2)) = Some 48
  /\ floor_log2 (f64_of_u64 (2 ^ 52 - 1)) = Some 52
  /\ floor_log2 (f64_of_u64 (2 ^ 53 - 1)) = Some 53
  /\ floor_log2 (f64_of_u64 (2 ^ 53 - 22)) = Some 53
  /\ floor_log2 (f64_of_u64 (2 ^ 53 - 23)) = Some 52
  /\ floor_log2 (f64_of_u64 (2 ^ 64 - 1)) = Some 64
  /\ ceil_log2 (f64_of_u64 (2 ^ 49 + 1)) = 49
  /\ ceil_log2 (f64_of_u64 (2 ^ 49 + 2)) = 50.
Proof. repeat split; vm_compute; reflexivity. Qed.

(** The rounding cases of [log2_integer] are those of the algorithm of
    [Math.log2]: at every power of two from [2^0] to [2^64] and at the
    doubles next to it, [floor_log2] and [ceil_log2] are the floor and the
    ceiling of what [Math_log2] computes.  Below [2^49] no logarithm rounds
    to an integer, and two doubles on each side are looked at; from [2^49]
    on, the 23 doubles on each side, which are all that round and the first
    that does not. *)
Lemma log2_integer_agrees_with_Math_log2 :
  forallb
    (fun K =>
       forallb log2_model_agrees
         (doublesAround (Z.of_nat K) (if (K <? 49)%nat then 2 else 23)))
    (seq 0 65) = true.
Proof. vm_compute. reflexivity. Qed.

(** ** Values and indexes of a well-formed layout *)

Section Layout.
Variable h : Histogram.
Hypothesis Hok : layout_ok h.

Let hm := h.(subBucketHalfCountMagnitude).
Let um := h.(unitMagnitude).
Let B := h.(bucketCount).

Lemma layout_bounds :
  0 <= hm <= 17 /\ 0 <= um <= 62 /\ 1 <= B <= 64 /\ hm + um + B <= 64
  /\ hm + um <= 62.
Proof. destruct Hok as [[] ? ? ?]. subst hm um B. lia. Qed.

Lemma bucketIndex_of_scaled (s k : Z) :
  0 < s < 2 ^ 48 -> 0 <= k -> s * 2 ^ k < 2 ^ 64 ->
  getBucketIndex h (s * 2 ^ k) = i32 (Z.max (Z.log2 s + k - hm - um) 0).
Proof.
  intros Hs Hk Hlim. unfold getBucketIndex.
  rewrite f64_of_u64_exact
    by (change (2 ^ 53) with 9007199254740992;
        change (2 ^ 48) with 281474976710656 in Hs; lia).
  rewrite floor_log2_scaled by assumption. reflexivity.
Qed.

(** A value of bucket [k] is the sub-bucket index [s] shifted by [k]
    and the unit magnitude. *)
Lemma countsArrayIndex_of_upper (s k : Z) :
  2 ^ hm <= s < 2 ^ (hm + 1) -> 0 <= k < B ->
  countsArrayIndex h (s * 2 ^ (k + um)) = Ok ((k + 1) * 2 ^ hm + (s - 2 ^ hm)).
Proof.
  intros Hs Hk. pose proof layout_bounds as (Hhm & Hum & HB & Htop & Hfit).
  assert (H2hm : 0 < 2 ^ hm) by (apply pow2_pos; lia).
  assert (Hs48 : 2 ^ (hm + 1) <= 2 ^ 48) by (apply pow2_le; lia).
  assert (Hs18 : 2 ^ (hm + 1) <= 2 ^ 18) by (apply pow2_le; lia).
  assert (H2k : 0 < 2 ^ (k + um)) by (apply pow2_pos; lia).
  assert (Hlim : s * 2 ^ (k + um) < 2 ^ 64).
  { assert (2 ^ (hm + 1) * 2 ^ (k + um) <= 2 ^ 64).
    { rewrite <- Z.pow_add_r by lia. apply pow2_le. lia. }
    nia. }
  unfold countsArrayIndex.
  destruct (Z.ltb_spec (s * 2 ^ (k + um)) 0); [nia|].
  rewrite bucketIndex_of_scaled by lia.
  assert (Hlog : Z.log2 s = hm).
  { apply Z.log2_unique; [lia|]. rewrite <- Z.add_1_r. lia. }
  rewrite Hlog, Z.max_l by lia.
  replace (hm + (k + um) - hm - um) with k by lia.
  rewrite (i32_small k) by lia.
  unfold getSubBucketIndex. fold um.
  rewrite shr64_spec by lia.
  rewrite Z.div_mul by lia.
  rewrite (i32_small s) by lia.
  unfold computeCountsArrayIndex.
  pose proof (lo_half h (lo_base h Hok)) as Hhalf. pose proof (lo_sbc h (lo_base h Hok)) as Hsbc.
  fold hm in Hhalf, Hsbc.
  rewrite Hhalf, Hsbc. fold hm.
  destruct (Z.ltb_spec s (2 ^ (hm + 1))); [|lia]. cbn [negb].
  destruct (Z.leb_spec (2 ^ hm) s); [|lia]. rewrite orb_true_r. cbn [negb].
  rewrite shl32_one by lia.
  assert (Hk2 : 0 <= (k + 1) * 2 ^ hm <= 65 * 2 ^ 17).
  { assert (2 ^ hm <= 2 ^ 17) by (apply pow2_le; lia). nia. }
  change (2 ^ 18) with 262144 in Hs18. change (2 ^ 17) with 131072 in Hk2.
  rewrite Z.add_1_r, Z.pow_succ_r in Hs, Hs18 by lia.
  set (P := 2 ^ hm) in *. set (Q := (k + 1) * P) in *.
  rewrite (i32_small Q), (i32_small (s - P)), i32_small;
    try reflexivity; change (2 ^ 31) with 2147483648; lia.
Qed.

(** A value of the lower half of bucket 0. *)
Lemma countsArrayIndex_of_lower (s : Z) :
  0 <= s < 2 ^ hm ->
  countsArrayIndex h (s * 2 ^ um) = Ok s.
Proof.
  intros Hs. pose proof layout_bounds as (Hhm & Hum & HB & Htop & Hfit).
  assert (H2hm : 0 < 2 ^ hm) by (apply pow2_pos; lia).
  assert (Hs17 : 2 ^ hm <= 2 ^ 17) by (apply pow2_le; lia).
  assert (H2u : 0 < 2 ^ um) by (apply pow2_pos; lia).
  change (2 ^ 17) with 131072 in Hs17.
  unfold countsArrayIndex.
  destruct (Z.ltb_spec (s * 2 ^ um) 0); [nia|].
  assert (Hb : getBucketIndex h (s * 2 ^ um) = 0).
  { destruct (Z.eq_dec s 0) as [->|Hne].
    - reflexivity.
    - assert (Hlim : s * 2 ^ um < 2 ^ 64).
      { assert (2 ^ hm * 2 ^ um <= 2 ^ 62).
        { rewrite <- Z.pow_add_r by lia. apply pow2_le. lia. }
        change (2 ^ 62) with 4611686018427387904 in *.
        change (2 ^ 64) with 18446744073709551616. nia. }
      rewrite bucketIndex_of_scaled
        by (try assumption; change (2 ^ 48) with 281474976710656; lia).
      assert (Z.log2 s < hm) by (apply Z.log2_lt_pow2; lia).
      rewrite Z.max_r by lia. reflexivity. }
  rewrite Hb. unfold getSubBucketIndex. fold um. rewrite Z.add_0_l.
  rewrite shr64_spec by lia. rewrite Z.div_mul by lia.
  rewrite (i32_small s) by (change (2 ^ 31) with 2147483648; lia).
  unfold computeCountsArrayIndex.
  pose proof (lo_half h (lo_base h Hok)) as Hhalf. pose proof (lo_sbc h (lo_base h Hok)) as Hsbc.
  fold hm in Hhalf, Hsbc.
  rewrite Hhalf, Hsbc. fold hm.
  rewrite Z.add_1_r, Z.pow_succ_r by lia.
  destruct (Z.ltb_spec s (2 * 2 ^ hm)); [|lia]. cbn [negb orb Z.eqb].
  rewrite shl32_one by lia. change (0 + 1) with 1. rewrite Z.mul_1_l.
  set (P := 2 ^ hm) in *.
  rewrite (i32_small P), (i32_small (s - P)), i32_small;
    try (f_equal; lia); change (2 ^ 31) with 2147483648; lia.
Qed.

(** A value below the unit, [2^unitMagnitude], has the index 0, whatever
    its logarithm rounds to. *)
Lemma countsArrayIndex_below_unit (v : Z) :
  0 <= v <= h.(unitMagnitudeMask) -> countsArrayIndex h v = Ok 0.
Proof.
  intros Hv. pose proof layout_bounds as (Hhm & Hum & HB & Htop & Hfit).
  rewrite (lo_mask h (lo_base h Hok)) in Hv. fold um in Hv.
  assert (H2u : 0 < 2 ^ um) by (apply pow2_pos; lia).
  assert (H2hm : 0 < 2 ^ hm) by (apply pow2_pos; lia).
  assert (Hs17 : 2 ^ hm <= 2 ^ 17) by (apply pow2_le; lia).
  change (2 ^ 17) with 131072 in Hs17.
  unfold countsArrayIndex. destruct (Z.ltb_spec v 0); [lia|].
  assert (Hb : getBucketIndex h v = 0).
  { unfold getBucketIndex. fold hm um.
    destruct (Z.eq_dec v 0) as [->|Hne]; [reflexivity|].
    pose proof (f64_of_u64_bounds v ltac:(lia)) as [Hlo Hhi].
    assert (Hlv : Z.log2 v < um) by (apply Z.log2_lt_pow2; lia).
    pose proof (Z.log2_nonneg v) as Hlv0.
    assert (0 < 2 ^ Z.log2 v) by (apply pow2_pos; lia).
    assert (Hx : f64_of_u64 v <= 2 ^ um).
    { assert (2 ^ (Z.log2 v + 1) <= 2 ^ um) by (apply pow2_le; lia). lia. }
    destruct (floor_log2_bounds (f64_of_u64 v)) as (l & -> & Hl & Hpow); [lia|].
    assert (l <= um).
    { destruct (Z.eq_dec (f64_of_u64 v) (2 ^ um)) as [Heq|Hneq].
      - rewrite Heq in Hpow. rewrite Z.log2_pow2 in Hpow by lia.
        rewrite Hpow by reflexivity. lia.
      - assert (Z.log2 (f64_of_u64 v) < um) by (apply Z.log2_lt_pow2; lia). lia. }
    rewrite Z.max_r by lia. reflexivity. }
  rewrite Hb. unfold getSubBucketIndex. fold um. rewrite Z.add_0_l.
  rewrite shr64_spec by lia. rewrite Z.div_small by lia.
  unfold computeCountsArrayIndex.
  pose proof (lo_half h (lo_base h Hok)) as Hhalf. pose proof (lo_sbc h (lo_base h Hok)) as Hsbc.
  fold hm in Hhalf, Hsbc.
  rewrite Hhalf, Hsbc. fold hm.
  rewrite Z.add_1_r, Z.pow_succ_r by lia.
  change (i32 0) with 0.
  destruct (Z.ltb_spec 0 (2 * 2 ^ hm)); [|lia]. cbn [negb orb Z.eqb].
  rewrite shl32_one by lia. change (0 + 1) with 1. rewrite Z.mul_1_l.
  set (P := 2 ^ hm) in *.
  rewrite (i32_small P), (i32_small (0 - P)), i32_small;
    try (f_equal; lia); change (2 ^ 31) with 2147483648; lia.
Qed.

Lemma valueFromIndex_lower (i : Z) :
  0 <= i < 2 ^ hm -> valueFromIndex h i = i * 2 ^ um.
Proof.
  intros Hi. pose proof layout_bounds as (Hhm & Hum & HB & Htop & Hfit).
  assert (Hs17 : 2 ^ hm <= 2 ^ 17) by (apply pow2_le; lia).
  change (2 ^ 17) with 131072 in Hs17.
  pose proof (lo_half h (lo_base h Hok)) as Hhalf. fold hm in Hhalf.
  unfold valueFromIndex. fold hm. rewrite Hhalf.
  rewrite shr32_spec by lia. rewrite Z.div_small by lia.
  change (i32 (0 - 1) <? 0) with true. cbv iota.
  rewrite (i32_small (2 ^ hm - 1)) by (change (2 ^ 31) with 2147483648; lia).
  replace (2 ^ hm - 1) with (Z.ones hm) by (rewrite Z.ones_equiv; lia).
  rewrite Z.land_ones by lia. rewrite Z.mod_small by lia.
  rewrite (i32_small (i + 2 ^ hm)) by (change (2 ^ 31) with 2147483648; lia).
  replace (i + 2 ^ hm - 2 ^ hm) with i by lia.
  rewrite (i32_small i) by (change (2 ^ 31) with 2147483648; lia).
  unfold valueFromIndexes. fold um. rewrite Z.add_0_l.
  assert (H2u : 2 ^ hm * 2 ^ um <= 2 ^ 63).
  { rewrite <- Z.pow_add_r by lia. apply pow2_le. lia. }
  assert (0 < 2 ^ um) by (apply pow2_pos; lia).
  change (2 ^ 63) with 9223372036854775808 in H2u.
  rewrite (u64_small i) by (change (2 ^ 64) with 18446744073709551616; lia).
  rewrite shl64_spec by lia. apply u64_small.
  change (2 ^ 64) with 18446744073709551616. nia.
Qed.

Lemma valueFromIndex_upper (i : Z) :
  2 ^ hm <= i < (B + 1) * 2 ^ hm ->
  valueFromIndex h i = (i mod 2 ^ hm + 2 ^ hm) * 2 ^ (i / 2 ^ hm - 1 + um)
  /\ 1 <= i / 2 ^ hm <= B.
Proof.
  intros Hi. pose proof layout_bounds as (Hhm & Hum & HB & Htop & Hfit).
  assert (Hs17 : 2 ^ hm <= 2 ^ 17) by (apply pow2_le; lia).
  assert (HP : 0 < 2 ^ hm) by (apply pow2_pos; lia).
  change (2 ^ 17) with 131072 in Hs17.
  pose proof (lo_half h (lo_base h Hok)) as Hhalf. fold hm in Hhalf.
  set (P := 2 ^ hm) in *.
  assert (Hk : 1 <= i / P <= B).
  { split.
    - apply Z.div_le_lower_bound; lia.
    - assert (i / P < B + 1); [|lia]. apply Z.div_lt_upper_bound; lia. }
  pose proof (Z.mod_pos_bound i P HP) as Hr.
  split; [|exact Hk].
  unfold valueFromIndex. fold hm. rewrite Hhalf. fold P.
  rewrite shr32_spec by lia. fold P.
  rewrite (i32_small (i / P - 1)) by (change (2 ^ 31) with 2147483648; lia).
  destruct (Z.ltb_spec (i / P - 1) 0); [lia|].
  rewrite (i32_small (P - 1)) by (change (2 ^ 31) with 2147483648; lia).
  replace (P - 1) with (Z.ones hm) by (rewrite Z.ones_equiv; subst P; lia).
  rewrite Z.land_ones by lia. fold P.
  rewrite (i32_small (i mod P + P)) by (change (2 ^ 31) with 2147483648; lia).
  unfold valueFromIndexes. fold um.
  rewrite (u64_small (i mod P + P)) by (change (2 ^ 64) with 18446744073709551616; lia).
  rewrite shl64_spec by lia. apply u64_small.
  set (k := i / P - 1 + um) in *.
  assert (H2k : 0 < 2 ^ k) by (apply pow2_pos; lia).
  assert (Hlim : (2 * P) * 2 ^ k <= 2 ^ 64).
  { subst P. rewrite <- (Z.pow_succ_r 2 hm), <- Z.pow_add_r by lia.
    apply pow2_le. lia. }
  nia.
Qed.

(** The index of the value of an index is that index. *)
Lemma index_round_trip_layout (i : Z) :
  0 <= i < h.(countsArrayLength) ->
  countsArrayIndex h (valueFromIndex h i) = Ok i.
Proof.
  intros Hi. pose proof layout_bounds as (Hhm & Hum & HB & Htop & Hfit).
  rewrite (lo_len h Hok) in Hi. fold hm B in Hi.
  assert (HP : 0 < 2 ^ hm) by (apply pow2_pos; lia).
  destruct (Z.lt_ge_cases i (2 ^ hm)) as [Hlow|Hup].
  - rewrite valueFromIndex_lower by lia. apply countsArrayIndex_of_lower. lia.
  - destruct (valueFromIndex_upper i) as [-> Hk]; [lia|].
    pose proof (Z.mod_pos_bound i (2 ^ hm) HP) as Hr.
    replace (i / 2 ^ hm - 1 + um) with ((i / 2 ^ hm - 1) + um) by lia.
    rewrite countsArrayIndex_of_upper.
    + f_equal. pose proof (Z.div_mod i (2 ^ hm)). lia.
    + rewrite Z.add_1_r, Z.pow_succ_r by lia. lia.
    + lia.
Qed.

(** *** Values below [2^48]

    Such a value converts to a double exactly, its logarithm does not round
    up to the next integer, and its bucket and sub-bucket indexes are those
    of the layout. *)

(** The canonical pair of a value: bucket 0 takes every sub-bucket index,
    the buckets above only the upper half. *)
Lemma indexes_of_value (x b s : Z) :
  0 <= x < 2 ^ 48 ->
  0 <= b -> b + um <= 62 ->
  0 <= s < 2 ^ (hm + 1) -> (b = 0 \/ 2 ^ hm <= s) ->
  s * 2 ^ (b + um) <= x < (s + 1) * 2 ^ (b + um) ->
  getBucketIndex h x = b /\ getSubBucketIndex h x b = s.
Proof.
  intros Hx Hb Hbu Hs Hcanon Hrange.
  pose proof layout_bounds as (Hhm & Hum & HB & Htop & Hfit).
  assert (H2k : 0 < 2 ^ (b + um)) by (apply pow2_pos; lia).
  assert (H2hm : 0 < 2 ^ hm) by (apply pow2_pos; lia).
  assert (Hs18 : 2 ^ (hm + 1) <= 2 ^ 18) by (apply pow2_le; lia).
  change (2 ^ 18) with 262144 in Hs18.
  assert (Hsub : x / 2 ^ (b + um) = s).
  { symmetry. apply (Z.div_unique x (2 ^ (b + um)) s (x - s * 2 ^ (b + um))); lia. }
  split.
  - unfold getBucketIndex.
    replace x with (x * 2 ^ 0) at 1 by (change (2 ^ 0) with 1; lia).
    rewrite f64_of_u64_exact
      by (change (2 ^ 53) with 9007199254740992;
          change (2 ^ 48) with 281474976710656 in Hx; lia).
    rewrite Z.mul_1_r. fold hm um.
    destruct (Z.leb_spec x 0) as [Hx0|Hx0].
    + (* x = 0: s = 0, so the bucket is the first *)
      assert (x = 0) by lia. subst x. change (floor_log2 0) with (@None Z).
      cbv iota. assert (s = 0) by nia. destruct Hcanon; [lia|lia].
    + rewrite floor_log2_below_2_48 by lia.
      destruct Hcanon as [->|Hhalf].
      * assert (Z.log2 x < hm + 1 + um).
        { apply Z.log2_lt_pow2; [lia|]. rewrite Z.pow_add_r by lia.
          rewrite Z.add_0_l in Hrange. nia. }
        rewrite Z.max_r by lia. reflexivity.
      * assert (Hlog : Z.log2 x = hm + b + um).
        { apply Z.log2_unique; [lia|]. split.
          - replace (hm + b + um) with (hm + (b + um)) by lia.
            rewrite Z.pow_add_r by lia. nia.
          - replace (Z.succ (hm + b + um)) with ((hm + 1) + (b + um)) by lia.
            rewrite Z.pow_add_r by lia. nia. }
        rewrite Hlog, Z.max_l by lia.
        replace (hm + b + um - hm - um) with b by lia.
        apply i32_small. change (2 ^ 31) with 2147483648. lia.
  - unfold getSubBucketIndex. fold um. rewrite shr64_spec by lia.
    rewrite Hsub. apply i32_small. change (2 ^ 31) with 2147483648. lia.
Qed.

(** Every value below [2^48] has a canonical pair. *)
Lemma value_has_indexes (x : Z) :
  0 <= x < 2 ^ 48 ->
  exists b s,
    0 <= b /\ b + um <= 62 /\ 0 <= s < 2 ^ (hm + 1) /\ (b = 0 \/ 2 ^ hm <= s)
    /\ s * 2 ^ (b + um) <= x < (s + 1) * 2 ^ (b + um).
Proof.
  intros Hx. pose proof layout_bounds as (Hhm & Hum & HB & Htop & Hfit).
  assert (H2hm : 0 < 2 ^ hm) by (apply pow2_pos; lia).
  destruct (Z.lt_ge_cases x (2 ^ (hm + 1 + um))) as [Hlow|Hhigh].
  - exists 0, (x / 2 ^ um).
    assert (H2u : 0 < 2 ^ um) by (apply pow2_pos; lia).
    rewrite Z.add_0_l.
    pose proof (Z.div_mod x (2 ^ um) ltac:(lia)) as Hdm.
    pose proof (Z.mod_pos_bound x (2 ^ um) H2u) as Hmod.
    repeat split; try lia.
    + apply Z.div_pos; lia.
    + apply Z.div_lt_upper_bound; [lia|]. rewrite <- Z.pow_add_r by lia.
      replace (um + (hm + 1)) with (hm + 1 + um) by lia. exact Hlow.
  - assert (Hx0 : 0 < x) by (pose proof (pow2_pos (hm + 1 + um)); lia).
    pose proof (Z.log2_spec x Hx0) as [Hlo Hhi].
    assert (Hl : hm + 1 + um <= Z.log2 x).
    { apply Z.log2_le_pow2; lia. }
    assert (Hl53 : Z.log2 x < 53) by (apply Z.log2_lt_pow2; lia).
    set (b := Z.log2 x - hm - um) in *.
    assert (H2k : 0 < 2 ^ (b + um)) by (apply pow2_pos; lia).
    exists b, (x / 2 ^ (b + um)).
    pose proof (Z.div_mod x (2 ^ (b + um)) ltac:(lia)) as Hdm.
    pose proof (Z.mod_pos_bound x (2 ^ (b + um)) H2k) as Hmod.
    assert (Hsplit : 2 ^ Z.log2 x = 2 ^ hm * 2 ^ (b + um)).
    { rewrite <- Z.pow_add_r by lia. f_equal. lia. }
    assert (Hsplit' : 2 ^ Z.succ (Z.log2 x) = 2 ^ (hm + 1) * 2 ^ (b + um)).
    { rewrite <- Z.pow_add_r by lia. f_equal. lia. }
    repeat split; try lia.
    + apply Z.div_pos; lia.
    + apply Z.div_lt_upper_bound; [lia|]. lia.
    + right. apply Z.div_le_lower_bound; lia.
Qed.

(** The index and the equivalent range of a value, from its pair. *)
Lemma countsArrayIndex_of_pair (x b s : Z) :
  0 <= x < 2 ^ 48 ->
  0 <= b -> b + um <= 62 ->
  0 <= s < 2 ^ (hm + 1) -> (b = 0 \/ 2 ^ hm <= s) ->
  s * 2 ^ (b + um) <= x < (s + 1) * 2 ^ (b + um) ->
  countsArrayIndex h x = Ok ((b + 1) * 2 ^ hm + (s - 2 ^ hm))
  /\ lowestEquivalentValue h x = s * 2 ^ (b + um)
  /\ highestEquivalentValue h x = (s + 1) * 2 ^ (b + um) - 1.
Proof.
  intros Hx Hb Hbu Hs Hcanon Hrange.
  pose proof layout_bounds as (Hhm & Hum & HB & Htop & Hfit).
  destruct (indexes_of_value x b s Hx Hb Hbu Hs Hcanon Hrange) as [Hbi Hsi].
  assert (H2k : 0 < 2 ^ (b + um)) by (apply pow2_pos; lia).
  assert (H2hm : 0 < 2 ^ hm) by (apply pow2_pos; lia).
  assert (Hs17 : 2 ^ hm <= 2 ^ 17) by (apply pow2_le; lia).
  change (2 ^ 17) with 131072 in Hs17.
  assert (Hpm : 2 ^ (hm + 1) = 2 * 2 ^ hm).
  { rewrite Z.pow_add_r by lia. change (2 ^ 1) with 2. lia. }
  assert (Hlow : valueFromIndexes h b s = s * 2 ^ (b + um)).
  { unfold valueFromIndexes. fold um.
    rewrite (u64_small s) by (change (2 ^ 64) with 18446744073709551616; lia).
    rewrite shl64_spec by lia. apply u64_small.
    change (2 ^ 64) with 18446744073709551616.
    change (2 ^ 48) with 281474976710656 in Hx. lia. }
  assert (Hsize : sizeOfEquivalentValueRange h x = 2 ^ (b + um)).
  { unfold sizeOfEquivalentValueRange. rewrite Hbi. fold um.
    rewrite shl64_spec by lia. rewrite Z.mul_1_l.
    replace (um + b) with (b + um) by lia.
    apply u64_small. split; [lia|]. apply pow2_lt. lia. }
  assert (Hk62 : 2 ^ (b + um) <= 2 ^ 62) by (apply pow2_le; lia).
  change (2 ^ 62) with 4611686018427387904 in Hk62.
  change (2 ^ 48) with 281474976710656 in Hx.
  repeat split.
  - unfold countsArrayIndex. destruct (Z.ltb_spec x 0); [lia|].
    rewrite Hbi, Hsi. unfold computeCountsArrayIndex.
    rewrite (lo_half h (lo_base h Hok)), (lo_sbc h (lo_base h Hok)). fold hm.
    destruct (Z.ltb_spec s (2 ^ (hm + 1))); [|lia]. cbn [negb].
    assert (Hc : (b =? 0) || (2 ^ hm <=? s) = true).
    { destruct Hcanon as [->|Hge]; [reflexivity|].
      apply orb_true_iff. right. apply Z.leb_le. exact Hge. }
    rewrite Hc. cbn [negb]. rewrite shl32_one by lia.
    set (P := 2 ^ hm) in *.
    assert (0 <= (b + 1) * P <= 63 * 131072) by nia.
    rewrite (i32_small ((b + 1) * P)), (i32_small (s - P)), i32_small;
      try reflexivity; change (2 ^ 31) with 2147483648; lia.
  - unfold lowestEquivalentValue. rewrite Hbi, Hsi. exact Hlow.
  - unfold highestEquivalentValue, nextNonEquivalentValue.
    unfold lowestEquivalentValue at 1. rewrite Hbi, Hsi, Hlow, Hsize.
    rewrite (u64_small (s * 2 ^ (b + um) + 2 ^ (b + um)))
      by (change (2 ^ 64) with 18446744073709551616; lia).
    rewrite u64_small by (change (2 ^ 64) with 18446744073709551616; lia).
    lia.
Qed.

(** Equivalence closure below [2^48]: a value between the lowest and the
    highest equivalent of [v] has the index of [v]. *)
Lemma equivalent_values_share_index_layout (v u : Z) :
  0 <= v < 2 ^ 48 -> 0 <= u < 2 ^ 48 ->
  lowestEquivalentValue h v <= u <= highestEquivalentValue h v ->
  countsArrayIndex h u = countsArrayIndex h v.
Proof.
  intros Hv Hu Hrange.
  destruct (value_has_indexes v Hv) as (b & s & Hb & Hbu & Hs & Hcanon & Hvr).
  destruct (countsArrayIndex_of_pair v b s Hv Hb Hbu Hs Hcanon Hvr)
    as (Hiv & Hlo & Hhi).
  rewrite Hlo, Hhi in Hrange.
  destruct (countsArrayIndex_of_pair u b s Hu Hb Hbu Hs Hcanon ltac:(lia))
    as (Hiu & _ & _).
  rewrite Hiu, Hiv. reflexivity.
Qed.

(** Round trip of a value below [2^48] inside the counts array: the value
    of its index is its lowest equivalent value. *)
Lemma value_round_trip_layout (v i : Z) :
  0 <= v < 2 ^ 48 ->
  countsArrayIndex h v = Ok i -> i < h.(countsArrayLength) ->
  valueFromIndex h i = lowestEquivalentValue h v.
Proof.
  intros Hv Hidx Hin.
  pose proof layout_bounds as (Hhm & Hum & HB & Htop & Hfit).
  destruct (value_has_indexes v Hv) as (b & s & Hb & Hbu & Hs & Hcanon & Hvr).
  destruct (countsArrayIndex_of_pair v b s Hv Hb Hbu Hs Hcanon Hvr)
    as (Hiv & Hlo & _).
  rewrite Hiv in Hidx. injection Hidx as <-. rewrite Hlo.
  rewrite (lo_len h Hok) in Hin. fold hm B in Hin.
  assert (H2hm : 0 < 2 ^ hm) by (apply pow2_pos; lia).
  assert (Hpm : 2 ^ (hm + 1) = 2 * 2 ^ hm).
  { rewrite Z.pow_add_r by lia. change (2 ^ 1) with 2. lia. }
  set (P := 2 ^ hm) in *.
  destruct (Z.lt_ge_cases s P) as [Hlt|Hge].
  - assert (b = 0) by (destruct Hcanon; lia). subst b.
    replace ((0 + 1) * P + (s - P)) with s by lia.
    rewrite valueFromIndex_lower by (fold hm P; lia). rewrite Z.add_0_l. reflexivity.
  - destruct (valueFromIndex_upper ((b + 1) * P + (s - P))) as [-> _].
    { fold hm B P. nia. }
    fold hm P.
    replace ((b + 1) * P + (s - P)) with ((s - P) + (b + 1) * P) by lia.
    rewrite Z_mod_plus_full, Z_div_plus_full by lia.
    rewrite Z.mod_small, Z.div_small by lia.
    replace (s - P + P) with s by lia.
    replace (0 + (b + 1) - 1 + um) with (b + um) by lia. reflexivity.
Qed.
End Layout.

(** ** Sizing: the loop of [getBucketsNeededToCoverValue] *)

(** Started on a power of two, the loop returns within [64 - a] turns, and
    the buckets it asks for end at or below [2^64]. *)
Lemma bucketsNeededLoop_returns (fuel : nat) :
  forall value a n : Z,
    0 <= a <= 63 -> 64 - a <= Z.of_nat fuel ->
    0 <= n -> n + Z.of_nat fuel < 2 ^ 31 ->
    exists r, bucketsNeededLoop fuel value (2 ^ a) n = Ok r
              /\ n <= r /\ a + r <= n + 64.
Proof.
  change (2 ^ 31) with 2147483648.
  induction fuel as [|fuel IH]; intros value a n Ha Hfuel Hn Hn'; [lia|].
  cbn [bucketsNeededLoop].
  destruct (Z.leb_spec (2 ^ a) value) as [Hle|Hgt].
  - change (shr64 U64_MAX_VALUE 1) with (2 ^ 63 - 1).
    destruct (Z.ltb_spec (2 ^ 63 - 1) (2 ^ a)) as [Hbig|Hsmall].
    + assert (a = 63).
      { destruct (Z.eq_dec a 63); [assumption|].
        assert (2 ^ a <= 2 ^ 62) by (apply pow2_le; lia).
        change (2 ^ 63) with (2 * 2 ^ 62) in Hbig. lia. }
      exists (n + 1). rewrite i32_small by (change (2 ^ 31) with 2147483648; lia).
      repeat split; lia.
    + assert (a <> 63) by (intros ->; lia).
      rewrite shl64_spec by lia.
      replace (2 ^ a * 2 ^ 1) with (2 ^ (a + 1)) by (rewrite Z.pow_add_r; lia).
      rewrite u64_small by (split; [apply Z.pow_nonneg; lia|apply pow2_lt; lia]).
      rewrite i32_small by (change (2 ^ 31) with 2147483648; lia).
      destruct (IH value (a + 1) (n + 1)) as (r & Hr & ?); try lia.
      exists r. split; [exact Hr|lia].
  - exists n. repeat split; lia.
Qed.

(** Started on zero, the loop never ends: whatever the fuel, it is spent. *)
Lemma bucketsNeededLoop_diverges (fuel : nat) :
  forall value n : Z, 0 <= value ->
    bucketsNeededLoop fuel value 0 n = Err Diverges.
Proof.
  induction fuel as [|fuel IH]; intros value n Hv; cbn [bucketsNeededLoop].
  - destruct (Z.leb_spec 0 value); [reflexivity|lia].
  - destruct (Z.leb_spec 0 value); [|lia].
    change (shr64 U64_MAX_VALUE 1 <? 0) with false. cbv iota.
    change (shl64 0 1) with 0. apply IH. exact Hv.
Qed.

(** On a well-formed layout the loop starts on a power of two, and
    [loopFuel] turns are enough for it to return. *)
Lemma getBucketsNeededToCoverValue_total (h : Histogram) (value : Z) :
  layout_base h ->
  exists r, getBucketsNeededToCoverValue h value = Ok r
            /\ 1 <= r
            /\ h.(subBucketHalfCountMagnitude) + h.(unitMagnitude) + r <= 64.
Proof.
  intros [Hhm Hum Hfit _ Hsbc _].
  unfold getBucketsNeededToCoverValue. rewrite Hsbc.
  set (hm := h.(subBucketHalfCountMagnitude)) in *.
  set (um := h.(unitMagnitude)) in *.
  assert (2 ^ (hm + 1) < 2 ^ 64) by (apply pow2_lt; lia).
  assert (0 < 2 ^ (hm + 1)) by (apply pow2_pos; lia).
  rewrite (u64_small (2 ^ (hm + 1))) by lia.
  rewrite shl64_spec by lia. rewrite <- Z.pow_add_r by lia.
  assert (2 ^ (hm + 1 + um) < 2 ^ 64) by (apply pow2_lt; lia).
  assert (0 < 2 ^ (hm + 1 + um)) by (apply pow2_pos; lia).
  rewrite u64_small by lia.
  destruct (bucketsNeededLoop_returns loopFuel value (hm + 1 + um) 1)
    as (r & Hr & Hr1 & Hr2);
    try (change (Z.of_nat loopFuel) with 64; change (2 ^ 31) with 2147483648; lia).
  exists r. split; [exact Hr|lia].
Qed.

(** [establishSize] on a well-formed layout: it returns, and sets the three
    sizing fields. *)
Lemma establishSize_spec (h : Histogram) (v : Z) :
  layout_base h ->
  u64 (2 * h.(lowestDiscernibleValue)) <= v ->
  exists n,
    getBucketsNeededToCoverValue h v = Ok n
    /\ 1 <= n
    /\ h.(subBucketHalfCountMagnitude) + h.(unitMagnitude) + n <= 64
    /\ establishSize v h
       = Return tt
           (set_highestTrackableValue v
              (set_bucketCount n
                 (set_countsArrayLength
                    ((n + 1) * 2 ^ h.(subBucketHalfCountMagnitude)) h))).
Proof.
  intros Hb Hv.
  destruct (getBucketsNeededToCoverValue_total h v Hb) as (n & Hn & Hn1 & Hn2).
  exists n. repeat (split; [assumption|]).
  destruct Hb as [Hhm Hum Hfit _ Hsbc _].
  unfold establishSize, bind, liftR, modify, determineArrayLengthNeeded.
  destruct (Z.ltb_spec v (u64 (2 * lowestDiscernibleValue h))); [lia|].
  rewrite Hn. cbn [bindR].
  change (getBucketsNeededToCoverValue
            (set_countsArrayLength (getLengthForNumberOfBuckets h n) h) v)
    with (getBucketsNeededToCoverValue h v).
  rewrite Hn. do 4 f_equal.
  unfold getLengthForNumberOfBuckets. rewrite Hsbc.
  set (hm := h.(subBucketHalfCountMagnitude)) in *.
  rewrite shr32_spec by lia. change (2 ^ 1) with 2.
  replace (2 ^ (hm + 1)) with (2 ^ hm * 2) by (rewrite Z.pow_add_r; lia).
  rewrite Z.div_mul by lia.
  assert (2 ^ hm <= 2 ^ 17) by (apply pow2_le; lia).
  assert (0 < 2 ^ hm) by (apply pow2_pos; lia).
  apply i32_small. change (2 ^ 17) with 131072 in *.
  change (2 ^ 31) with 2147483648. nia.
Qed.

Lemma establishSize_layout_ok (h : Histogram) (n v : Z) :
  layout_base h -> 1 <= n ->
  h.(subBucketHalfCountMagnitude) + h.(unitMagnitude) + n <= 64 ->
  layout_ok
    (set_highestTrackableValue v
       (set_bucketCount n
          (set_countsArrayLength
             ((n + 1) * 2 ^ h.(subBucketHalfCountMagnitude)) h))).
Proof.
  intros Hb Hn1 Hn2. destruct Hb. repeat split; cbn; assumption || lia.
Qed.

(** ** Construction *)

Lemma subBucketCountMagnitude_range (digits : Z) :
  0 <= digits <= 5 ->
  1 <= ceil_log2 (f64_of_u64 (u64 (2 * u64 (10 ^ digits)))) <= 18.
Proof.
  intros Hd.
  assert (Hcases : digits = 0 \/ digits = 1 \/ digits = 2 \/ digits = 3
                   \/ digits = 4 \/ digits = 5) by lia.
  destruct Hcases as [->|[->|[->|[->|[->| ->]]]]]; vm_compute; split; discriminate.
Qed.

Lemma unitMagnitude_range (lowest : Z) :
  1 <= lowest < 2 ^ 63 ->
  exists l, floor_log2 (f64_of_u64 lowest) = Some l /\ 0 <= l <= 63.
Proof.
  intros Hl. pose proof (f64_of_u64_bounds lowest ltac:(lia)) as [Hlo Hhi].
  assert (Hlog : Z.log2 lowest < 63) by (apply Z.log2_lt_pow2; lia).
  pose proof (Z.log2_nonneg lowest) as Hlog0.
  assert (0 < 2 ^ Z.log2 lowest) by (apply pow2_pos; lia).
  assert (Hx63 : f64_of_u64 lowest <= 2 ^ 63).
  { assert (2 ^ (Z.log2 lowest + 1) <= 2 ^ 63) by (apply pow2_le; lia). lia. }
  destruct (floor_log2_bounds (f64_of_u64 lowest)) as (l & Hfl & Hrange & Hpow);
    [lia|].
  exists l. split; [exact Hfl|].
  pose proof (Z.log2_nonneg (f64_of_u64 lowest)).
  split; [lia|].
  destruct (Z.eq_dec (f64_of_u64 lowest) (2 ^ 63)) as [Heq|Hne].
  - rewrite Heq in Hpow. change (Z.log2 (2 ^ 63)) with 63 in Hpow.
    rewrite Hpow by reflexivity. lia.
  - assert (Z.log2 (f64_of_u64 lowest) < 63); [|lia].
    apply Z.log2_lt_pow2; lia.
Qed.

Lemma pow2_mod_2_64 (a : Z) : 64 <= a -> u64 (2 ^ a) = 0.
Proof.
  intros Ha. unfold u64, wrapU.
  replace a with ((a - 64) + 64) by lia. rewrite Z.pow_add_r by lia.
  apply Z.mod_mul. discriminate.
Qed.

(** The object [init] starts from, before [establishSize]. *)
Lemma init_unfold (W : Z) (ar : bool) (s0 e0 lowest highest digits um m : Z) :
  floor_log2 (f64_of_u64 lowest) = Some um -> 0 <= um <= 63 ->
  ceil_log2 (f64_of_u64 (u64 (2 * u64 (10 ^ digits)))) = m -> 1 <= m <= 18 ->
  init W ar s0 e0 lowest highest digits
  = (do_ establishSize highest;
     do h <- get;
     do_ modify (set_counts (instantiate h.(countsArrayLength)));
     modify (set_leadingZeroCountBase (i32 (53 - um - (m - 1) - 1))))
      (mkHistogram ar lowest highest digits 0 (2 ^ m) 0 s0 e0 0 (m - 1) um
         (2 ^ (m - 1)) (shl64 (u64 (u64 (2 ^ m) - 1)) um) (2 ^ um - 1) 0
         U64_MAX_VALUE W [] 0).
Proof.
  intros Hum Hu Hm Hm'. unfold init. rewrite Hum, Hm.
  assert (H2m : 0 < 2 ^ (m - 1)) by (apply pow2_pos; lia).
  rewrite shl32_one by lia.
  rewrite (i32_small (m - 1)) by (change (2 ^ 31) with 2147483648; lia).
  rewrite shr32_spec by lia. change (2 ^ 1) with 2.
  assert (Hpm : 2 ^ m = 2 ^ (m - 1) * 2).
  { replace m with ((m - 1) + 1) at 1 by lia. rewrite Z.pow_add_r by lia.
    reflexivity. }
  rewrite Hpm, Z.div_mul by lia.
  rewrite (shl64_spec 1 um) by lia. rewrite Z.mul_1_l.
  destruct (Z.eq_dec um 63) as [->|Hne].
  - reflexivity.
  - assert (2 ^ um < 2 ^ 64) by (apply pow2_lt; lia).
    assert (0 < 2 ^ um) by (apply pow2_pos; lia).
    rewrite (u64_small (2 ^ um)) by lia. rewrite (u64_small (2 ^ um - 1)) by lia.
    reflexivity.
Qed.

(** The two outcomes of the constructor on a valid configuration, by
    whether bucket 0 fits in a [u64]. *)
Lemma new_Histogram_cases (W : Z) (ar : bool) (s0 e0 lowest highest digits : Z) :
  1 <= lowest -> 2 * lowest <= highest -> highest <= U64_MAX_VALUE ->
  0 <= digits <= 5 ->
  exists um m,
    floor_log2 (f64_of_u64 lowest) = Some um /\ 0 <= um <= 63
    /\ ceil_log2 (f64_of_u64 (u64 (2 * u64 (10 ^ digits)))) = m /\ 1 <= m <= 18
    /\ if m + um <=? 63 then
         exists n,
           1 <= n /\ (m - 1) + um + n <= 64
           /\ new_Histogram W ar s0 e0 lowest highest digits
              = Ok (mkHistogram ar lowest highest digits n (2 ^ m)
                      ((n + 1) * 2 ^ (m - 1)) s0 e0
                      (i32 (53 - um - (m - 1) - 1)) (m - 1) um (2 ^ (m - 1))
                      (shl64 (u64 (u64 (2 ^ m) - 1)) um) (2 ^ um - 1) 0
                      U64_MAX_VALUE W
                      (instantiate ((n + 1) * 2 ^ (m - 1))) 0)
       else new_Histogram W ar s0 e0 lowest highest digits = Err Diverges.
Proof.
  intros HL HH Hmax Hd. unfold U64_MAX_VALUE in Hmax.
  destruct (unitMagnitude_range lowest) as (um & Hum & Hu).
  { change (2 ^ 64) with (2 * 2 ^ 63) in Hmax. lia. }
  pose proof (subBucketCountMagnitude_range digits Hd) as Hm.
  set (m := ceil_log2 (f64_of_u64 (u64 (2 * u64 (10 ^ digits))))) in *.
  exists um, m. repeat (split; [assumption || reflexivity || lia|]).
  unfold new_Histogram.
  destruct (Z.ltb_spec lowest 1); [lia|].
  rewrite (u64_small (2 * lowest)) by lia.
  destruct (Z.ltb_spec highest (2 * lowest)); [lia|].
  destruct (Z.ltb_spec digits 0); [lia|].
  destruct (Z.ltb_spec 5 digits); [lia|]. cbn [orb].
  rewrite (init_unfold W ar s0 e0 lowest highest digits um m) by (assumption || reflexivity).
  set (h0 := mkHistogram ar lowest highest digits 0 (2 ^ m) 0 s0 e0 0 (m - 1) um
               (2 ^ (m - 1)) (shl64 (u64 (u64 (2 ^ m) - 1)) um) (2 ^ um - 1) 0
               U64_MAX_VALUE W [] 0).
  destruct (Z.leb_spec (m + um) 63) as [Hfit|Hbig].
  - assert (Hb : layout_base h0).
    { split; cbn; try lia; try reflexivity. f_equal. lia. }
    destruct (establishSize_spec h0 highest Hb) as (n & Hn & Hn1 & Hn2 & Hes).
    { cbn. rewrite u64_small; lia. }
    exists n. cbn in Hn2. repeat (split; [assumption|]).
    unfold bind at 1. rewrite Hes. reflexivity.
  - unfold bind at 1.
    unfold establishSize, bind at 1, liftR, determineArrayLengthNeeded.
    cbn [lowestDiscernibleValue h0].
    rewrite (u64_small (2 * lowest)) by lia.
    destruct (Z.ltb_spec highest (2 * lowest)); [lia|].
    unfold getBucketsNeededToCoverValue. cbn [subBucketCount unitMagnitude h0].
    assert (2 ^ m < 2 ^ 64) by (apply pow2_lt; lia).
    assert (0 < 2 ^ m) by (apply pow2_pos; lia).
    rewrite (u64_small (2 ^ m)) by lia.
    rewrite shl64_spec by lia. rewrite <- Z.pow_add_r by lia.
    rewrite pow2_mod_2_64 by lia.
    rewrite bucketsNeededLoop_diverges by lia. reflexivity.
Qed.

(** A histogram the constructor returns has a well-formed layout and an
    all-zero state. *)
Lemma new_Histogram_fresh (W : Z) (ar : bool) (s0 e0 lowest highest digits : Z)
  (h : Histogram) :
  1 <= lowest -> 2 * lowest <= highest -> highest <= U64_MAX_VALUE ->
  0 <= digits <= 5 ->
  new_Histogram W ar s0 e0 lowest highest digits = Ok h ->
  layout_ok h
  /\ h.(autoResize) = ar /\ h.(counterBits) = W
  /\ h.(counts) = instantiate h.(countsArrayLength)
  /\ h.(totalCount) = 0 /\ h.(maxValue) = 0
  /\ h.(minNonZeroValue) = U64_MAX_VALUE
  /\ h.(highestTrackableValue) = highest
  /\ h.(lowestDiscernibleValue) = lowest
  /\ h.(startTimeStampMsec) = s0 /\ h.(endTimeStampMsec) = e0.
Proof.
  intros HL HH Hmax Hd Hnew.
  destruct (new_Histogram_cases W ar s0 e0 lowest highest digits HL HH Hmax Hd)
    as (um & m & Hum & Hu & Hm & Hm' & Hres).
  destruct (Z.leb_spec (m + um) 63) as [Hfit|Hbig].
  - destruct Hres as (n & Hn1 & Hn2 & Hres). rewrite Hres in Hnew.
    injection Hnew as <-. cbn.
    split; [|repeat split; reflexivity].
    repeat split; cbn; try lia; try reflexivity. f_equal. lia.
  - rewrite Hres in Hnew. discriminate.
Qed.

(** C1 (index round trip): on every histogram built from a valid
    configuration ([lowest >= 1], [highest >= 2 * lowest], [digits] in
    [0, 5]), every index [i] of the counts array is the index of the value
    it stands for: [countsArrayIndex(valueFromIndex(i)) = i]. *)
Theorem index_round_trip (W : Z) (ar : bool) (s0 e0 lowest highest digits : Z)
  (h : Histogram) (i : Z) :
  1 <= lowest -> 2 * lowest <= highest -> highest <= U64_MAX_VALUE ->
  0 <= digits <= 5 ->
  new_Histogram W ar s0 e0 lowest highest digits = Ok h ->
  0 <= i < h.(countsArrayLength) ->
  countsArrayIndex h (valueFromIndex h i) = Ok i.
Proof.
  intros HL HH Hmax Hd Hnew Hi.
  apply index_round_trip_layout; [|exact Hi].
  eapply new_Histogram_fresh; eassumption.
Qed.

Lemma index_round_trip_witness :
  exists h, new_Histogram 32 false 0 0 1 3000 3 = Ok h
            /\ countsArrayIndex h (valueFromIndex h 2500) = Ok 2500.
Proof.
  eexists. split.
  - vm_compute. reflexivity.
  - apply (index_round_trip 32 false 0 0 1 3000 3).
    + lia.
    + lia.
    + vm_compute. discriminate.
    + lia.
    + vm_compute. reflexivity.
    + vm_compute. split; [discriminate|reflexivity].
Defined.

(** ** Recording out of range *)

(** C10 (atomic failure): when [recordValue(v)] fails because the index of
    [v] lies outside the counts array and [autoResize] is false, it throws
    with the histogram exactly as it was before the call: [totalCount], every
    counter, [maxValue] and [minNonZeroValue] are unchanged. *)
Theorem recordValue_out_of_range_atomic (h : Histogram) (value index : Z) :
  h.(autoResize) = false ->
  countsArrayIndex h value = Ok index ->
  h.(countsArrayLength) <= index ->
  recordValue value h = Throw (OutsideCoveredRange value) h
  /\ (final (recordValue value h)).(totalCount) = h.(totalCount)
  /\ (final (recordValue value h)).(counts) = h.(counts)
  /\ (final (recordValue value h)).(maxValue) = h.(maxValue)
  /\ (final (recordValue value h)).(minNonZeroValue) = h.(minNonZeroValue).
Proof.
  intros Har Hidx Hout.
  assert (Hrec : recordValue value h = Throw (OutsideCoveredRange value) h).
  { unfold recordValue, recordSingleValue, bind, liftR, get. rewrite Hidx.
    destruct (Z.leb_spec (countsArrayLength h) index); [|lia].
    unfold handleRecordException, bind, get. rewrite Har. reflexivity. }
  rewrite Hrec. repeat split; reflexivity.
Qed.

Lemma recordValue_out_of_range_atomic_witness :
  exists h, new_Histogram 8 false 0 0 1 1000 0 = Ok h
            /\ recordValue 5000 h = Throw (OutsideCoveredRange 5000) h.
Proof.
  eexists. split.
  - vm_compute. reflexivity.
  - apply (recordValue_out_of_range_atomic _ 5000 13).
    + reflexivity.
    + vm_compute. reflexivity.
    + vm_compute. discriminate.
Defined.

(** ** Minimum and maximum *)

(** C6, refuted as stated: with [lowestDiscernibleValue = 4] the mask is 3,
    and recording the non-zero value 2, below the sentinel, leaves
    [minNonZeroValue] at the sentinel instead of setting it to [2 & ~3]. *)
Lemma minNonZeroValue_keeps_sentinel :
  exists h h',
    new_Histogram 32 false 0 0 4 1000 0 = Ok h
    /\ recordValue 2 h = Return tt h'
    /\ h.(unitMagnitudeMask) = 3
    /\ h.(minNonZeroValue) = U64_MAX_VALUE
    /\ Z.land 2 (u64 (Z.lnot h.(unitMagnitudeMask))) = 0
    /\ h'.(minNonZeroValue) = U64_MAX_VALUE.
Proof.
  eexists. eexists. split; [vm_compute; reflexivity|].
  split; [vm_compute; reflexivity|].
  repeat split; vm_compute; reflexivity.
Qed.

(** ** Counter overflow *)

(** Neither counter update ever throws its overflow error: the new count is
    an unsigned integer, and the test [newCount < 0] cannot hold.  What is
    stored is the sum wrapped to the counter's width. *)
Lemma incrementCountAtIndex_wraps (h : Histogram) (index c : Z) :
  0 <= h.(counterBits) ->
  array_get h.(counts) index = Some c ->
  incrementCountAtIndex index h
  = Return tt (set_counts (array_set h.(counts) index
                             (wrapU h.(counterBits) (c + 1))) h).
Proof.
  intros HW Hget. unfold incrementCountAtIndex, bind, get. rewrite Hget.
  pose proof (wrapU_range h.(counterBits) (c + 1) HW).
  destruct (Z.ltb_spec (wrapU (counterBits h) (c + 1)) 0); [lia|]. reflexivity.
Qed.

Lemma addToCountAtIndex_wraps (h : Histogram) (index c value : Z) :
  array_get h.(counts) index = Some c ->
  addToCountAtIndex index value h
  = Return tt (set_counts (array_set h.(counts) index
                             (wrapU h.(counterBits) (u64 (c + value)))) h).
Proof.
  intros Hget. unfold addToCountAtIndex, bind, get. rewrite Hget.
  pose proof (u64_range (c + value)).
  destruct (Z.ltb_spec (u64 (c + value)) 0); [lia|]. reflexivity.
Qed.

(** C7, at the failing input: an 8-bit counter that holds 255 is
    incremented without any error and holds 0 afterwards; adding 200 to a
    counter that holds 100 returns too, and leaves 44. *)
Lemma counter_overflow_is_silent :
  exists h h1 h2 h3 h4,
    new_Histogram 8 false 0 0 1 1000 0 = Ok h
    /\ recordValues (replicate 255 1) h = Return tt h1
    /\ array_get h1.(counts) 1 = Some 255
    /\ incrementCountAtIndex 1 h1 = Return tt h2
    /\ array_get h2.(counts) 1 = Some 0
    /\ addToCountAtIndex 2 100 h = Return tt h3
    /\ addToCountAtIndex 2 200 h3 = Return tt h4
    /\ array_get h4.(counts) 2 = Some 44.
Proof.
  do 5 eexists.
  split; [vm_compute; reflexivity|].
  split; [vm_compute; reflexivity|].
  split; [vm_compute; reflexivity|].
  split; [vm_compute; reflexivity|].
  split; [vm_compute; reflexivity|].
  split; [vm_compute; reflexivity|].
  split; vm_compute; reflexivity.
Qed.

(** ** Evaluation on concrete histograms *)

(** A property of the histogram a constructor call returns is settled by
    running the call. *)
Lemma result_holds {A : Type} (r : Result A) (P : A -> Prop) :
  match r with Ok a => P a | Err _ => False end ->
  exists a, r = Ok a /\ P a.
Proof. destruct r as [a|e]; [eauto|contradiction]. Qed.

(** ** Values the code gets wrong *)

(** C2, at the failing input: [2^54 - 1] converts to the double [2^54], so
    [getBucketIndex] answers 44 where the value lies in bucket 43.  The
    sub-bucket index 1023 then breaks the assertion of
    [computeCountsArrayIndex], and [lowestEquivalentValue] is
    [2046 * 2^43], a value of another counter (index 46078, where the
    values from [2047 * 2^43] to [2^54 - 1] have index 46079). *)
Lemma equivalent_range_breaks_above_2_53 :
  exists h,
    new_Histogram 32 false 0 0 1 (2 ^ 62) 3 = Ok h
    /\ f64_of_u64 (2 ^ 54 - 1) = 2 ^ 54
    /\ getBucketIndex h (2 ^ 54 - 1) = 44
    /\ getSubBucketIndex h (2 ^ 54 - 1) 44 = 1023
    /\ countsArrayIndex h (2 ^ 54 - 1) = Err AssertionFailed
    /\ lowestEquivalentValue h (2 ^ 54 - 1) = 2046 * 2 ^ 43
    /\ highestEquivalentValue h (2 ^ 54 - 1) = 2 ^ 54 - 1
    /\ countsArrayIndex h (2046 * 2 ^ 43) = Ok 46078
    /\ countsArrayIndex h (2047 * 2 ^ 43) = Ok 46079
    /\ 46079 < h.(countsArrayLength).
Proof.
  apply result_holds. vm_compute. repeat split; reflexivity.
Qed.

(** C4, at the failing input: 256 calls of [recordValue(1)] on a histogram
    of 8-bit counters all return; [totalCount] is 256 and every counter is
    zero. *)
Lemma totalCount_differs_from_sum_of_counts :
  exists h h',
    new_Histogram 8 false 0 0 1 1000 0 = Ok h
    /\ recordValues (replicate 256 1) h = Return tt h'
    /\ h'.(totalCount) = 256
    /\ sumOfCounts h' = 0.
Proof.
  do 2 eexists. split; [vm_compute; reflexivity|].
  split; [vm_compute; reflexivity|].
  split; vm_compute; reflexivity.
Qed.

(** C5, at the failing input: after one [recordValue(5)] and 256 calls of
    [recordValue(100)] on 8-bit counters, [totalCount] is 257 and the
    counters sum to 1; the percentile 0 is answered 4 and the percentile
    100 is answered 0. *)
Lemma percentile_decreases_after_counter_wrap :
  exists h h',
    new_Histogram 8 false 0 0 1 1000 0 = Ok h
    /\ recordValues (5 :: replicate 256 100) h = Return tt h'
    /\ h'.(totalCount) = 257
    /\ sumOfCounts h' = 1
    /\ PrimFloat.leb PrimFloat.zero f64_100 = true
    /\ getValueAtPercentile h' PrimFloat.zero = Ok 4
    /\ getValueAtPercentile h' f64_100 = Ok 0.
Proof.
  do 2 eexists. split; [vm_compute; reflexivity|].
  split; [vm_compute; reflexivity|].
  repeat split; vm_compute; reflexivity.
Qed.

(** C8, at the failing inputs.  With a value below the interval the single
    variant does not stop after the one record: [2048 - 4096] wraps to
    [2^64 - 2048], which is no less than the interval, and recording it
    fails: its logarithm rounds to 64, so its bucket index is 54 and its
    sub-bucket index 1023, which breaks the assertion of
    [computeCountsArrayIndex].  With 5 and 10 the synthetic value is
    [2^64 - 5], the double [2^64], and fails likewise.  The count variant
    returns after the one record in both cases. *)
Lemma expected_interval_above_value :
  exists h h1 h2 h3,
    new_Histogram 32 false 0 0 1 100000 3 = Ok h
    /\ u64 (2048 - 4096) = 2 ^ 64 - 2048
    /\ getBucketIndex h (2 ^ 64 - 2048) = 54
    /\ getSubBucketIndex h (2 ^ 64 - 2048) 54 = 1023
    /\ recordSingleValueWithExpectedInterval 1 2048 4096 h
       = Throw AssertionFailed h1
    /\ h1.(totalCount) = 1
    /\ recordSingleValueWithExpectedInterval 1 5 10 h = Throw AssertionFailed h2
    /\ recordValueWithCountAndExpectedInterval 1 2048 1 4096 h = Return tt h3
    /\ h3.(totalCount) = 1.
Proof.
  do 4 eexists. split; [vm_compute; reflexivity|].
  split; [vm_compute; reflexivity|].
  split; [vm_compute; reflexivity|].
  split; [vm_compute; reflexivity|].
  split; [vm_compute; reflexivity|].
  split; [vm_compute; reflexivity|].
  split; [vm_compute; reflexivity|].
  split; vm_compute; reflexivity.
Qed.

(** C9, at the failing input: two histograms of the same layout with
    [lowestDiscernibleValue = 4], so a mask of 3.  One has recorded 100 and
    200 ([maxValue] 203), the other 50 and 300 ([maxValue] 303); after
    [add], [maxValue] is 306, the mask added a second time.  Adding an
    empty histogram to an empty one sets [maxValue] to 3 and moves
    [minNonZeroValue] off its sentinel. *)
Lemma add_shifts_maxValue_by_the_mask :
  exists h h1 h2 h12 hee,
    new_Histogram 32 false 0 0 4 1000 1 = Ok h
    /\ recordValues [100; 200] h = Return tt h1
    /\ recordValues [50; 300] h = Return tt h2
    /\ h1.(maxValue) = 203 /\ h2.(maxValue) = 303
    /\ add h2 h1 = Return tt h12
    /\ h12.(maxValue) = 306
    /\ add h h = Return tt hee
    /\ hee.(maxValue) = 3
    /\ hee.(minNonZeroValue) = U64_MAX_VALUE - 3.
Proof.
  do 5 eexists. split; [vm_compute; reflexivity|].
  split; [vm_compute; reflexivity|].
  split; [vm_compute; reflexivity|].
  split; [vm_compute; reflexivity|].
  split; [vm_compute; reflexivity|].
  split; [vm_compute; reflexivity|].
  split; [vm_compute; reflexivity|].
  split; [vm_compute; reflexivity|].
  split; vm_compute; reflexivity.
Qed.

(** ** The percentile scan *)

Lemma totalToIndex_before_start (h : Histogram) : totalToIndex h (-1) = 0.
Proof. reflexivity. Qed.

Lemma totalToIndex_step (h : Histogram) (i c : Z) :
  0 <= i -> array_get h.(counts) i = Some c ->
  totalToIndex h i = u64 (totalToIndex h (i - 1) + u64 c).
Proof.
  intros Hi Hget. unfold array_get in Hget.
  destruct (Z.ltb_spec i 0); [lia|].
  unfold totalToIndex.
  replace (Z.to_nat (i + 1)) with (S (Z.to_nat i)) by lia.
  replace (i - 1 + 1) with i by lia.
  rewrite (take_S_r _ _ _ Hget), fold_left_app. reflexivity.
Qed.

(** The loop from index [i] on, with the total up to [i - 1] in hand: it
    answers at the first index from [i] whose total reaches the target, and
    0 when none of the [n] indexes left does. *)
Lemma percentileScan_spec (h : Histogram) (isZero : bool) (target : Z) (n : nat) :
  forall i : Z,
    0 <= i -> i + Z.of_nat n < 2 ^ 31 ->
    (Z.to_nat i + n <= length h.(counts))%nat ->
    (forall k, i <= k < i + Z.of_nat n ->
       target <= totalToIndex h k ->
       (forall j, i <= j < k -> totalToIndex h j < target) ->
       percentileScan h isZero target n i (totalToIndex h (i - 1))
       = Ok (if isZero then lowestEquivalentValue h (valueFromIndex h k)
             else highestEquivalentValue h (valueFromIndex h k)))
    /\ ((forall j, i <= j < i + Z.of_nat n -> totalToIndex h j < target) ->
        percentileScan h isZero target n i (totalToIndex h (i - 1)) = Ok 0).
Proof.
  change (2 ^ 31) with 2147483648.
  induction n as [|n IH]; intros i Hi Hmax Hlen.
  - split; [intros k Hk; lia|reflexivity].
  - assert (Hsome : is_Some (h.(counts) !! Z.to_nat i))
      by (apply lookup_lt_is_Some; lia).
    destruct Hsome as [c Hc].
    assert (Hget : array_get h.(counts) i = Some c).
    { unfold array_get. destruct (Z.ltb_spec i 0); [lia|exact Hc]. }
    pose proof (totalToIndex_step h i c Hi Hget) as Hstep.
    destruct (IH (i + 1)) as [IHfound IHnone]; try lia.
    replace (i + 1 - 1) with i in * by lia.
    cbn [percentileScan]. unfold getCountAtIndex. rewrite Hget. cbn [bindR].
    rewrite <- Hstep. rewrite (i32_small (i + 1)) by (change (2 ^ 31) with 2147483648; lia).
    split.
    + intros k Hk Hreach Hbelow.
      destruct (Z.leb_spec target (totalToIndex h i)) as [Hle|Hlt].
      * assert (k = i); [|subst k; reflexivity].
        destruct (Z.eq_dec k i); [assumption|].
        specialize (Hbelow i ltac:(lia)). lia.
      * assert (k <> i) by (intros ->; lia).
        apply IHfound; [lia|exact Hreach|].
        intros j Hj. apply Hbelow. lia.
    + intros Hnone.
      destruct (Z.leb_spec target (totalToIndex h i)) as [Hle|Hlt].
      * specialize (Hnone i ltac:(lia)). lia.
      * apply IHnone. intros j Hj. apply Hnone. lia.
Qed.

(** The scan of [getValueAtPercentile] once the target count is known. *)
Lemma getValueAtPercentile_scan (h : Histogram) (percentile : f64) (target : Z) :
  0 <= h.(countsArrayLength) < 2 ^ 31 ->
  (Z.to_nat h.(countsArrayLength) <= length h.(counts))%nat ->
  countAtPercentile h percentile = Ok target ->
  (forall i, 0 <= i < h.(countsArrayLength) ->
     target <= totalToIndex h i ->
     (forall j, 0 <= j < i -> totalToIndex h j < target) ->
     getValueAtPercentile h percentile
     = Ok (if PrimFloat.eqb percentile PrimFloat.zero
           then lowestEquivalentValue h (valueFromIndex h i)
           else highestEquivalentValue h (valueFromIndex h i)))
  /\ ((forall j, 0 <= j < h.(countsArrayLength) -> totalToIndex h j < target) ->
      getValueAtPercentile h percentile = Ok 0).
Proof.
  intros Hlen Hcounts Htarget. unfold getValueAtPercentile. rewrite Htarget.
  cbn [bindR].
  destruct (percentileScan_spec h (PrimFloat.eqb percentile PrimFloat.zero) target
              (Z.to_nat h.(countsArrayLength)) 0) as [Hfound Hnone];
    try lia.
  rewrite Z2Nat.id in Hfound, Hnone by lia.
  split.
  - intros i Hi Hreach Hbelow. apply Hfound; assumption || lia.
  - intros Hlow. apply Hnone. intros j Hj. apply Hlow. lia.
Qed.

(** C3, as the code has it: [getValueAtPercentile(p)] caps [p] at 100 and
    does not raise a negative [p] to 0; the target is
    [max(ceil(fp - ulp(fp)), 1)] for [fp = (min(p, 100) / 100) * totalCount];
    the counts are added up from index 0, and at the first index [i] whose
    total reaches the target the answer is
    [highestEquivalentValue(valueFromIndex(i))], or
    [lowestEquivalentValue(valueFromIndex(i))] when [p] itself equals 0; the
    answer is 0 when no index reaches the target. *)
Theorem getValueAtPercentile_spec (h : Histogram) (percentile : f64) :
  0 <= h.(countsArrayLength) < 2 ^ 31 ->
  (Z.to_nat h.(countsArrayLength) <= length h.(counts))%nat ->
  countAtPercentile h percentile
  = (let fp :=
       PrimFloat.mul (PrimFloat.div (f64_min percentile f64_100) f64_100)
         (f64_of_Z (f64_of_u64 h.(totalCount))) in
     u64_of_f64 (f64_max (f64_ceil (PrimFloat.sub fp (ulp fp))) (f64_of_Z 1)))
  /\ forall target, countAtPercentile h percentile = Ok target ->
     (forall i, 0 <= i < h.(countsArrayLength) ->
        target <= totalToIndex h i ->
        (forall j, 0 <= j < i -> totalToIndex h j < target) ->
        getValueAtPercentile h percentile
        = Ok (if PrimFloat.eqb percentile PrimFloat.zero
              then lowestEquivalentValue h (valueFromIndex h i)
              else highestEquivalentValue h (valueFromIndex h i)))
     /\ ((forall j, 0 <= j < h.(countsArrayLength) -> totalToIndex h j < target) ->
         getValueAtPercentile h percentile = Ok 0).
Proof.
  intros Hlen Hcounts. split; [reflexivity|].
  intros target Htarget.
  exact (getValueAtPercentile_scan h percentile target Hlen Hcounts Htarget).
Qed.

Lemma getValueAtPercentile_spec_witness :
  exists h h',
    new_Histogram 32 false 0 0 1 1000 0 = Ok h
    /\ recordValue 5 h = Return tt h'
    /\ getValueAtPercentile h' (f64_of_Z 50) = Ok 7.
Proof.
  eexists. eexists. split; [vm_compute; reflexivity|].
  split; [vm_compute; reflexivity|].
  match goal with
  | |- getValueAtPercentile ?h' ?p = _ =>
      destruct (getValueAtPercentile_spec h' p) as [_ Hscan]
  end.
  - vm_compute. split; [discriminate|reflexivity].
  - vm_compute. lia.
  - destruct (Hscan 1) as [Hfound _]; [vm_compute; reflexivity|].
    apply (Hfound 3).
    + vm_compute. split; [discriminate|reflexivity].
    + vm_compute. discriminate.
    + intros j Hj.
      assert (Hcases : j = 0 \/ j = 1 \/ j = 2) by lia.
      destruct Hcases as [->|[->| ->]]; vm_compute; reflexivity.
Defined.

(** C3, refuted as stated: a negative percentile is not answered as the
    percentile 0.  After the one record of the value 5 (one significant
    digit asked for: the counter of 5 stands for the values 4 to 7), the
    percentile [-1] is answered 7 and the percentile 0 is answered 4.
    Whatever target the float arithmetic hands to the loop, a percentile
    other than 0 is never answered 4. *)
Lemma negative_percentile_differs_from_zero :
  exists h h',
    new_Histogram 32 false 0 0 1 1000 0 = Ok h
    /\ recordValue 5 h = Return tt h'
    /\ PrimFloat.ltb (PrimFloat.opp PrimFloat.one) PrimFloat.zero = true
    /\ getValueAtPercentile h' (PrimFloat.opp PrimFloat.one) = Ok 7
    /\ getValueAtPercentile h' PrimFloat.zero = Ok 4
    /\ forall target,
         percentileScan h' false target (Z.to_nat h'.(countsArrayLength)) 0 0
         <> Ok 4.
Proof.
  eexists. eexists. split; [vm_compute; reflexivity|].
  split; [vm_compute; reflexivity|].
  split; [vm_compute; reflexivity|].
  split; [vm_compute; reflexivity|].
  split; [vm_compute; reflexivity|].
  intros target Hscan.
  match type of Hscan with
  | percentileScan ?h' _ _ _ _ _ = _ =>
      destruct (percentileScan_spec h' false target 11 0) as [Hfound Hnone];
      [lia|vm_compute; reflexivity|vm_compute; lia|];
      change (totalToIndex h' (0 - 1)) with 0 in Hfound, Hnone;
      change (Z.to_nat (countsArrayLength h')) with 11%nat in Hscan
  end.
  assert (Hcases : target <= 0 \/ target = 1 \/ 2 <= target) by lia.
  destruct Hcases as [Hle|[->|Hge]].
  - rewrite (Hfound 0) in Hscan.
    + vm_compute in Hscan. discriminate.
    + lia.
    + vm_compute totalToIndex. exact Hle.
    + intros j Hj. lia.
  - rewrite (Hfound 3) in Hscan.
    + vm_compute in Hscan. discriminate.
    + lia.
    + vm_compute. discriminate.
    + intros j Hj. assert (Hj' : j = 0 \/ j = 1 \/ j = 2) by lia.
      destruct Hj' as [->|[->| ->]]; vm_compute; reflexivity.
  - rewrite Hnone in Hscan; [discriminate|].
    intros j Hj. change (Z.of_nat 11) with 11 in Hj.
    assert (Hall : forall k, 0 <= k <= 10 -> totalToIndex
      (mkHistogram false 1 1000 0 10 2 11 0 0 52 0 0 1 1 0 5 5 32
         [0; 0; 0; 1; 0; 0; 0; 0; 0; 0; 0] 1) k <= 1).
    { intros k Hk.
      assert (Hk' : k = 0 \/ k = 1 \/ k = 2 \/ k = 3 \/ k = 4 \/ k = 5 \/ k = 6
                    \/ k = 7 \/ k = 8 \/ k = 9 \/ k = 10) by lia.
      destruct Hk' as [->|[->|[->|[->|[->|[->|[->|[->|[->|[->| ->]]]]]]]]]];
        vm_compute; discriminate. }
    specialize (Hall j ltac:(lia)). lia.
Qed.

(** ** Conservation modulo the counter width *)

Lemma sumOfCounts_set_counts (l : list Z) (h : Histogram) :
  sumOfCounts (set_counts l h) = foldr Z.add 0 l.
Proof. reflexivity. Qed.

Lemma sum_insert (l : list Z) (i : nat) (c x : Z) :
  l !! i = Some c ->
  foldr Z.add 0 (<[i := x]> l) = foldr Z.add 0 l - c + x.
Proof.
  revert i. induction l as [|y l IH]; intros [|i] Hi; try discriminate.
  - injection Hi as ->. cbn. lia.
  - specialize (IH i Hi).
    transitivity (y + (foldr Z.add 0 l - c + x)); [|cbn; lia].
    change (y + foldr Z.add 0 (<[i := x]> l) = y + (foldr Z.add 0 l - c + x)).
    rewrite IH. reflexivity.
Qed.

Lemma sum_array_set (l : list Z) (index c x : Z) :
  array_get l index = Some c ->
  foldr Z.add 0 (array_set l index x) = foldr Z.add 0 l - c + x.
Proof.
  unfold array_get, array_set. destruct (index <? 0); [discriminate|].
  apply sum_insert.
Qed.

Lemma sum_replicate_0 (n : nat) : foldr Z.add 0 (replicate n 0) = 0.
Proof. induction n as [|n IH]; cbn; [reflexivity|exact IH]. Qed.

Lemma sum_app (l1 l2 : list Z) :
  foldr Z.add 0 (l1 ++ l2) = foldr Z.add 0 l1 + foldr Z.add 0 l2.
Proof. induction l1 as [|x l1 IH]; cbn; [reflexivity|rewrite IH; lia]. Qed.

(** Growing the counts array keeps the sum of the counters. *)
Lemma sum_typed_array_set (source result : list Z) (len : Z) :
  typed_array_set (instantiate len) source = Some result ->
  foldr Z.add 0 result = foldr Z.add 0 source.
Proof.
  unfold typed_array_set, instantiate.
  destruct (_ <=? _)%nat; [|discriminate]. intros [= <-].
  rewrite sum_app, drop_replicate, sum_replicate_0. lia.
Qed.

Lemma pow2_divide (a b : Z) : 0 <= a <= b -> (2 ^ a | 2 ^ b).
Proof.
  intros Hab. exists (2 ^ (b - a)). rewrite <- Z.pow_add_r by lia. f_equal. lia.
Qed.

Lemma wrapU_divide (w x : Z) : 0 <= w -> (2 ^ w | wrapU w x - x).
Proof.
  intros Hw. unfold wrapU. exists (- (x / 2 ^ w)).
  pose proof (Z.div_mod x (2 ^ w)) as Hdm.
  pose proof (pow2_pos w Hw). lia.
Qed.

Lemma u64_divide (w x : Z) : 0 <= w <= 64 -> (2 ^ w | u64 x - x).
Proof.
  intros Hw. apply Z.divide_trans with (2 ^ 64).
  - apply pow2_divide. exact Hw.
  - apply wrapU_divide. lia.
Qed.

Lemma moves_ret {A : Type} (a : A) (h : Histogram) : moves (ret a) h 0.
Proof.
  intros a' h' [= _ <-]. split; [reflexivity|].
  replace (defect h - defect h - 0) with 0 by lia. apply Z.divide_0_r.
Qed.

Lemma moves_throw {A : Type} (e : Failure) (h : Histogram) (d : Z) :
  moves (@throw A e) h d.
Proof. intros a h' Hrun. discriminate. Qed.

Lemma moves_liftR {A : Type} (r : Histogram -> Result A) (h : Histogram) :
  moves (liftR r) h 0.
Proof.
  intros a h' Hrun. unfold liftR in Hrun. destruct (r h); [|discriminate].
  injection Hrun as _ <-. split; [reflexivity|].
  replace (defect h - defect h - 0) with 0 by lia. apply Z.divide_0_r.
Qed.

Lemma moves_modify (f : Histogram -> Histogram) (h : Histogram) (d : Z) :
  (f h).(counterBits) = h.(counterBits) ->
  (2 ^ h.(counterBits) | defect (f h) - defect h - d) ->
  moves (modify f) h d.
Proof. intros HW Hd a h' [= _ <-]. split; assumption. Qed.

Lemma moves_modify_0 (f : Histogram -> Histogram) (h : Histogram) :
  (f h).(counterBits) = h.(counterBits) ->
  defect (f h) = defect h ->
  moves (modify f) h 0.
Proof.
  intros HW Hd. apply moves_modify; [exact HW|]. rewrite Hd.
  replace (defect h - defect h - 0) with 0 by lia. apply Z.divide_0_r.
Qed.

Lemma moves_bind {A B : Type} (m : M A) (k : A -> M B) (h : Histogram) (d1 d2 : Z) :
  moves m h d1 ->
  (forall a h1, m h = Return a h1 -> moves (k a) h1 d2) ->
  moves (bind m k) h (d1 + d2).
Proof.
  intros Hm Hk b h' Hrun. unfold bind in Hrun.
  unfold moves in Hm.
  destruct (m h) as [a h1|e h1]; [|discriminate].
  destruct (Hm a h1 eq_refl) as [HW1 Hd1].
  destruct (Hk a h1 eq_refl b h' Hrun) as [HW2 Hd2].
  split; [congruence|]. rewrite HW1 in Hd2.
  replace (defect h' - defect h - (d1 + d2))
    with ((defect h' - defect h1 - d2) + (defect h1 - defect h - d1)) by lia.
  apply Z.divide_add_r; assumption.
Qed.

Lemma moves_get_bind {B : Type} (k : Histogram -> M B) (h : Histogram) (d : Z) :
  moves (k h) h d -> moves (bind get k) h d.
Proof. intros Hk b h' Hrun. apply (Hk b h'). exact Hrun. Qed.

Lemma moves_change {A : Type} (m : M A) (h : Histogram) (d d' : Z) :
  d = d' -> moves m h d -> moves m h d'.
Proof. intros <-. exact id. Qed.

Lemma moves_establishSize (v : Z) (h : Histogram) : moves (establishSize v) h 0.
Proof.
  unfold establishSize.
  apply (moves_bind _ _ h 0 0); [apply moves_liftR|]. intros len h1 _.
  apply (moves_bind _ _ h1 0 0); [apply moves_modify_0; reflexivity|]. intros _ h2 _.
  apply (moves_bind _ _ h2 0 0); [apply moves_liftR|]. intros n h3 _.
  apply (moves_bind _ _ h3 0 0); [apply moves_modify_0; reflexivity|]. intros _ h4 _.
  apply moves_modify_0; reflexivity.
Qed.

Lemma moves_resize (v : Z) (h : Histogram) : moves (resize v) h 0.
Proof.
  unfold resize.
  apply (moves_bind _ _ h 0 0); [apply moves_establishSize|]. intros _ h1 _.
  apply moves_get_bind.
  destruct (typed_array_set _ _) as [newCounts|] eqn:Hset; [|apply moves_throw].
  apply moves_modify_0; [reflexivity|].
  unfold defect. rewrite sumOfCounts_set_counts.
  rewrite (sum_typed_array_set _ _ _ Hset). reflexivity.
Qed.

Lemma moves_incrementCountAtIndex (index : Z) (h : Histogram) :
  0 <= h.(counterBits) <= 64 ->
  moves (incrementCountAtIndex index) h (-1).
Proof.
  intros HW. unfold incrementCountAtIndex. apply moves_get_bind.
  destruct (array_get _ _) as [c|] eqn:Hget; [|apply moves_throw].
  destruct (_ <? 0); [apply moves_throw|].
  apply moves_modify; [reflexivity|].
  unfold defect. rewrite sumOfCounts_set_counts, (sum_array_set _ _ _ _ Hget).
  cbn [totalCount set_counts]. fold (sumOfCounts h).
  pose proof (wrapU_divide h.(counterBits) (c + 1) ltac:(lia)) as [q Hq].
  exists (- q). lia.
Qed.

Lemma moves_addToCountAtIndex (index value : Z) (h : Histogram) :
  0 <= h.(counterBits) <= 64 ->
  moves (addToCountAtIndex index value) h (- value).
Proof.
  intros HW. unfold addToCountAtIndex. apply moves_get_bind.
  destruct (array_get _ _) as [c|] eqn:Hget; [|apply moves_throw].
  destruct (_ <? 0); [apply moves_throw|].
  apply moves_modify; [reflexivity|].
  unfold defect. rewrite sumOfCounts_set_counts, (sum_array_set _ _ _ _ Hget).
  cbn [totalCount set_counts]. fold (sumOfCounts h).
  pose proof (wrapU_divide h.(counterBits) (u64 (c + value)) ltac:(lia)) as [q Hq].
  pose proof (u64_divide h.(counterBits) (c + value) HW) as [q' Hq'].
  exists (- q - q'). lia.
Qed.

Lemma moves_updateMinAndMax (value : Z) (h : Histogram) :
  moves (updateMinAndMax value) h 0.
Proof.
  unfold updateMinAndMax, updatedMaxValue, updateMinNonZeroValue.
  apply moves_get_bind.
  apply (moves_bind _ _ h 0 0).
  - destruct (_ <? _); [|apply moves_ret].
    apply moves_get_bind. apply moves_modify_0; reflexivity.
  - intros _ h1 _. apply moves_get_bind.
    destruct (_ && _); [|apply moves_ret].
    apply moves_get_bind. destruct (_ <=? _); [apply moves_ret|].
    apply moves_modify_0; reflexivity.
Qed.

Lemma moves_handleRecordException (count value : Z) (h : Histogram) :
  0 <= h.(counterBits) <= 64 ->
  moves (handleRecordException count value) h (- count).
Proof.
  intros HW. unfold handleRecordException. apply moves_get_bind.
  destruct (negb _); [apply moves_throw|].
  apply (moves_change _ _ (0 + (0 + (- count + 0)))); [lia|].
  apply moves_bind; [apply moves_resize|]. intros [] h1 Hh1.
  pose proof (moves_resize value h tt h1 Hh1) as [HW1 _].
  apply moves_bind; [apply moves_liftR|]. intros idx h2 Hh2.
  assert (h2 = h1) as ->.
  { unfold liftR in Hh2. destruct (countsArrayIndex h1 value); congruence. }
  apply moves_bind; [apply moves_addToCountAtIndex; congruence|]. intros _ h3 _.
  apply moves_modify_0; reflexivity.
Qed.

Lemma moves_bind_width {A B : Type} (m : M A) (k : A -> M B) (h : Histogram)
  (d1 d2 : Z) :
  moves m h d1 ->
  (forall a h1, h1.(counterBits) = h.(counterBits) -> moves (k a) h1 d2) ->
  moves (bind m k) h (d1 + d2).
Proof.
  intros Hm Hk. apply moves_bind; [exact Hm|].
  intros a h1 Hrun. apply Hk. apply (Hm a h1 Hrun).
Qed.

Lemma moves_incrementTotalCount (h : Histogram) :
  0 <= h.(counterBits) <= 64 -> moves incrementTotalCount h 1.
Proof.
  intros HW. apply moves_modify; [reflexivity|].
  unfold defect. cbn [totalCount set_totalCount].
  change (sumOfCounts (set_totalCount _ h)) with (sumOfCounts h).
  pose proof (u64_divide h.(counterBits) (h.(totalCount) + 1) HW) as [q Hq].
  exists q. lia.
Qed.

Lemma moves_recordSingleValue (value : Z) (h : Histogram) :
  0 <= h.(counterBits) <= 64 -> moves (recordSingleValue value) h 0.
Proof.
  intros HW. unfold recordSingleValue.
  apply (moves_change _ _ (0 + (-1 + (0 + 1)))); [lia|].
  apply moves_bind_width; [apply moves_liftR|]. intros idx h1 HW1.
  apply moves_get_bind.
  apply moves_bind_width.
  { destruct (_ <=? _).
    - apply (moves_handleRecordException 1). congruence.
    - apply moves_incrementCountAtIndex. congruence. }
  intros _ h2 HW2.
  apply moves_bind_width; [apply moves_updateMinAndMax|]. intros _ h3 HW3.
  apply moves_incrementTotalCount. congruence.
Qed.

Lemma moves_recordCountAtValue (count value : Z) (h : Histogram) :
  0 <= h.(counterBits) <= 64 -> moves (recordCountAtValue count value) h 0.
Proof.
  intros HW. unfold recordCountAtValue.
  apply (moves_change _ _ (0 + (- count + (0 + count)))); [lia|].
  apply moves_bind_width; [apply moves_liftR|]. intros idx h1 HW1.
  apply moves_get_bind.
  apply moves_bind_width.
  { destruct (_ <=? _).
    - apply moves_handleRecordException. congruence.
    - apply moves_addToCountAtIndex. congruence. }
  intros _ h2 HW2.
  apply moves_bind_width; [apply moves_updateMinAndMax|]. intros _ h3 HW3.
  apply moves_modify; [reflexivity|].
  unfold defect. cbn [totalCount set_totalCount].
  change (sumOfCounts (set_totalCount _ h3)) with (sumOfCounts h3).
  assert (HW' : 0 <= h3.(counterBits) <= 64) by congruence.
  pose proof (u64_divide h3.(counterBits) (h3.(totalCount) + count) HW') as [q Hq].
  exists q. lia.
Qed.

(** [reset] leaves no defect at all. *)
Lemma reset_spec (h : Histogram) :
  exists h', reset h = Return tt h'
             /\ h'.(counterBits) = h.(counterBits)
             /\ h'.(totalCount) = 0 /\ sumOfCounts h' = 0
             /\ h'.(counts) = replicate (length h.(counts)) 0
             /\ h'.(maxValue) = 0 /\ h'.(minNonZeroValue) = U64_MAX_VALUE.
Proof.
  eexists. split; [reflexivity|]. cbn.
  repeat split. unfold sumOfCounts. cbn. apply sum_replicate_0.
Qed.

(** The loop of the matching-layout branch: the counters grow by what the
    loop reports, modulo the counter width, and nothing else changes. *)
Lemma addCountsLoop_spec (other : Histogram) (n : nat) :
  forall (i observed : Z) (h : Histogram) (observed' : Z) (h' : Histogram),
    0 <= h.(counterBits) <= 64 ->
    addCountsLoop other n i observed h = Return observed' h' ->
    h'.(counterBits) = h.(counterBits)
    /\ h'.(totalCount) = h.(totalCount)
    /\ (2 ^ h.(counterBits)
        | (sumOfCounts h' - sumOfCounts h) - (observed' - observed)).
Proof.
  induction n as [|n IH]; intros i observed h observed' h' HW Hrun.
  - injection Hrun as <- <-. repeat split.
    replace (sumOfCounts h - sumOfCounts h - (observed - observed)) with 0 by lia.
    apply Z.divide_0_r.
  - cbn [addCountsLoop] in Hrun. unfold bind at 1, liftR in Hrun.
    destruct (getCountAtIndex other i) as [otherCount|]; [|discriminate].
    destruct (0 <? otherCount).
    + unfold bind at 1 in Hrun.
      destruct (addToCountAtIndex i otherCount h) as [[] h1|] eqn:Hadd;
        [|discriminate].
      pose proof (moves_addToCountAtIndex i otherCount h HW tt h1 Hadd)
        as [HW1 [q1 Hq1]].
      assert (Htot : h1.(totalCount) = h.(totalCount)).
      { unfold addToCountAtIndex, bind, get in Hadd.
        destruct (array_get _ _); [|discriminate].
        destruct (_ <? 0); [discriminate|]. injection Hadd as <-. reflexivity. }
      assert (HW1' : 0 <= h1.(counterBits) <= 64) by (rewrite HW1; exact HW).
      destruct (IH _ _ _ _ _ HW1' Hrun) as (HW2 & Htot2 & [q2 Hq2]).
      rewrite HW1 in Hq2.
      pose proof (u64_divide h.(counterBits) (observed + otherCount) HW) as [q3 Hq3].
      split; [congruence|]. split; [congruence|].
      unfold defect in Hq1. exists (q2 - q1 - q3). lia.
    + apply (IH _ _ _ _ _ HW Hrun).
Qed.

Lemma moves_recordCountsLoop (other : Histogram) (n : nat) :
  forall (i : Z) (h : Histogram),
    0 <= h.(counterBits) <= 64 -> moves (recordCountsLoop other n i) h 0.
Proof.
  induction n as [|n IH]; intros i h HW; cbn [recordCountsLoop].
  - apply moves_ret.
  - apply (moves_change _ _ (0 + (0 + 0))); [lia|].
    apply moves_bind_width; [apply moves_liftR|]. intros c h1 HW1.
    apply moves_bind_width.
    { destruct (0 <? c); [|apply moves_ret].
      apply moves_recordCountAtValue. congruence. }
    intros _ h2 HW2. apply IH. congruence.
Qed.

Lemma moves_add (other : Histogram) (h : Histogram) :
  0 <= h.(counterBits) <= 64 -> moves (add other) h 0.
Proof.
  intros HW. unfold add. apply moves_get_bind.
  apply (moves_change _ _ (0 + (0 + 0))); [lia|].
  apply moves_bind_width.
  { destruct (_ <? _); [|apply moves_ret].
    destruct (negb _); [apply moves_throw|apply moves_resize]. }
  intros _ h1 HW1. apply moves_get_bind.
  assert (HW1' : 0 <= h1.(counterBits) <= 64) by (rewrite HW1; exact HW).
  apply moves_bind_width; [|intros; apply moves_modify_0; reflexivity].
  destruct (_ && _).
  - (* matching layouts *)
    intros a h' Hrun. unfold bind at 1 in Hrun.
    destruct (addCountsLoop other _ 0 0 h1) as [observed h2|] eqn:Hloop;
      [|discriminate].
    destruct (addCountsLoop_spec _ _ _ _ _ _ _ HW1' Hloop)
      as (HW2 & Htot2 & [q Hq]).
    revert a h' Hrun.
    assert (Hrest : forall h3, h3.(counterBits) = h1.(counterBits) ->
              moves (do h <- get;
                     do_ updatedMaxValue (Z.max h.(maxValue) other.(maxValue));
                     do h <- get;
                     updateMinNonZeroValue
                       (Z.min h.(minNonZeroValue) other.(minNonZeroValue))) h3 0).
    { intros h3 HW3. apply moves_get_bind.
      apply (moves_change _ _ (0 + 0)); [lia|].
      apply moves_bind_width.
      - unfold updatedMaxValue. apply moves_get_bind.
        apply moves_modify_0; reflexivity.
      - intros _ h4 HW4. apply moves_get_bind.
        unfold updateMinNonZeroValue. apply moves_get_bind.
        destruct (_ <=? _); [apply moves_ret|].
        apply moves_modify_0; reflexivity. }
    intros a h' Hrun. unfold bind at 1, modify at 1 in Hrun.
    set (h3 := set_totalCount (u64 (totalCount h2 + observed)) h2) in Hrun.
    destruct (Hrest h3 HW2 a h' Hrun) as [HW' [q' Hq']].
    change (counterBits h3) with (counterBits h2) in HW', Hq'.
    split; [congruence|]. rewrite HW2 in Hq'.
    pose proof (u64_divide h1.(counterBits) (totalCount h2 + observed) HW1')
      as [q3 Hq3].
    assert (Hd3 : defect h3 = u64 (totalCount h2 + observed) - sumOfCounts h2)
      by reflexivity.
    unfold defect in *. exists (q' + q3 - q). lia.
  - (* layouts that differ *)
    apply (moves_change _ _ (0 + (0 + (0 + 0)))); [lia|].
    apply moves_bind_width; [apply moves_liftR|]. intros idx h2 HW2.
    apply moves_bind_width; [apply moves_liftR|]. intros c h3 HW3.
    apply moves_bind_width; [apply moves_recordCountAtValue; congruence|].
    intros _ h4 HW4. apply moves_recordCountsLoop. congruence.
Qed.

Lemma moves_perform (op : Operation) (h : Histogram) :
  0 <= h.(counterBits) <= 64 -> moves (perform op) h 0 \/ op = Reset.
Proof.
  intros HW. destruct op as [v|c v|other|]; cbn [perform].
  - left. apply moves_recordSingleValue. exact HW.
  - left. apply moves_recordCountAtValue. exact HW.
  - left. apply moves_add. exact HW.
  - right. reflexivity.
Qed.

Lemma perform_conserved (op : Operation) (h h' : Histogram) :
  conserved_modulo_width h ->
  perform op h = Return tt h' ->
  conserved_modulo_width h'.
Proof.
  intros [HW Hdiv] Hrun.
  destruct (moves_perform op h HW) as [Hmoves| ->].
  - destruct (Hmoves tt h' Hrun) as [HW' [q Hq]].
    split; [congruence|]. rewrite HW'. destruct Hdiv as [q0 Hq0].
    exists (q + q0). lia.
  - destruct (reset_spec h) as (h'' & Hreset & HW' & Htot & Hsum & _).
    cbn [perform] in Hrun. rewrite Hreset in Hrun. injection Hrun as <-.
    split; [congruence|]. unfold defect. rewrite Htot, Hsum.
    apply Z.divide_0_r.
Qed.

Lemma performAll_conserved (ops : list Operation) (h h' : Histogram) :
  conserved_modulo_width h ->
  performAll ops h = Return tt h' ->
  conserved_modulo_width h'.
Proof.
  revert h. induction ops as [|op ops IH]; intros h Hc Hrun.
  - injection Hrun as <-. exact Hc.
  - cbn [performAll] in Hrun. unfold bind in Hrun.
    destruct (perform op h) as [[] h1|] eqn:Hop; [|discriminate].
    apply (IH h1); [|exact Hrun].
    apply (perform_conserved op h h1 Hc Hop).
Qed.

(** Conservation as the code keeps it: after any sequence of [recordValue],
    [recordCountAtValue], [add] and [reset] calls that all returned,
    [totalCount] and the sum of the counters agree modulo [2^counterBits];
    they are equal whenever both are below [2^counterBits]. *)
Theorem conservation_modulo_width (ops : list Operation) (h h' : Histogram) :
  conserved_modulo_width h ->
  performAll ops h = Return tt h' ->
  conserved_modulo_width h'
  /\ (0 <= h'.(totalCount) < 2 ^ h'.(counterBits) ->
      0 <= sumOfCounts h' < 2 ^ h'.(counterBits) ->
      h'.(totalCount) = sumOfCounts h').
Proof.
  intros Hc Hrun.
  pose proof (performAll_conserved ops h h' Hc Hrun) as Hc'.
  split; [exact Hc'|].
  intros Ht Hs. destruct Hc' as [HW [q Hq]]. unfold defect in Hq.
  assert (q = 0) by nia. lia.
Qed.

Lemma conservation_modulo_width_witness :
  exists h h',
    new_Histogram 8 false 0 0 1 1000 0 = Ok h
    /\ performAll [RecordValue 5; RecordCountAtValue 300 7; Add h; Reset;
                   RecordCountAtValue 3 9] h = Return tt h'
    /\ h'.(totalCount) = sumOfCounts h'.
Proof.
  eexists. eexists. split; [vm_compute; reflexivity|].
  split; [vm_compute; reflexivity|].
  match goal with
  | |- totalCount ?h' = _ =>
      apply (conservation_modulo_width
               [RecordValue 5; RecordCountAtValue 300 7;
                Add (mkHistogram false 1 1000 0 10 2 11 0 0 52 0 0 1 1 0 0
                       U64_MAX_VALUE 8 (replicate 11 0) 0);
                Reset; RecordCountAtValue 3 9]
               (mkHistogram false 1 1000 0 10 2 11 0 0 52 0 0 1 1 0 0
                  U64_MAX_VALUE 8 (replicate 11 0) 0) h')
  end.
  - split; [vm_compute; split; discriminate|]. vm_compute. exists 0. reflexivity.
  - vm_compute. reflexivity.
  - vm_compute. split; [discriminate|reflexivity].
  - vm_compute. split; [discriminate|reflexivity].
Defined.

(** ** [add] on matching layouts *)

Lemma u64_add_idemp (a b : Z) : u64 (u64 a + b) = u64 (a + b).
Proof. unfold u64, wrapU. apply Zplus_mod_idemp_l. Qed.

Lemma u64_add_idemp_r (a b : Z) : u64 (a + u64 b) = u64 (a + b).
Proof. unfold u64, wrapU. apply Zplus_mod_idemp_r. Qed.

Lemma wrapU_u64 (w x : Z) : 0 <= w <= 64 -> wrapU w (u64 x) = wrapU w x.
Proof.
  intros Hw. unfold u64, wrapU. apply Z.mod_mod_divide. apply pow2_divide. lia.
Qed.

Lemma wrapU_small (w x : Z) : 0 <= x < 2 ^ w -> wrapU w x = x.
Proof. intros Hx. unfold wrapU. apply Z.mod_small. exact Hx. Qed.

(** The loop of the matching-layout branch, on the part of the two arrays
    it has not visited yet: [pre] and [opre] are behind it. *)
Lemma addCountsLoop_result (other : Histogram) (n : nat) :
  forall (pre rest opre orest : list Z) (observed : Z) (h : Histogram),
    0 <= h.(counterBits) <= 64 -> 0 <= observed < 2 ^ 64 ->
    h.(counts) = pre ++ rest -> other.(counts) = opre ++ orest ->
    length pre = length opre ->
    (n <= length rest)%nat -> (n <= length orest)%nat ->
    Z.of_nat (length pre) + Z.of_nat n < 2 ^ 31 ->
    Forall (fun c => 0 <= c < 2 ^ h.(counterBits)) rest ->
    Forall (fun c => 0 <= c < 2 ^ 64) orest ->
    addCountsLoop other n (Z.of_nat (length pre)) observed h
    = Return (u64 (observed + foldr Z.add 0 (take n orest)))
        (set_counts
           (pre ++ addPairwise h.(counterBits) (take n rest) (take n orest)
                ++ drop n rest) h).
Proof.
  change (2 ^ 31) with 2147483648.
  induction n as [|n IH];
    intros pre rest opre orest observed h HW Hobs Hcs Hocs Hlen Hn Hon Hmax Hr Hor.
  - change (ret observed h
            = Return (u64 (observed + 0)) (set_counts (pre ++ rest) h)).
    rewrite Z.add_0_r, (u64_small observed Hobs), <- Hcs.
    unfold ret. f_equal. destruct h; reflexivity.
  - destruct rest as [|c rest]; [cbn in Hn; lia|].
    destruct orest as [|oc orest]; [cbn in Hon; lia|].
    apply Forall_cons in Hr as [Hc Hr]. apply Forall_cons in Hor as [Hoc Hor].
    cbn [addCountsLoop]. unfold bind at 1, liftR, getCountAtIndex.
    assert (Hoget : array_get other.(counts) (Z.of_nat (length pre)) = Some oc).
    { unfold array_get. destruct (Z.ltb_spec (Z.of_nat (length pre)) 0); [lia|].
      rewrite Nat2Z.id, Hocs. apply list_lookup_middle. exact Hlen. }
    assert (Hget : array_get h.(counts) (Z.of_nat (length pre)) = Some c).
    { unfold array_get. destruct (Z.ltb_spec (Z.of_nat (length pre)) 0); [lia|].
      rewrite Nat2Z.id, Hcs. apply list_lookup_middle. reflexivity. }
    rewrite Hoget, (u64_small oc Hoc).
    rewrite (i32_small (Z.of_nat (length pre) + 1))
      by (change (2 ^ 31) with 2147483648; lia).
    replace (Z.of_nat (length pre) + 1) with (Z.of_nat (length (pre ++ [c])))
      by (rewrite length_app; cbn; lia).
    cbn [take drop foldr]. unfold addPairwise. cbn [zip_with]. fold (addPairwise (counterBits h)).
    destruct (Z.ltb_spec 0 oc) as [Hpos|Hzero].
    + unfold bind at 1. rewrite (addToCountAtIndex_wraps h _ c oc Hget).
      rewrite wrapU_u64 by exact HW.
      set (x := wrapU (counterBits h) (c + oc)).
      assert (Hcs1 : array_set (counts h) (Z.of_nat (length pre)) x
                     = (pre ++ [x]) ++ rest).
      { unfold array_set. rewrite Nat2Z.id, Hcs.
        rewrite insert_app_r_alt by lia. rewrite Nat.sub_diag. cbn.
        rewrite <- app_assoc. reflexivity. }
      replace (length (pre ++ [c])) with (length (pre ++ [x]))
        by (rewrite !length_app; reflexivity).
      rewrite (IH (pre ++ [x]) rest (opre ++ [oc]) orest);
        cbn [counterBits set_counts counts]; try assumption.
      * rewrite u64_add_idemp. f_equal; [f_equal; lia|].
        rewrite <- !app_assoc. reflexivity.
      * apply u64_range.
      * rewrite <- app_assoc. exact Hocs.
      * rewrite !length_app. cbn. lia.
      * cbn in Hn. lia.
      * cbn in Hon. lia.
      * rewrite length_app. cbn. lia.
    + assert (oc = 0) by lia. subst oc.
      assert (Hx : wrapU (counterBits h) (c + 0) = c).
      { rewrite Z.add_0_r. apply wrapU_small. exact Hc. }
      rewrite Hx.
      rewrite (IH (pre ++ [c]) rest (opre ++ [0]) orest); try assumption.
      * f_equal. rewrite <- !app_assoc. reflexivity.
      * rewrite <- app_assoc. exact Hcs.
      * rewrite <- app_assoc. exact Hocs.
      * rewrite !length_app. cbn. lia.
      * cbn in Hn. lia.
      * cbn in Hon. lia.
      * rewrite length_app. cbn. lia.
Qed.

(** [add] on two histograms of one layout, when the other's [maxValue] needs
    no resize: the counters are added pairwise by index, modulo the counter
    width; [totalCount] grows by the sum of the other's counters;
    [maxValue] becomes the larger of the two plus [unitMagnitudeMask];
    [minNonZeroValue] becomes the smaller of the two with the mask bits
    cleared, unless that minimum is within the mask; the time stamps
    become the earlier start and the later end. *)
Theorem add_matching_layout (h other : Histogram) :
  0 <= h.(counterBits) <= 64 ->
  h.(bucketCount) = other.(bucketCount) ->
  h.(subBucketCount) = other.(subBucketCount) ->
  h.(unitMagnitude) = other.(unitMagnitude) ->
  other.(countsArrayLength) = Z.of_nat (length other.(counts)) ->
  length h.(counts) = length other.(counts) ->
  other.(countsArrayLength) < 2 ^ 31 ->
  Forall (fun c => 0 <= c < 2 ^ h.(counterBits)) h.(counts) ->
  Forall (fun c => 0 <= c < 2 ^ 64) other.(counts) ->
  other.(maxValue)
  <= highestEquivalentValue h (valueFromIndex h (i32 (h.(countsArrayLength) - 1))) ->
  exists h',
    add other h = Return tt h'
    /\ h'.(counts) = addPairwise h.(counterBits) h.(counts) other.(counts)
    /\ h'.(totalCount) = u64 (h.(totalCount) + sumOfCounts other)
    /\ h'.(maxValue)
       = u64 (Z.max h.(maxValue) other.(maxValue) + h.(unitMagnitudeMask))
    /\ h'.(minNonZeroValue)
       = (let m := Z.min h.(minNonZeroValue) other.(minNonZeroValue) in
          if m <=? h.(unitMagnitudeMask) then h.(minNonZeroValue)
          else Z.land m (u64 (Z.lnot h.(unitMagnitudeMask))))
    /\ h'.(startTimeStampMsec)
       = Z.min h.(startTimeStampMsec) other.(startTimeStampMsec)
    /\ h'.(endTimeStampMsec)
       = Z.max h.(endTimeStampMsec) other.(endTimeStampMsec).
Proof.
  intros HW HB Hsbc Hum Holen Hlen Hmax Hr Hor Hfit.
  unfold add. unfold bind at 1, get at 1.
  destruct (Z.ltb_spec
              (highestEquivalentValue h
                 (valueFromIndex h (i32 (countsArrayLength h - 1))))
              (maxValue other)) as [|_]; [lia|].
  unfold bind at 1, ret at 1. unfold bind at 1, get at 1.
  rewrite HB, Hsbc, Hum, !Z.eqb_refl. cbn [andb].
  unfold bind at 1. unfold bind at 1.
  pose proof (addCountsLoop_result other (length other.(counts))
                [] h.(counts) [] other.(counts) 0 h HW) as Hloop.
  cbn [length app] in Hloop. change (Z.of_nat 0) with 0 in Hloop.
  rewrite Holen, Nat2Z.id.
  rewrite Hloop; try assumption || reflexivity || lia.
  rewrite !take_ge by lia. rewrite drop_ge by lia. rewrite app_nil_r.
  rewrite Z.add_0_l. fold (sumOfCounts other).
  unfold updatedMaxValue, updateMinNonZeroValue, bind, get, modify, ret.
  cbn [minNonZeroValue unitMagnitudeMask maxValue totalCount set_counts
       set_totalCount set_maxValue].
  rewrite u64_add_idemp_r. cbv zeta.
  destruct (Z.min (minNonZeroValue h) (minNonZeroValue other)
            <=? unitMagnitudeMask h);
    (eexists; split; [reflexivity|]; cbn; repeat split; reflexivity).
Qed.

Lemma add_matching_layout_witness :
  exists h1 h2 h',
    recordValues [1; 2] (mkHistogram false 1 2 0 2 2 3 0 0 52 0 0 1 1 0 0
                           U64_MAX_VALUE 8 [0; 0; 0] 0) = Return tt h1
    /\ recordValues [2; 2] (mkHistogram false 1 2 0 2 2 3 7 9 52 0 0 1 1 0 0
                              U64_MAX_VALUE 8 [0; 0; 0] 0) = Return tt h2
    /\ add h2 h1 = Return tt h'
    /\ h'.(counts) = [0; 1; 3] /\ h'.(totalCount) = 4 /\ h'.(maxValue) = 2
    /\ h'.(minNonZeroValue) = 1
    /\ h'.(startTimeStampMsec) = 0 /\ h'.(endTimeStampMsec) = 9.
Proof.
  eexists. eexists.
  match goal with
  | |- exists h', ?r1 = Return tt ?h1 /\ ?r2 = Return tt ?h2 /\ _ =>
      let v1 := eval vm_compute in (final r1) in
      let v2 := eval vm_compute in (final r2) in
      unify h1 v1; unify h2 v2;
      destruct (add_matching_layout v1 v2) as (h' & Hadd & Hc & Ht & Hm & Hn & Hs & He)
  end.
  - vm_compute. split; discriminate.
  - reflexivity.
  - reflexivity.
  - reflexivity.
  - reflexivity.
  - reflexivity.
  - vm_compute. reflexivity.
  - repeat constructor; vm_compute; discriminate.
  - repeat constructor; vm_compute; discriminate.
  - vm_compute. discriminate.
  - exists h'. split; [vm_compute; reflexivity|]. split; [vm_compute; reflexivity|].
    split; [exact Hadd|].
    rewrite Hc, Ht, Hm, Hn, Hs, He. repeat split; vm_compute; reflexivity.
Defined.

(** ** Correction for coordinated omission *)

(** The loop records the values from [missing] down in steps of [E], as
    long as they are at least [E]: [missing / E] of them. *)
Lemma missingValuesLoop_forEach (body : Z -> M unit) (E : Z) (n : nat) :
  forall (fuel : nat) (missing : Z) (h : Histogram),
    0 < E -> 0 <= missing < 2 ^ 64 ->
    n = Z.to_nat (missing / E) -> (n <= fuel)%nat ->
    missingValuesLoop fuel body E missing h
    = forEach (stepsDown n missing E) body h.
Proof.
  induction n as [|n IH]; intros fuel missing h HE Hm Hn Hfuel.
  - assert (Hq : missing / E <= 0) by lia.
    assert (missing < E).
    { destruct (Z.lt_ge_cases missing E); [assumption|].
      assert (1 <= missing / E) by (apply Z.div_le_lower_bound; lia). lia. }
    destruct fuel; cbn [missingValuesLoop stepsDown forEach];
      destruct (Z.leb_spec E missing); try lia; reflexivity.
  - assert (Hge : E <= missing).
    { destruct (Z.lt_ge_cases missing E) as [Hlt|]; [|assumption].
      rewrite Z.div_small in Hn by lia. discriminate. }
    destruct fuel as [|fuel]; [lia|].
    cbn [missingValuesLoop stepsDown forEach].
    destruct (Z.leb_spec E missing); [|lia].
    unfold bind. destruct (body missing h) as [[] h1|]; [|reflexivity].
    rewrite (u64_small (missing - E)) by lia.
    apply IH; try lia.
    replace (missing - E) with (missing + (-1) * E) by lia.
    rewrite Z.div_add by lia. lia.
Qed.

(** Expected-interval recording in its intended range: for [0 < E <= v] both interval methods
    record [v] and then the synthetic samples [v - E], [v - 2E], ... that
    are at least [E], the count variant with [count] for each; [v / E]
    turns of fuel are enough for the loop. *)
Theorem expected_interval_records (fuel : nat) (v count E : Z) (h : Histogram) :
  0 < E -> E <= v -> v < 2 ^ 64 -> (Z.to_nat (v / E) <= fuel)%nat ->
  recordSingleValueWithExpectedInterval fuel v E h
  = forEach (v :: syntheticSamples v E) recordSingleValue h
  /\ recordValueWithCountAndExpectedInterval fuel v count E h
     = forEach (v :: syntheticSamples v E) (recordCountAtValue count) h
  /\ Forall (fun s => E <= s < v) (syntheticSamples v E)
  /\ length (syntheticSamples v E) = Z.to_nat (v / E - 1).
Proof.
  intros HE Hv Hmax Hfuel.
  assert (Hq : (v - E) / E = v / E - 1).
  { replace (v - E) with (v + (-1) * E) by lia. rewrite Z.div_add by lia. lia. }
  assert (Hq1 : 1 <= v / E) by (apply Z.div_le_lower_bound; lia).
  split; [|split; [|split]].
  - unfold recordSingleValueWithExpectedInterval. cbn [forEach]. unfold bind.
    destruct (recordSingleValue v h) as [[] h1|]; [|reflexivity].
    destruct (Z.leb_spec E 0); [lia|].
    rewrite (u64_small (v - E)) by lia.
    apply missingValuesLoop_forEach; try lia.
  - unfold recordValueWithCountAndExpectedInterval. cbn [forEach]. unfold bind.
    destruct (recordCountAtValue count v h) as [[] h1|]; [|reflexivity].
    destruct (Z.leb_spec v E).
    + assert (v = E) by lia. subst v. unfold syntheticSamples.
      rewrite Z.div_same by lia. reflexivity.
    + rewrite (u64_small (v - E)) by lia.
      apply missingValuesLoop_forEach; try lia.
  - unfold syntheticSamples. rewrite <- Hq.
    assert (Hgen : forall n m, 0 <= m -> n = Z.to_nat (m / E) -> m < v ->
              Forall (fun s => E <= s < v) (stepsDown n m E)).
    { induction n as [|n IH]; intros m Hm Hn Hmv; [constructor|].
      assert (Hge : E <= m).
      { destruct (Z.lt_ge_cases m E) as [Hlt|]; [|assumption].
        rewrite Z.div_small in Hn by lia. discriminate. }
      cbn [stepsDown]. constructor; [lia|]. apply IH; try lia.
      replace (m - E) with (m + (-1) * E) by lia.
      rewrite Z.div_add by lia. lia. }
    apply Hgen; lia.
  - unfold syntheticSamples.
    generalize (Z.to_nat (v / E - 1)) (v - E).
    induction n as [|n IH]; intros m; cbn; [reflexivity|]. rewrite IH. reflexivity.
Qed.

Lemma expected_interval_records_witness :
  exists h,
    new_Histogram 32 true 0 0 1 2 3 = Ok h
    /\ recordSingleValueWithExpectedInterval 10 1000 100 h
       = forEach [1000; 900; 800; 700; 600; 500; 400; 300; 200; 100]
           recordSingleValue h.
Proof.
  apply result_holds.
  match goal with
  | |- match ?r with Ok h => _ | Err _ => False end =>
      let v := eval vm_compute in r in
      change r with v; cbv iota
  end.
  match goal with
  | |- recordSingleValueWithExpectedInterval _ _ _ ?h = _ =>
      destruct (expected_interval_records 10 1000 1 100 h) as [Hsingle _]
  end.
  - lia.
  - lia.
  - vm_compute. reflexivity.
  - vm_compute. lia.
  - exact Hsingle.
Defined.

(** The count variant has no guard on the interval: with an interval of 0 and
    a value above 0 the loop never ends, whatever fuel it is given. *)
Lemma missingValuesLoop_zero_interval (body : Z -> M unit) (fuel : nat) :
  forall (missing : Z) (h : Histogram),
    0 <= missing ->
    returned (missingValuesLoop fuel body 0 missing h) = false.
Proof.
  induction fuel as [|fuel IH]; intros missing h Hm; cbn [missingValuesLoop];
    destruct (Z.leb_spec 0 missing); try lia; [reflexivity|].
  unfold bind. destruct (body missing h) as [[] h1|]; [|reflexivity].
  apply IH. apply u64_range.
Qed.

Theorem zero_interval_never_returns (fuel : nat) (v count : Z) (h : Histogram) :
  0 < v ->
  returned (recordValueWithCountAndExpectedInterval fuel v count 0 h) = false.
Proof.
  intros Hv. unfold recordValueWithCountAndExpectedInterval, bind.
  destruct (recordCountAtValue count v h) as [[] h1|]; [|reflexivity].
  destruct (Z.leb_spec v 0); [lia|].
  apply missingValuesLoop_zero_interval. apply u64_range.
Qed.

Lemma zero_interval_never_returns_witness :
  exists h,
    new_Histogram 32 false 0 0 1 1000 0 = Ok h
    /\ returned (recordValueWithCountAndExpectedInterval 1000 5 2 0 h) = false.
Proof.
  eexists. split; [vm_compute; reflexivity|].
  apply (zero_interval_never_returns 1000 5 2). lia.
Defined.

(** Scenario S4: on a histogram built with the defaults (lowest 1, highest
    2, three digits, auto-resize), the correction of 1000 with the interval
    100 leaves a total of 10, in ten counters of 1 at the values 100, 200,
    ..., 1000. *)
Lemma scenario_expected_interval :
  exists h h',
    new_Histogram 32 true 0 0 1 2 3 = Ok h
    /\ recordSingleValueWithExpectedInterval 10 1000 100 h = Return tt h'
    /\ h'.(totalCount) = 10
    /\ recordedCounts h'
       = [(100, 1); (200, 1); (300, 1); (400, 1); (500, 1); (600, 1);
          (700, 1); (800, 1); (900, 1); (1000, 1)].
Proof.
  eexists. eexists. split; [vm_compute; reflexivity|].
  split; [vm_compute; reflexivity|]. split; vm_compute; reflexivity.
Qed.

(** ** The values of the indexes, in order *)

Section Order.
Variable h : Histogram.
Hypothesis Hok : layout_ok h.

Let hm := h.(subBucketHalfCountMagnitude).
Let um := h.(unitMagnitude).
Let B := h.(bucketCount).

(** The bucket an index belongs to. *)
Let bucketOf (i : Z) : Z := Z.max (i / 2 ^ hm - 1) 0.

(** The indexes of a value that is a sub-bucket index shifted into its
    bucket, whatever its size. *)
Lemma indexes_of_scaled (b s : Z) :
  0 <= b -> hm + um + b <= 63 ->
  0 <= s < 2 ^ (hm + 1) -> (b = 0 \/ 2 ^ hm <= s) ->
  getBucketIndex h (s * 2 ^ (b + um)) = b
  /\ getSubBucketIndex h (s * 2 ^ (b + um)) b = s.
Proof.
  intros Hb Htop Hs Hcanon.
  pose proof (layout_bounds h Hok) as (Hhm & Hum & HB & _ & Hfit).
  fold hm um in Hhm, Hum, Hfit.
  assert (H2k : 0 < 2 ^ (b + um)) by (apply pow2_pos; lia).
  assert (H2hm : 0 < 2 ^ hm) by (apply pow2_pos; lia).
  assert (Hs18 : 2 ^ (hm + 1) <= 2 ^ 18) by (apply pow2_le; lia).
  change (2 ^ 18) with 262144 in Hs18.
  split.
  - destruct (Z.eq_dec s 0) as [->|Hs0].
    + destruct Hcanon as [->|]; [reflexivity|lia].
    + assert (Hlim : s * 2 ^ (b + um) < 2 ^ 64).
      { assert (2 ^ (hm + 1) * 2 ^ (b + um) <= 2 ^ 64).
        { rewrite <- Z.pow_add_r by lia. apply pow2_le. lia. }
        nia. }
      rewrite (bucketIndex_of_scaled h)
        by (try assumption; change (2 ^ 48) with 281474976710656; lia).
      fold hm um.
      destruct Hcanon as [->|Hhalf].
      * assert (Z.log2 s < hm + 1) by (apply Z.log2_lt_pow2; lia).
        rewrite Z.max_r by lia. reflexivity.
      * assert (Hlog : Z.log2 s = hm).
        { apply Z.log2_unique; [lia|]. rewrite <- Z.add_1_r. lia. }
        rewrite Hlog, Z.max_l by lia.
        replace (hm + (b + um) - hm - um) with b by lia.
        apply i32_small. change (2 ^ 31) with 2147483648. lia.
  - unfold getSubBucketIndex. fold um. rewrite shr64_spec by lia.
    rewrite Z.div_mul by lia.
    apply i32_small. change (2 ^ 31) with 2147483648. lia.
Qed.

Lemma equivalents_of_scaled (b s : Z) :
  0 <= b -> hm + um + b <= 63 ->
  0 <= s < 2 ^ (hm + 1) -> (b = 0 \/ 2 ^ hm <= s) ->
  lowestEquivalentValue h (s * 2 ^ (b + um)) = s * 2 ^ (b + um)
  /\ highestEquivalentValue h (s * 2 ^ (b + um)) = (s + 1) * 2 ^ (b + um) - 1
  /\ (s + 1) * 2 ^ (b + um) <= 2 ^ 64.
Proof.
  intros Hb Htop Hs Hcanon.
  pose proof (layout_bounds h Hok) as (Hhm & Hum & HB & _ & Hfit).
  fold hm um in Hhm, Hum, Hfit.
  destruct (indexes_of_scaled b s Hb Htop Hs Hcanon) as [Hbi Hsi].
  assert (H2k : 0 < 2 ^ (b + um)) by (apply pow2_pos; lia).
  assert (Hlim : 2 ^ (hm + 1) * 2 ^ (b + um) <= 2 ^ 64).
  { rewrite <- Z.pow_add_r by lia. apply pow2_le. lia. }
  assert (Hfull : (s + 1) * 2 ^ (b + um) <= 2 ^ 64) by nia.
  assert (Hlow : valueFromIndexes h b s = s * 2 ^ (b + um)).
  { unfold valueFromIndexes. fold um.
    assert (2 ^ (hm + 1) <= 2 ^ 18) by (apply pow2_le; lia).
    rewrite (u64_small s) by (change (2 ^ 64) with 18446744073709551616;
                               change (2 ^ 18) with 262144 in *; lia).
    rewrite shl64_spec by lia. apply u64_small. nia. }
  assert (Hsize : sizeOfEquivalentValueRange h (s * 2 ^ (b + um)) = 2 ^ (b + um)).
  { unfold sizeOfEquivalentValueRange. rewrite Hbi. fold um.
    rewrite shl64_spec by lia. rewrite Z.mul_1_l.
    replace (um + b) with (b + um) by lia.
    apply u64_small. split; [lia|]. apply pow2_lt. lia. }
  split; [|split; [|exact Hfull]].
  - unfold lowestEquivalentValue. rewrite Hbi, Hsi. exact Hlow.
  - unfold highestEquivalentValue, nextNonEquivalentValue.
    unfold lowestEquivalentValue at 1. rewrite Hbi, Hsi, Hlow, Hsize.
    unfold u64, wrapU.
    replace (s * 2 ^ (b + um) + 2 ^ (b + um)) with ((s + 1) * 2 ^ (b + um)) by lia.
    destruct (Z.eq_dec ((s + 1) * 2 ^ (b + um)) (2 ^ 64)) as [->|Hne].
    + reflexivity.
    + rewrite (Z.mod_small ((s + 1) * 2 ^ (b + um))) by nia.
      apply Z.mod_small. nia.
Qed.

(** The value of an index, its bucket, and the values it is equivalent to:
    the range starts at the value and ends before the value of the next
    index. *)
Lemma value_of_index (i : Z) :
  0 <= i < h.(countsArrayLength) ->
  exists s,
    0 <= s < 2 ^ (hm + 1) /\ (bucketOf i = 0 \/ 2 ^ hm <= s)
    /\ hm + um + bucketOf i <= 63
    /\ i = (bucketOf i + 1) * 2 ^ hm + (s - 2 ^ hm)
    /\ valueFromIndex h i = s * 2 ^ (bucketOf i + um).
Proof.
  intros Hi. pose proof (layout_bounds h Hok) as (Hhm & Hum & HB & Htop & Hfit).
  fold hm um B in Hhm, Hum, HB, Htop, Hfit.
  rewrite (lo_len h Hok) in Hi. fold hm B in Hi.
  assert (HP : 0 < 2 ^ hm) by (apply pow2_pos; lia).
  assert (Hpm : 2 ^ (hm + 1) = 2 * 2 ^ hm).
  { rewrite Z.pow_add_r by lia. change (2 ^ 1) with 2. lia. }
  unfold bucketOf.
  destruct (Z.lt_ge_cases i (2 ^ hm)) as [Hlow|Hup].
  - exists i. rewrite Z.div_small by lia. rewrite Z.max_r by lia.
    rewrite (valueFromIndex_lower h Hok) by (fold hm; lia).
    fold um. rewrite Z.add_0_l. repeat split; lia.
  - destruct (valueFromIndex_upper h Hok i) as [Hv Hk]; [fold hm B; lia|].
    fold hm um B in Hv, Hk.
    pose proof (Z.mod_pos_bound i (2 ^ hm) HP) as Hr.
    pose proof (Z.div_mod i (2 ^ hm) ltac:(lia)) as Hdm.
    exists (i mod 2 ^ hm + 2 ^ hm). rewrite Z.max_l by lia.
    rewrite Hv. repeat split; try lia.
Qed.


End Order.

(** ** Monotone percentiles on a consistent state *)

(** Without wrap-around the running total is a plain sum. *)
Lemma fold_total_plain (l : list Z) :
  forall acc : Z,
    0 <= acc -> Forall (fun c => 0 <= c) l -> acc + foldr Z.add 0 l < 2 ^ 64 ->
    fold_left (fun total c => u64 (total + u64 c)) l acc = acc + foldr Z.add 0 l.
Proof.
  induction l as [|c l IH]; intros acc Hacc Hl Hsum; cbn [fold_left foldr].
  - lia.
  - apply Forall_cons in Hl as [Hc Hl]. cbn [foldr] in Hsum.
    assert (0 <= foldr Z.add 0 l).
    { clear -Hl. induction Hl; cbn; lia. }
    rewrite (u64_small c), (u64_small (acc + c)) by lia.
    rewrite IH; lia || assumption.
Qed.

Lemma sum_nonneg (l : list Z) :
  Forall (fun c => 0 <= c) l -> 0 <= foldr Z.add 0 l.
Proof. induction 1; cbn; lia. Qed.

Lemma sum_take_le (l : list Z) (n : nat) :
  Forall (fun c => 0 <= c) l ->
  0 <= foldr Z.add 0 (take n l) <= foldr Z.add 0 l.
Proof.
  intros Hl. rewrite <- (take_drop n l) at 3. rewrite sum_app.
  assert (0 <= foldr Z.add 0 (take n l))
    by (apply sum_nonneg, Forall_take; exact Hl).
  assert (0 <= foldr Z.add 0 (drop n l))
    by (apply sum_nonneg, Forall_drop; exact Hl).
  lia.
Qed.

Lemma totalToIndex_plain (h : Histogram) (i : Z) :
  Forall (fun c => 0 <= c) h.(counts) -> sumOfCounts h < 2 ^ 64 ->
  totalToIndex h i = foldr Z.add 0 (take (Z.to_nat (i + 1)) h.(counts)).
Proof.
  intros Hc Hsum. unfold totalToIndex.
  rewrite fold_total_plain; [lia|lia|apply Forall_take; exact Hc|].
  pose proof (sum_take_le h.(counts) (Z.to_nat (i + 1)) Hc).
  unfold sumOfCounts in Hsum. lia.
Qed.

Lemma totalToIndex_mono (h : Histogram) (i j : Z) :
  Forall (fun c => 0 <= c) h.(counts) -> sumOfCounts h < 2 ^ 64 ->
  i <= j -> totalToIndex h i <= totalToIndex h j.
Proof.
  intros Hc Hsum Hij. rewrite !totalToIndex_plain by assumption.
  replace (take (Z.to_nat (i + 1)) (counts h))
    with (take (Z.to_nat (i + 1)) (take (Z.to_nat (j + 1)) (counts h)))
    by (rewrite take_take; f_equal; lia).
  apply sum_take_le. apply Forall_take. exact Hc.
Qed.

(** Among the indexes below [n], the first that satisfies a decidable
    property. *)
Lemma first_index (P : Z -> bool) (n : nat) :
  (exists i, 0 <= i < Z.of_nat n /\ P i = true) ->
  exists k, 0 <= k < Z.of_nat n /\ P k = true
            /\ forall j, 0 <= j < k -> P j = false.
Proof.
  induction n as [|n IH]; intros (i & Hi & HP); [lia|].
  destruct (Z.eq_dec i (Z.of_nat n)) as [->|Hne].
  - (* the last index satisfies it: an earlier one may too *)
    assert (Hdec : (exists i', 0 <= i' < Z.of_nat n /\ P i' = true)
                   \/ forall j, 0 <= j < Z.of_nat n -> P j = false).
    { clear. induction n as [|n IHn]; [right; intros; lia|].
      destruct IHn as [(i' & Hi' & HP')|Hnone].
      - left. exists i'. split; [lia|exact HP'].
      - destruct (P (Z.of_nat n)) eqn:HPn.
        + left. exists (Z.of_nat n). split; [lia|exact HPn].
        + right. intros j Hj.
          destruct (Z.eq_dec j (Z.of_nat n)) as [->|]; [exact HPn|].
          apply Hnone. lia. }
    destruct Hdec as [Hex|Hnone].
    + destruct (IH Hex) as (k & Hk & HPk & Hfirst).
      exists k. repeat split; try lia; assumption.
    + exists (Z.of_nat n). repeat split; try lia; assumption.
  - assert (Hex : exists i', 0 <= i' < Z.of_nat n /\ P i' = true).
    { exists i. split; [lia|exact HP]. }
    destruct (IH Hex) as (k & Hk & HPk & Hfirst).
    exists k. repeat split; try lia; assumption.
Qed.


(** ** Witnesses on concrete histograms *)

(** The histogram of one significant digit less than one, built for values
    up to 1000, after the one record of the value 5. *)
Lemma layout_ok_example :
  layout_ok (mkHistogram false 1 1000 0 10 2 11 0 0 52 0 0 1 1 0 5 5 32
               [0; 0; 0; 1; 0; 0; 0; 0; 0; 0; 0] 1).
Proof.
  split; [split|..]; cbn; try reflexivity; lia.
Qed.

(** Equivalence closure below [2^48], where the conversion to a double is
    exact and the logarithm of no value rounds up to the next integer: on a
    well-formed layout, two values below [2^48] of which the second lies
    between the lowest and the highest equivalent of the first have one
    index, and the value of that index, when it is inside the counts array,
    is the lowest equivalent value. *)
Theorem equivalent_values_below_2_48 (h : Histogram) (v u : Z) :
  layout_ok h ->
  0 <= v < 2 ^ 48 -> 0 <= u < 2 ^ 48 ->
  lowestEquivalentValue h v <= u <= highestEquivalentValue h v ->
  countsArrayIndex h u = countsArrayIndex h v
  /\ forall i, countsArrayIndex h v = Ok i -> i < h.(countsArrayLength) ->
       valueFromIndex h i = lowestEquivalentValue h v.
Proof.
  intros Hok Hv Hu Hrange. split.
  - apply equivalent_values_share_index_layout; assumption.
  - intros i Hi Hin. apply (value_round_trip_layout h Hok v i); assumption.
Qed.

Lemma equivalent_values_below_2_48_witness :
  countsArrayIndex
    (mkHistogram false 1 1000 0 10 2 11 0 0 52 0 0 1 1 0 5 5 32
       [0; 0; 0; 1; 0; 0; 0; 0; 0; 0; 0] 1) 6
  = countsArrayIndex
      (mkHistogram false 1 1000 0 10 2 11 0 0 52 0 0 1 1 0 5 5 32
         [0; 0; 0; 1; 0; 0; 0; 0; 0; 0; 0] 1) 5.
Proof.
  apply (equivalent_values_below_2_48 _ 5 6).
  - exact layout_ok_example.
  - vm_compute. split; [discriminate|reflexivity].
  - vm_compute. split; [discriminate|reflexivity].
  - vm_compute. split; discriminate.
Defined.


(** The constructor on a valid configuration: it returns the fresh
    histogram when bucket 0 fits in a [u64], and otherwise never returns,
    [smallestUntrackableValue] being zero from the start. *)
Theorem new_Histogram_spec (W : Z) (ar : bool) (s0 e0 lowest highest digits : Z) :
  1 <= lowest -> 2 * lowest <= highest -> highest <= U64_MAX_VALUE ->
  0 <= digits <= 5 ->
  exists um m,
    floor_log2 (f64_of_u64 lowest) = Some um /\ 0 <= um <= 63
    /\ ceil_log2 (f64_of_u64 (u64 (2 * u64 (10 ^ digits)))) = m /\ 1 <= m <= 18
    /\ if m + um <=? 63 then
         exists n,
           1 <= n /\ (m - 1) + um + n <= 64
           /\ new_Histogram W ar s0 e0 lowest highest digits
              = Ok (mkHistogram ar lowest highest digits n (2 ^ m)
                      ((n + 1) * 2 ^ (m - 1)) s0 e0
                      (i32 (53 - um - (m - 1) - 1)) (m - 1) um (2 ^ (m - 1))
                      (shl64 (u64 (u64 (2 ^ m) - 1)) um) (2 ^ um - 1) 0
                      U64_MAX_VALUE W
                      (instantiate ((n + 1) * 2 ^ (m - 1))) 0)
       else new_Histogram W ar s0 e0 lowest highest digits = Err Diverges.
Proof.
  intros HL HH Hmax Hd.
  exact (new_Histogram_cases W ar s0 e0 lowest highest digits HL HH Hmax Hd).
Qed.

Lemma new_Histogram_spec_witness :
  exists h, new_Histogram 32 false 0 0 1 1000 0 = Ok h /\ h.(bucketCount) = 10.
Proof.
  destruct (new_Histogram_spec 32 false 0 0 1 1000 0)
    as (um & m & Hum & _ & Hm & _ & Hres).
  - lia.
  - lia.
  - vm_compute. discriminate.
  - lia.
  - vm_compute in Hum. injection Hum as <-. vm_compute in Hm. subst m.
    change (1 + 0 <=? 63) with true in Hres. cbv iota in Hres.
    destruct Hres as (n & _ & _ & Hnew).
    eexists. split; [exact Hnew|].
    assert (Hrun : new_Histogram 32 false 0 0 1 1000 0
                   = Ok (mkHistogram false 1 1000 0 10 2 11 0 0 52 0 0 1 1 0 0
                           U64_MAX_VALUE 32 (replicate 11 0) 0))
      by (vm_compute; reflexivity).
    rewrite Hrun in Hnew. injection Hnew as Hn _. cbn. lia.
Defined.

(** A configuration the constructor never returns on: with
    [lowestDiscernibleValue = 2^62] and three digits, bucket 0 would end at
    [2^73], and the sizing loop starts on zero. *)
Lemma constructor_diverges_example :
  new_Histogram 32 false 0 0 (2 ^ 62) (2 ^ 63) 3 = Err Diverges.
Proof. vm_compute. reflexivity. Qed.

(** The unit magnitude follows the rounding of [Math.log2]: with
    [lowestDiscernibleValue = 2^52 - 1] it is 52 and not 51, so that one
    bucket is enough for [2^62]; with [2^53 - 1] it is 53, bucket 0 would
    end at [2^64], and the constructor never returns. *)
Lemma constructor_rounds_unitMagnitude_up :
  (exists h,
     new_Histogram 32 false 0 0 (2 ^ 52 - 1) (2 ^ 62) 3 = Ok h
     /\ h.(unitMagnitude) = 52 /\ h.(bucketCount) = 1
     /\ h.(countsArrayLength) = 2048)
  /\ new_Histogram 32 false 0 0 (2 ^ 53 - 1) (2 ^ 62) 3 = Err Diverges.
Proof.
  split; [|vm_compute; reflexivity].
  apply result_holds. vm_compute. repeat split; reflexivity.
Qed.

(** ** Well-formedness is an invariant *)

Lemma keeps_ret {A : Type} (P : Histogram -> Prop) (a : A) (h : Histogram) :
  P h -> keeps P (ret a) h.
Proof. intros HP a' h' [= _ <-]. exact HP. Qed.

Lemma keeps_throw {A : Type} (P : Histogram -> Prop) (e : Failure) (h : Histogram) :
  keeps P (@throw A e) h.
Proof. intros a h' Hrun. discriminate. Qed.

Lemma keeps_liftR {A : Type} (P : Histogram -> Prop) (r : Histogram -> Result A)
  (h : Histogram) :
  P h -> keeps P (liftR r) h.
Proof.
  intros HP a h' Hrun. unfold liftR in Hrun. destruct (r h); [|discriminate].
  injection Hrun as _ <-. exact HP.
Qed.

Lemma keeps_modify (P : Histogram -> Prop) (f : Histogram -> Histogram)
  (h : Histogram) :
  P (f h) -> keeps P (modify f) h.
Proof. intros HP a h' [= _ <-]. exact HP. Qed.

Lemma keeps_bind {A B : Type} (P Q : Histogram -> Prop) (m : M A) (k : A -> M B)
  (h : Histogram) :
  keeps Q m h ->
  (forall a h1, Q h1 -> keeps P (k a) h1) ->
  keeps P (bind m k) h.
Proof.
  intros Hm Hk b h' Hrun. unfold bind in Hrun. unfold keeps in Hm.
  destruct (m h) as [a h1|e h1]; [|discriminate].
  exact (Hk a h1 (Hm a h1 eq_refl) b h' Hrun).
Qed.

Lemma keeps_get_bind {B : Type} (P : Histogram -> Prop) (k : Histogram -> M B)
  (h : Histogram) :
  keeps P (k h) h -> keeps P (bind get k) h.
Proof. intros Hk b h' Hrun. apply (Hk b h'). exact Hrun. Qed.

(** The sizing fields apart, a well-formed histogram stays one when its
    counts array is replaced by one of the same length with counters in
    range. *)
Lemma well_formed_set_counts (h : Histogram) (l : list Z) :
  well_formed h -> length l = length h.(counts) ->
  Forall (fun c => 0 <= c < 2 ^ h.(counterBits)) l ->
  well_formed (set_counts l h).
Proof.
  intros [[[] ? ? ?] ? Hlen ?] Hl Hr.
  split; [split; [split|..]|..]; cbn; try assumption. congruence.
Qed.

Lemma layout_ok_set_counts (h : Histogram) (l : list Z) :
  layout_ok h -> layout_ok (set_counts l h).
Proof.
  intros [[] ? ? ?]. split; [split|..]; cbn; assumption.
Qed.

Lemma well_formed_array_set (h : Histogram) (index x : Z) :
  well_formed h -> 0 <= x < 2 ^ h.(counterBits) ->
  well_formed (set_counts (array_set h.(counts) index x) h).
Proof.
  intros Hwf Hx. apply well_formed_set_counts; [exact Hwf|..].
  - unfold array_set. apply length_insert.
  - unfold array_set. apply Forall_insert; [apply (wf_range h Hwf)|exact Hx].
Qed.

Lemma keeps_incrementCountAtIndex (index : Z) (h : Histogram) :
  well_formed h -> keeps well_formed (incrementCountAtIndex index) h.
Proof.
  intros Hwf. unfold incrementCountAtIndex. apply keeps_get_bind.
  destruct (array_get _ _); [|apply keeps_throw].
  destruct (_ <? 0); [apply keeps_throw|]. apply keeps_modify.
  apply well_formed_array_set; [exact Hwf|].
  apply wrapU_range. apply (wf_width h Hwf).
Qed.

Lemma keeps_addToCountAtIndex (index value : Z) (h : Histogram) :
  well_formed h -> keeps well_formed (addToCountAtIndex index value) h.
Proof.
  intros Hwf. unfold addToCountAtIndex. apply keeps_get_bind.
  destruct (array_get _ _); [|apply keeps_throw].
  destruct (_ <? 0); [apply keeps_throw|]. apply keeps_modify.
  apply well_formed_array_set; [exact Hwf|].
  apply wrapU_range. apply (wf_width h Hwf).
Qed.

Lemma well_formed_other_fields (h : Histogram) (f : Histogram -> Histogram) :
  well_formed h ->
  (f h).(subBucketHalfCountMagnitude) = h.(subBucketHalfCountMagnitude) ->
  (f h).(unitMagnitude) = h.(unitMagnitude) ->
  (f h).(subBucketHalfCount) = h.(subBucketHalfCount) ->
  (f h).(subBucketCount) = h.(subBucketCount) ->
  (f h).(unitMagnitudeMask) = h.(unitMagnitudeMask) ->
  (f h).(bucketCount) = h.(bucketCount) ->
  (f h).(countsArrayLength) = h.(countsArrayLength) ->
  (f h).(counterBits) = h.(counterBits) ->
  (f h).(counts) = h.(counts) ->
  well_formed (f h).
Proof.
  intros [[[] ? ? ?] ? ? ?] E1 E2 E3 E4 E5 E6 E7 E8 E9.
  split; [split; [split|..]|..]; rewrite ?E1, ?E2, ?E3, ?E4, ?E5, ?E6, ?E7, ?E8, ?E9;
    assumption.
Qed.

Lemma keeps_updateMinAndMax (value : Z) (h : Histogram) :
  well_formed h -> keeps well_formed (updateMinAndMax value) h.
Proof.
  intros Hwf. unfold updateMinAndMax, updatedMaxValue, updateMinNonZeroValue.
  apply keeps_get_bind.
  apply (keeps_bind _ well_formed).
  - destruct (_ <? _); [|apply keeps_ret; exact Hwf].
    apply keeps_get_bind. apply keeps_modify.
    apply (well_formed_other_fields h _ Hwf); reflexivity.
  - intros _ h1 Hwf1. apply keeps_get_bind.
    destruct (_ && _); [|apply keeps_ret; exact Hwf1].
    apply keeps_get_bind. destruct (_ <=? _); [apply keeps_ret; exact Hwf1|].
    apply keeps_modify. apply (well_formed_other_fields h1 _ Hwf1); reflexivity.
Qed.

(** [resize] on a well-formed histogram: when it returns, the layout is the
    new one and the counts array has grown to its length. *)
Lemma keeps_resize (v : Z) (h : Histogram) :
  well_formed h -> keeps well_formed (resize v) h.
Proof.
  intros Hwf a h' Hrun. unfold resize, bind in Hrun.
  destruct (establishSize v h) as [[] h1|] eqn:Hes; [|discriminate].
  pose proof (lo_base h (wf_layout h Hwf)) as Hbase.
  destruct (Z.le_gt_cases (u64 (2 * h.(lowestDiscernibleValue))) v) as [Hv|Hv].
  - destruct (establishSize_spec h v Hbase Hv) as (n & _ & Hn1 & Hn2 & Hes').
    rewrite Hes' in Hes. injection Hes as <-.
    unfold get in Hrun. cbn [counts set_highestTrackableValue set_bucketCount
                             set_countsArrayLength countsArrayLength] in Hrun.
    destruct (typed_array_set _ _) as [newCounts|] eqn:Hset; [|discriminate].
    injection Hrun as _ <-.
    unfold typed_array_set, instantiate in Hset.
    rewrite length_replicate in Hset.
    destruct (Nat.leb_spec (length (counts h))
                (Z.to_nat ((n + 1) * 2 ^ subBucketHalfCountMagnitude h)));
      [|discriminate].
    injection Hset as <-.
    assert (HP : 0 < 2 ^ subBucketHalfCountMagnitude h).
    { apply pow2_pos. apply (lo_hm h Hbase). }
    split.
    + apply layout_ok_set_counts.
      apply (establishSize_layout_ok h n v Hbase Hn1 Hn2).
    + apply (wf_width h Hwf).
    + cbn. rewrite length_app, length_drop, length_replicate. nia.
    + cbn. apply Forall_app. split; [apply (wf_range h Hwf)|].
      apply Forall_drop, Forall_replicate.
      pose proof (wf_width h Hwf). pose proof (pow2_pos (counterBits h)). lia.
  - exfalso. unfold establishSize, bind, liftR, determineArrayLengthNeeded in Hes.
    destruct (Z.ltb_spec v (u64 (2 * lowestDiscernibleValue h))); [|lia].
    discriminate.
Qed.

Lemma keeps_handleRecordException (count value : Z) (h : Histogram) :
  well_formed h -> keeps well_formed (handleRecordException count value) h.
Proof.
  intros Hwf. unfold handleRecordException. apply keeps_get_bind.
  destruct (negb _); [apply keeps_throw|].
  apply (keeps_bind _ well_formed); [apply keeps_resize; exact Hwf|].
  intros _ h1 Hwf1.
  apply (keeps_bind _ well_formed); [apply keeps_liftR; exact Hwf1|].
  intros idx h2 Hwf2.
  apply (keeps_bind _ well_formed); [apply keeps_addToCountAtIndex; exact Hwf2|].
  intros _ h3 Hwf3. apply keeps_modify.
  apply (well_formed_other_fields h3 _ Hwf3); reflexivity.
Qed.

Lemma keeps_recordSingleValue (value : Z) (h : Histogram) :
  well_formed h -> keeps well_formed (recordSingleValue value) h.
Proof.
  intros Hwf. unfold recordSingleValue.
  apply (keeps_bind _ well_formed); [apply keeps_liftR; exact Hwf|].
  intros idx h1 Hwf1. apply keeps_get_bind.
  apply (keeps_bind _ well_formed).
  { destruct (_ <=? _).
    - apply keeps_handleRecordException. exact Hwf1.
    - apply keeps_incrementCountAtIndex. exact Hwf1. }
  intros _ h2 Hwf2.
  apply (keeps_bind _ well_formed); [apply keeps_updateMinAndMax; exact Hwf2|].
  intros _ h3 Hwf3. apply keeps_modify.
  apply (well_formed_other_fields h3 _ Hwf3); reflexivity.
Qed.

Lemma keeps_recordCountAtValue (count value : Z) (h : Histogram) :
  well_formed h -> keeps well_formed (recordCountAtValue count value) h.
Proof.
  intros Hwf. unfold recordCountAtValue.
  apply (keeps_bind _ well_formed); [apply keeps_liftR; exact Hwf|].
  intros idx h1 Hwf1. apply keeps_get_bind.
  apply (keeps_bind _ well_formed).
  { destruct (_ <=? _).
    - apply keeps_handleRecordException. exact Hwf1.
    - apply keeps_addToCountAtIndex. exact Hwf1. }
  intros _ h2 Hwf2.
  apply (keeps_bind _ well_formed); [apply keeps_updateMinAndMax; exact Hwf2|].
  intros _ h3 Hwf3. apply keeps_modify.
  apply (well_formed_other_fields h3 _ Hwf3); reflexivity.
Qed.

Lemma keeps_reset (h : Histogram) : well_formed h -> keeps well_formed reset h.
Proof.
  intros Hwf a h' [= _ <-].
  destruct Hwf as [[[] ? ? ?] HW Hlen ?].
  split; [split; [split|..]|..]; cbn; try assumption.
  - rewrite length_replicate. exact Hlen.
  - apply Forall_replicate. pose proof (pow2_pos (counterBits h)). lia.
Qed.

Lemma keeps_addCountsLoop (other : Histogram) (n : nat) :
  forall (i observed : Z) (h : Histogram),
    well_formed h -> keeps well_formed (addCountsLoop other n i observed) h.
Proof.
  induction n as [|n IH]; intros i observed h Hwf; cbn [addCountsLoop].
  - apply keeps_ret. exact Hwf.
  - apply (keeps_bind _ well_formed); [apply keeps_liftR; exact Hwf|].
    intros c h1 Hwf1. destruct (0 <? c); [|apply IH; exact Hwf1].
    apply (keeps_bind _ well_formed); [apply keeps_addToCountAtIndex; exact Hwf1|].
    intros _ h2 Hwf2. apply IH. exact Hwf2.
Qed.

Lemma keeps_recordCountsLoop (other : Histogram) (n : nat) :
  forall (i : Z) (h : Histogram),
    well_formed h -> keeps well_formed (recordCountsLoop other n i) h.
Proof.
  induction n as [|n IH]; intros i h Hwf; cbn [recordCountsLoop].
  - apply keeps_ret. exact Hwf.
  - apply (keeps_bind _ well_formed); [apply keeps_liftR; exact Hwf|].
    intros c h1 Hwf1.
    apply (keeps_bind _ well_formed).
    { destruct (0 <? c); [|apply keeps_ret; exact Hwf1].
      apply keeps_recordCountAtValue. exact Hwf1. }
    intros _ h2 Hwf2. apply IH. exact Hwf2.
Qed.

Lemma keeps_add (other : Histogram) (h : Histogram) :
  well_formed h -> keeps well_formed (add other) h.
Proof.
  intros Hwf. unfold add. apply keeps_get_bind.
  apply (keeps_bind _ well_formed).
  { destruct (_ <? _); [|apply keeps_ret; exact Hwf].
    destruct (negb _); [apply keeps_throw|apply keeps_resize; exact Hwf]. }
  intros _ h1 Hwf1. apply keeps_get_bind.
  apply (keeps_bind _ well_formed).
  - destruct (_ && _).
    + apply (keeps_bind _ well_formed); [apply keeps_addCountsLoop; exact Hwf1|].
      intros observed h2 Hwf2.
      apply (keeps_bind _ well_formed).
      { apply keeps_modify. apply (well_formed_other_fields h2 _ Hwf2); reflexivity. }
      intros _ h3 Hwf3. apply keeps_get_bind.
      apply (keeps_bind _ well_formed).
      { unfold updatedMaxValue. apply keeps_get_bind. apply keeps_modify.
        apply (well_formed_other_fields h3 _ Hwf3); reflexivity. }
      intros _ h4 Hwf4. apply keeps_get_bind.
      unfold updateMinNonZeroValue. apply keeps_get_bind.
      destruct (_ <=? _); [apply keeps_ret; exact Hwf4|].
      apply keeps_modify. apply (well_formed_other_fields h4 _ Hwf4); reflexivity.
    + apply (keeps_bind _ well_formed); [apply keeps_liftR; exact Hwf1|].
      intros idx h2 Hwf2.
      apply (keeps_bind _ well_formed); [apply keeps_liftR; exact Hwf2|].
      intros c h3 Hwf3.
      apply (keeps_bind _ well_formed); [apply keeps_recordCountAtValue; exact Hwf3|].
      intros _ h4 Hwf4. apply keeps_recordCountsLoop. exact Hwf4.
  - intros _ h2 Hwf2. apply keeps_modify.
    apply (well_formed_other_fields h2 _ Hwf2); reflexivity.
Qed.

Lemma keeps_perform (op : Operation) (h : Histogram) :
  well_formed h -> keeps well_formed (perform op) h.
Proof.
  intros Hwf. destruct op as [v|c v|other|]; cbn [perform].
  - apply keeps_recordSingleValue. exact Hwf.
  - apply keeps_recordCountAtValue. exact Hwf.
  - apply keeps_add. exact Hwf.
  - apply keeps_reset. exact Hwf.
Qed.

Lemma keeps_performAll (ops : list Operation) :
  forall h, well_formed h -> keeps well_formed (performAll ops) h.
Proof.
  induction ops as [|op ops IH]; intros h Hwf; cbn [performAll].
  - apply keeps_ret. exact Hwf.
  - apply (keeps_bind _ well_formed); [apply keeps_perform; exact Hwf|].
    intros _ h1 Hwf1. apply IH. exact Hwf1.
Qed.

(** The constructor returns a well-formed histogram, for a counter width of
    at most 64 bits. *)
Lemma new_Histogram_well_formed (W : Z) (ar : bool) (s0 e0 lowest highest digits : Z)
  (h : Histogram) :
  0 <= W <= 64 ->
  1 <= lowest -> 2 * lowest <= highest -> highest <= U64_MAX_VALUE ->
  0 <= digits <= 5 ->
  new_Histogram W ar s0 e0 lowest highest digits = Ok h ->
  well_formed h.
Proof.
  intros HW HL HH Hmax Hd Hnew.
  destruct (new_Histogram_fresh W ar s0 e0 lowest highest digits h HL HH Hmax Hd Hnew)
    as (Hok & _ & HWh & Hcounts & _).
  pose proof (layout_bounds h Hok) as (Hhm & _ & HB & _).
  assert (0 < 2 ^ subBucketHalfCountMagnitude h) by (apply pow2_pos; lia).
  split.
  - exact Hok.
  - rewrite HWh. exact HW.
  - rewrite Hcounts. unfold instantiate. rewrite length_replicate.
    rewrite (lo_len h Hok). nia.
  - rewrite Hcounts. unfold instantiate. apply Forall_replicate.
    rewrite HWh. pose proof (pow2_pos W). lia.
Qed.

(** ** Every histogram the code can reach *)

(** A histogram built from a valid configuration and taken through any
    sequence of [recordValue], [recordCountAtValue], [add] and [reset]
    calls that all returned, auto-resizing included, is well formed; its
    [totalCount] and the sum of its counters agree modulo the counter
    width; and every index of its counts array is the index of the value
    it stands for. *)
Theorem reachable_histogram_invariants (W : Z) (ar : bool)
  (s0 e0 lowest highest digits : Z) (ops : list Operation) (h h' : Histogram) :
  0 <= W <= 64 ->
  1 <= lowest -> 2 * lowest <= highest -> highest <= U64_MAX_VALUE ->
  0 <= digits <= 5 ->
  new_Histogram W ar s0 e0 lowest highest digits = Ok h ->
  performAll ops h = Return tt h' ->
  well_formed h'
  /\ conserved_modulo_width h'
  /\ forall i, 0 <= i < h'.(countsArrayLength) ->
       countsArrayIndex h' (valueFromIndex h' i) = Ok i.
Proof.
  intros HW HL HH Hmax Hd Hnew Hrun.
  pose proof (new_Histogram_well_formed W ar s0 e0 lowest highest digits h
                HW HL HH Hmax Hd Hnew) as Hwf.
  pose proof (keeps_performAll ops h Hwf tt h' Hrun) as Hwf'.
  destruct (new_Histogram_fresh W ar s0 e0 lowest highest digits h HL HH Hmax Hd Hnew)
    as (_ & _ & HWh & Hcounts & Htot & _).
  assert (Hc : conserved_modulo_width h).
  { split; [rewrite HWh; exact HW|]. unfold defect, sumOfCounts.
    rewrite Htot, Hcounts. unfold instantiate. rewrite sum_replicate_0.
    apply Z.divide_0_r. }
  split; [exact Hwf'|]. split.
  - exact (performAll_conserved ops h h' Hc Hrun).
  - intros i Hi. apply index_round_trip_layout; [apply (wf_layout h' Hwf')|exact Hi].
Qed.

Lemma reachable_histogram_invariants_witness :
  exists h h',
    new_Histogram 8 true 0 0 1 2 0 = Ok h
    /\ performAll [RecordValue 5; RecordCountAtValue 300 70; Reset; RecordValue 9] h
       = Return tt h'
    /\ well_formed h'.
Proof.
  eexists. eexists. split; [vm_compute; reflexivity|].
  split; [vm_compute; reflexivity|].
  eapply (reachable_histogram_invariants 8 true 0 0 1 2 0
            [RecordValue 5; RecordCountAtValue 300 70; Reset; RecordValue 9]).
  - lia.
  - lia.
  - lia.
  - vm_compute. discriminate.
  - lia.
  - vm_compute. reflexivity.
  - vm_compute. reflexivity.
Defined.

(** No input makes a counter update throw its overflow error: the update
    returns, and the counter holds the sum wrapped to its width. *)
Theorem counter_updates_never_throw (h : Histogram) (index c value : Z) :
  0 <= h.(counterBits) ->
  array_get h.(counts) index = Some c ->
  incrementCountAtIndex index h
  = Return tt (set_counts (array_set h.(counts) index
                             (wrapU h.(counterBits) (c + 1))) h)
  /\ addToCountAtIndex index value h
     = Return tt (set_counts (array_set h.(counts) index
                                (wrapU h.(counterBits) (u64 (c + value)))) h).
Proof.
  intros HW Hget. split.
  - apply incrementCountAtIndex_wraps; assumption.
  - apply addToCountAtIndex_wraps; assumption.
Qed.

Lemma counter_updates_never_throw_witness :
  returned
    (incrementCountAtIndex 1
       (mkHistogram false 1 2 0 2 2 3 0 0 52 0 0 1 1 0 0 U64_MAX_VALUE 8
          [0; 255; 0] 255)) = true.
Proof.
  destruct (counter_updates_never_throw
              (mkHistogram false 1 2 0 2 2 3 0 0 52 0 0 1 1 0 0 U64_MAX_VALUE 8
                 [0; 255; 0] 255) 1 255 0) as [Hinc _].
  - vm_compute. discriminate.
  - reflexivity.
  - rewrite Hinc. reflexivity.
Defined.

(** ** Sizing is tight *)

(** The loop stops on the first power of two above [value], or on [2^64]:
    the buckets it returns cover [value], and one bucket fewer would not. *)
Lemma bucketsNeededLoop_tight (fuel : nat) :
  forall value a n r : Z,
    0 <= a <= 63 -> 64 - a <= Z.of_nat fuel ->
    0 <= n -> n + Z.of_nat fuel < 2 ^ 31 -> value < 2 ^ 64 ->
    bucketsNeededLoop fuel value (2 ^ a) n = Ok r ->
    value < 2 ^ (a + (r - n)) /\ (r = n \/ 2 ^ (a + (r - n) - 1) <= value).
Proof.
  change (2 ^ 31) with 2147483648.
  induction fuel as [|fuel IH]; intros value a n r Ha Hfuel Hn Hn' Hv; [lia|].
  cbn [bucketsNeededLoop].
  destruct (Z.leb_spec (2 ^ a) value) as [Hle|Hgt].
  - change (shr64 U64_MAX_VALUE 1) with (2 ^ 63 - 1).
    destruct (Z.ltb_spec (2 ^ 63 - 1) (2 ^ a)) as [Hbig|Hsmall].
    + assert (a = 63).
      { destruct (Z.eq_dec a 63); [assumption|].
        assert (2 ^ a <= 2 ^ 62) by (apply pow2_le; lia).
        change (2 ^ 63) with (2 * 2 ^ 62) in Hbig. lia. }
      rewrite i32_small by (change (2 ^ 31) with 2147483648; lia).
      intros [= <-]. subst a.
      replace (63 + (n + 1 - n)) with 64 by lia.
      replace (64 - 1) with 63 by lia. split; [exact Hv|right; exact Hle].
    + assert (a <> 63) by (intros ->; lia).
      rewrite shl64_spec by lia.
      replace (2 ^ a * 2 ^ 1) with (2 ^ (a + 1)) by (rewrite Z.pow_add_r; lia).
      rewrite u64_small by (split; [apply Z.pow_nonneg; lia|apply pow2_lt; lia]).
      rewrite i32_small by (change (2 ^ 31) with 2147483648; lia).
      intros Hr.
      destruct (bucketsNeededLoop_returns fuel value (a + 1) (n + 1))
        as (r' & Hr' & Hge & _); try lia.
      assert (r' = r) by congruence. subst r'.
      destruct (IH value (a + 1) (n + 1) r) as [Hcov Hmin]; try lia; [exact Hr|].
      replace (a + 1 + (r - (n + 1))) with (a + (r - n)) in Hcov, Hmin by lia.
      split; [exact Hcov|]. right.
      destruct Hmin as [->|Hmin]; [|exact Hmin].
      replace (a + (n + 1 - n) - 1) with a by lia. exact Hle.
  - intros [= <-]. replace (a + (n - n)) with a by lia. split; [lia|left; reflexivity].
Qed.

Lemma getBucketsNeededToCoverValue_tight (h : Histogram) (value r : Z) :
  layout_base h -> value < 2 ^ 64 ->
  getBucketsNeededToCoverValue h value = Ok r ->
  value < 2 ^ (h.(subBucketHalfCountMagnitude) + h.(unitMagnitude) + r)
  /\ (r = 1
      \/ 2 ^ (h.(subBucketHalfCountMagnitude) + h.(unitMagnitude) + r - 1) <= value).
Proof.
  intros [Hhm Hum Hfit _ Hsbc _] Hv.
  unfold getBucketsNeededToCoverValue. rewrite Hsbc.
  set (hm := h.(subBucketHalfCountMagnitude)) in *.
  set (um := h.(unitMagnitude)) in *.
  assert (2 ^ (hm + 1) < 2 ^ 64) by (apply pow2_lt; lia).
  assert (0 < 2 ^ (hm + 1)) by (apply pow2_pos; lia).
  rewrite (u64_small (2 ^ (hm + 1))) by lia.
  rewrite shl64_spec by lia. rewrite <- Z.pow_add_r by lia.
  assert (2 ^ (hm + 1 + um) < 2 ^ 64) by (apply pow2_lt; lia).
  assert (0 < 2 ^ (hm + 1 + um)) by (apply pow2_pos; lia).
  rewrite u64_small by lia.
  intros Hr.
  destruct (bucketsNeededLoop_tight loopFuel value (hm + 1 + um) 1 r)
    as [Hcov Hmin];
    try (change (Z.of_nat loopFuel) with 64; change (2 ^ 31) with 2147483648; lia);
    [exact Hr|].
  replace (hm + 1 + um + (r - 1)) with (hm + um + r) in Hcov, Hmin by lia.
  split; [exact Hcov|exact Hmin].
Qed.

(** The bucket count of a constructed histogram is the one the sizing loop
    returns for its [highestTrackableValue]. *)
Lemma new_Histogram_bucketCount (W : Z) (ar : bool) (s0 e0 lowest highest digits : Z)
  (h : Histogram) :
  1 <= lowest -> 2 * lowest <= highest -> highest <= U64_MAX_VALUE ->
  0 <= digits <= 5 ->
  new_Histogram W ar s0 e0 lowest highest digits = Ok h ->
  getBucketsNeededToCoverValue h highest = Ok h.(bucketCount).
Proof.
  intros HL HH Hmax Hd Hnew.
  destruct (new_Histogram_cases W ar s0 e0 lowest highest digits HL HH Hmax Hd)
    as (um & m & Hum & Hu & Hm & Hm' & Hres).
  destruct (Z.leb_spec (m + um) 63) as [Hfit|Hbig];
    [clear Hres|rewrite Hres in Hnew; discriminate].
  unfold U64_MAX_VALUE in Hmax. unfold new_Histogram in Hnew.
  destruct (Z.ltb_spec lowest 1); [lia|].
  rewrite (u64_small (2 * lowest)) in Hnew by lia.
  destruct (Z.ltb_spec highest (2 * lowest)); [lia|].
  destruct (Z.ltb_spec digits 0); [lia|].
  destruct (Z.ltb_spec 5 digits); [lia|]. cbn [orb] in Hnew.
  rewrite (init_unfold W ar s0 e0 lowest highest digits um m) in Hnew
    by assumption.
  set (h0 := mkHistogram ar lowest highest digits 0 (2 ^ m) 0 s0 e0 0 (m - 1) um
               (2 ^ (m - 1)) (shl64 (u64 (u64 (2 ^ m) - 1)) um) (2 ^ um - 1) 0
               U64_MAX_VALUE W [] 0) in *.
  assert (Hb : layout_base h0).
  { split; cbn; try lia; try reflexivity. f_equal. lia. }
  destruct (establishSize_spec h0 highest Hb) as (n & Hn & Hn1 & Hn2 & Hes).
  { cbn. rewrite u64_small; lia. }
  unfold bind at 1 in Hnew. rewrite Hes in Hnew. cbn in Hnew.
  injection Hnew as <-. exact Hn.
Qed.

(** ** The covered range *)

(** On a well-formed layout a value below [2^48] has an index, and the
    index lies inside the counts array exactly when the value is below the
    end of the top bucket, [2^(hm + um + bucketCount)]. *)
Lemma index_of_value (h : Histogram) (v : Z) :
  layout_ok h -> 0 <= v < 2 ^ 48 ->
  exists i,
    countsArrayIndex h v = Ok i /\ 0 <= i
    /\ (v < 2 ^ (h.(subBucketHalfCountMagnitude) + h.(unitMagnitude) + h.(bucketCount))
        <-> i < h.(countsArrayLength)).
Proof.
  intros Hok Hv.
  pose proof (layout_bounds h Hok) as (Hhm & Hum & HB & Htop & Hfit).
  destruct (value_has_indexes h Hok v Hv) as (b & s & Hb & Hbu & Hs & Hhalf & Hx).
  destruct (countsArrayIndex_of_pair h Hok v b s Hv Hb Hbu Hs Hhalf Hx)
    as (Hidx & _ & _).
  rewrite (lo_len h Hok).
  set (hm := h.(subBucketHalfCountMagnitude)) in *.
  set (um := h.(unitMagnitude)) in *.
  set (B := h.(bucketCount)) in *.
  assert (Hp : 0 < 2 ^ hm) by (apply pow2_pos; lia).
  assert (Hp1 : 2 ^ (hm + 1) = 2 * 2 ^ hm) by (rewrite Z.pow_add_r; lia).
  assert (Hq : 0 < 2 ^ (b + um)) by (apply pow2_pos; lia).
  exists ((b + 1) * 2 ^ hm + (s - 2 ^ hm)). split; [exact Hidx|].
  split; [nia|].
  assert (Hupper : v < 2 ^ (hm + 1 + (b + um))).
  { rewrite Z.pow_add_r by lia. nia. }
  split.
  - intros Hcov.
    assert (Hb' : b = 0 \/ b < B).
    { destruct Hhalf as [->|Hhalf]; [left; reflexivity|right].
      destruct (Z.lt_ge_cases b B) as [|Hge]; [assumption|].
      assert (2 ^ (hm + um + B) <= 2 ^ (hm + (b + um))) by (apply pow2_le; lia).
      rewrite (Z.pow_add_r 2 hm (b + um)) in * by lia. nia. }
    destruct Hb' as [->|Hb']; nia.
  - intros Hin.
    destruct (Z.lt_ge_cases v (2 ^ (hm + um + B))) as [|Hge]; [assumption|].
    assert (Hbge : B <= b).
    { destruct (Z.lt_ge_cases b B) as [Hlt|]; [|assumption].
      assert (2 ^ (hm + 1 + (b + um)) <= 2 ^ (hm + um + B)) by (apply pow2_le; lia).
      lia. }
    destruct Hhalf as [->|Hhalf]; [lia|]. nia.
Qed.

(** The constructor sizes the histogram tightly: the top bucket ends above
    [highestTrackableValue], one bucket fewer would end at or below it, and
    every value up to [highestTrackableValue] that is below [2^48] has its
    index inside the counts array. *)
Theorem constructor_covers_highestTrackableValue (W : Z) (ar : bool)
  (s0 e0 lowest highest digits : Z) (h : Histogram) :
  1 <= lowest -> 2 * lowest <= highest -> highest <= U64_MAX_VALUE ->
  0 <= digits <= 5 ->
  new_Histogram W ar s0 e0 lowest highest digits = Ok h ->
  highest
  < 2 ^ (h.(subBucketHalfCountMagnitude) + h.(unitMagnitude) + h.(bucketCount))
  /\ (h.(bucketCount) = 1
      \/ 2 ^ (h.(subBucketHalfCountMagnitude) + h.(unitMagnitude)
              + h.(bucketCount) - 1) <= highest)
  /\ forall v, 0 <= v <= highest -> v < 2 ^ 48 ->
       exists i, countsArrayIndex h v = Ok i /\ 0 <= i < h.(countsArrayLength).
Proof.
  intros HL HH Hmax Hd Hnew.
  destruct (new_Histogram_fresh W ar s0 e0 lowest highest digits h HL HH Hmax Hd Hnew)
    as (Hok & _).
  pose proof (new_Histogram_bucketCount W ar s0 e0 lowest highest digits h
                HL HH Hmax Hd Hnew) as Hn.
  destruct (getBucketsNeededToCoverValue_tight h highest h.(bucketCount))
    as [Hcov Hmin]; [apply (lo_base h Hok)|unfold U64_MAX_VALUE in Hmax; lia|exact Hn|].
  split; [exact Hcov|]. split; [exact Hmin|].
  intros v Hv Hv53.
  destruct (index_of_value h v Hok) as (i & Hi & Hi0 & Hiff); [lia|].
  exists i. split; [exact Hi|]. split; [exact Hi0|]. apply Hiff. lia.
Qed.

Lemma constructor_covers_highestTrackableValue_witness :
  exists h i,
    new_Histogram 32 false 0 0 1 3000 3 = Ok h
    /\ countsArrayIndex h 3000 = Ok i /\ 0 <= i < h.(countsArrayLength).
Proof.
  destruct (new_Histogram 32 false 0 0 1 3000 3) as [h|e] eqn:Hnew;
    [|vm_compute in Hnew; discriminate].
  destruct (constructor_covers_highestTrackableValue 32 false 0 0 1 3000 3 h)
    as (_ & _ & Hall); try (unfold U64_MAX_VALUE; lia); [exact Hnew|].
  destruct (Hall 3000) as (i & Hi & Hrange); try lia.
  exists h, i. split; [reflexivity|]. split; assumption.
Defined.

(** ** Equivalent ranges *)

Section Ranges.
Variable h : Histogram.
Hypothesis Hok : layout_ok h.

Let hm := h.(subBucketHalfCountMagnitude).
Let um := h.(unitMagnitude).

(** The size, the end and the middle of the equivalent range of a value,
    from its pair. *)
Lemma range_of_pair (x b s : Z) :
  0 <= x < 2 ^ 48 ->
  0 <= b -> b + um <= 62 ->
  0 <= s < 2 ^ (hm + 1) -> (b = 0 \/ 2 ^ hm <= s) ->
  s * 2 ^ (b + um) <= x < (s + 1) * 2 ^ (b + um) ->
  sizeOfEquivalentValueRange h x = 2 ^ (b + um)
  /\ nextNonEquivalentValue h x = (s + 1) * 2 ^ (b + um)
  /\ medianEquivalentValue h x = s * 2 ^ (b + um) + 2 ^ (b + um) / 2.
Proof.
  intros Hx Hb Hbu Hs Hcanon Hrange.
  pose proof (layout_bounds h Hok) as (Hhm & Hum & HB & Htop & Hfit).
  destruct (indexes_of_value h Hok x b s Hx Hb Hbu Hs Hcanon Hrange) as [Hbi _].
  destruct (countsArrayIndex_of_pair h Hok x b s Hx Hb Hbu Hs Hcanon Hrange)
    as (_ & Hlow & _).
  fold hm um in Hfit, Hhm, Hum, Hlow.
  assert (Hsk : 0 <= s * 2 ^ (b + um)).
  { apply Z.mul_nonneg_nonneg; [lia|apply Z.pow_nonneg; lia]. }
  assert (H2k : 0 < 2 ^ (b + um)) by (apply pow2_pos; lia).
  assert (Hk62 : 2 ^ (b + um) <= 2 ^ 62) by (apply pow2_le; lia).
  assert (Hsize : sizeOfEquivalentValueRange h x = 2 ^ (b + um)).
  { unfold sizeOfEquivalentValueRange. rewrite Hbi. fold um.
    rewrite shl64_spec by lia. rewrite Z.mul_1_l.
    replace (um + b) with (b + um) by lia.
    apply u64_small. split; [lia|]. apply pow2_lt. lia. }
  change (2 ^ 62) with 4611686018427387904 in Hk62.
  change (2 ^ 48) with 281474976710656 in Hx.
  split; [exact Hsize|]. split.
  - unfold nextNonEquivalentValue. rewrite Hlow, Hsize.
    rewrite u64_small by (change (2 ^ 64) with 18446744073709551616; lia). lia.
  - unfold medianEquivalentValue. rewrite Hlow, Hsize.
    rewrite shr64_spec by lia. change (2 ^ 1) with 2.
    assert (0 <= 2 ^ (b + um) / 2 <= 2 ^ (b + um)).
    { split; [apply Z.div_pos; lia|]. apply Z.div_le_upper_bound; lia. }
    apply u64_small. change (2 ^ 64) with 18446744073709551616. lia.
Qed.
End Ranges.

(** The equivalent range of a value below [2^48] is an interval around it:
    it runs from [lowestEquivalentValue] to [highestEquivalentValue], has
    [sizeOfEquivalentValueRange] values, the median lies inside it, the
    lowest equivalent value is its own lowest equivalent, and the next
    non-equivalent value, when it is below [2^48] too, has the next index. *)
Theorem equivalent_range_is_an_interval (h : Histogram) (v : Z) :
  layout_ok h -> 0 <= v < 2 ^ 48 ->
  lowestEquivalentValue h v <= v <= highestEquivalentValue h v
  /\ highestEquivalentValue h v
     = lowestEquivalentValue h v + sizeOfEquivalentValueRange h v - 1
  /\ nextNonEquivalentValue h v = highestEquivalentValue h v + 1
  /\ lowestEquivalentValue h v <= medianEquivalentValue h v
     <= highestEquivalentValue h v
  /\ lowestEquivalentValue h (lowestEquivalentValue h v) = lowestEquivalentValue h v
  /\ (nextNonEquivalentValue h v < 2 ^ 48 ->
      forall i, countsArrayIndex h v = Ok i ->
        countsArrayIndex h (nextNonEquivalentValue h v) = Ok (i + 1)).
Proof.
  intros Hok Hv.
  pose proof (layout_bounds h Hok) as (Hhm & Hum & HB & Htop & Hfit).
  destruct (value_has_indexes h Hok v Hv) as (b & s & Hb & Hbu & Hs & Hcanon & Hvr).
  destruct (countsArrayIndex_of_pair h Hok v b s Hv Hb Hbu Hs Hcanon Hvr)
    as (Hidx & Hlo & Hhi).
  destruct (range_of_pair h Hok v b s Hv Hb Hbu Hs Hcanon Hvr)
    as (Hsize & Hnext & Hmed).
  set (hm := h.(subBucketHalfCountMagnitude)) in *.
  set (um := h.(unitMagnitude)) in *.
  assert (H2k : 0 < 2 ^ (b + um)) by (apply pow2_pos; lia).
  assert (H2hm : 0 < 2 ^ hm) by (apply pow2_pos; lia).
  assert (Hpm : 2 ^ (hm + 1) = 2 * 2 ^ hm).
  { rewrite Z.pow_add_r by lia. change (2 ^ 1) with 2. lia. }
  assert (Hhalf : 0 <= 2 ^ (b + um) / 2 <= 2 ^ (b + um) - 1).
  { split; [apply Z.div_pos; lia|].
    destruct (Z.eq_dec (2 ^ (b + um)) 1) as [->|]; [reflexivity|].
    assert (2 ^ (b + um) / 2 < 2 ^ (b + um)) by (apply Z.div_lt; lia). lia. }
  assert (Hsk : 0 <= s * 2 ^ (b + um)).
  { apply Z.mul_nonneg_nonneg; [lia|apply Z.pow_nonneg; lia]. }
  rewrite Hlo, Hhi, Hsize, Hnext, Hmed.
  split; [lia|]. split; [lia|]. split; [lia|]. split; [lia|]. split.
  - destruct (countsArrayIndex_of_pair h Hok (s * 2 ^ (b + um)) b s)
      as (_ & Hlo' & _); try assumption; fold hm um; lia.
  - intros Hn53 i Hi. rewrite Hidx in Hi. injection Hi as <-.
    destruct (Z.lt_ge_cases (s + 1) (2 ^ (hm + 1))) as [Hlt|Hge].
    + destruct (countsArrayIndex_of_pair h Hok ((s + 1) * 2 ^ (b + um)) b (s + 1))
        as (Hidx' & _ & _); try assumption; try (fold hm um; lia).
      fold hm um in Hidx'. rewrite Hidx'. f_equal. lia.
    + assert (Hs' : s + 1 = 2 ^ (hm + 1)) by lia.
      assert (Hx' : (s + 1) * 2 ^ (b + um) = 2 ^ hm * 2 ^ (b + 1 + um)).
      { rewrite Hs', Hpm. replace (b + 1 + um) with (1 + (b + um)) by lia.
        rewrite (Z.pow_add_r 2 1) by lia. change (2 ^ 1) with 2. lia. }
      assert (Hsmall : hm + (b + 1 + um) < 53).
      { apply (Z.pow_lt_mono_r_iff 2); [lia|lia|].
        rewrite Z.pow_add_r by lia. lia. }
      assert (H2k' : 0 < 2 ^ (b + 1 + um)) by (apply pow2_pos; lia).
      destruct (countsArrayIndex_of_pair h Hok ((s + 1) * 2 ^ (b + um)) (b + 1)
                  (2 ^ hm))
        as (Hidx' & _ & _); try (fold hm um; lia).
      fold hm um in Hidx'. rewrite Hidx'. f_equal. lia.
Qed.

Lemma equivalent_range_is_an_interval_witness :
  exists h,
    new_Histogram 32 false 0 0 1 100000 3 = Ok h
    /\ lowestEquivalentValue h 5000 <= 5000 <= highestEquivalentValue h 5000
    /\ highestEquivalentValue h 5000
       = lowestEquivalentValue h 5000 + sizeOfEquivalentValueRange h 5000 - 1.
Proof.
  destruct (new_Histogram 32 false 0 0 1 100000 3) as [h|e] eqn:Hnew;
    [|vm_compute in Hnew; discriminate].
  exists h. split; [reflexivity|].
  destruct (new_Histogram_fresh 32 false 0 0 1 100000 3 h) as (Hok & _);
    try (unfold U64_MAX_VALUE; lia); [exact Hnew|].
  destruct (equivalent_range_is_an_interval h 5000 Hok) as (Hin & Hsize & _);
    [lia|].
  split; assumption.
Defined.

(** ** Resolution *)

(** What the constructor derives from its arguments: half a bucket has at
    least [10^digits] sub-buckets, and the unit is the largest power of two
    at or below [lowestDiscernibleValue]. *)
Lemma new_Histogram_resolution (W : Z) (ar : bool) (s0 e0 lowest highest digits : Z)
  (h : Histogram) :
  1 <= lowest -> 2 * lowest <= highest -> highest <= U64_MAX_VALUE ->
  0 <= digits <= 5 -> lowest < 2 ^ 48 ->
  new_Histogram W ar s0 e0 lowest highest digits = Ok h ->
  10 ^ digits <= 2 ^ h.(subBucketHalfCountMagnitude)
  /\ 2 ^ h.(unitMagnitude) <= lowest < 2 ^ (h.(unitMagnitude) + 1).
Proof.
  intros HL HH Hmax Hd Hl53 Hnew.
  destruct (new_Histogram_cases W ar s0 e0 lowest highest digits HL HH Hmax Hd)
    as (um & m & Hum & Hu & Hm & Hm' & Hres).
  destruct (Z.leb_spec (m + um) 63) as [Hfit|Hbig];
    [|rewrite Hres in Hnew; discriminate].
  destruct Hres as (n & _ & _ & Hres). rewrite Hres in Hnew.
  injection Hnew as <-. cbn [subBucketHalfCountMagnitude unitMagnitude].
  split.
  - subst m.
    assert (Hcases : digits = 0 \/ digits = 1 \/ digits = 2 \/ digits = 3
                     \/ digits = 4 \/ digits = 5) by lia.
    destruct Hcases as [->|[->|[->|[->|[->| ->]]]]]; vm_compute; discriminate.
  - replace lowest with (lowest * 2 ^ 0) in Hum at 1
      by (change (2 ^ 0) with 1; lia).
    rewrite f64_of_u64_exact in Hum
      by (change (2 ^ 53) with 9007199254740992;
          change (2 ^ 48) with 281474976710656 in Hl53; lia).
    change (2 ^ 0) with 1 in Hum. rewrite Z.mul_1_r in Hum.
    rewrite floor_log2_below_2_48 in Hum by lia. injection Hum as <-.
    pose proof (Z.log2_spec lowest ltac:(lia)) as Hlog.
    rewrite <- Z.add_1_r in Hlog. exact Hlog.
Qed.

(** The resolution the constructor promises: the equivalent range of a value
    below [2^48] is no larger than [lowestDiscernibleValue], or no larger than
    the value divided by [10^numberOfSignificantValueDigits]. *)
Theorem resolution_within_significant_digits (W : Z) (ar : bool)
  (s0 e0 lowest highest digits : Z) (h : Histogram) (v : Z) :
  1 <= lowest -> 2 * lowest <= highest -> highest <= U64_MAX_VALUE ->
  0 <= digits <= 5 -> lowest < 2 ^ 48 ->
  new_Histogram W ar s0 e0 lowest highest digits = Ok h ->
  0 <= v < 2 ^ 48 ->
  sizeOfEquivalentValueRange h v <= lowest
  \/ sizeOfEquivalentValueRange h v * 10 ^ digits <= v.
Proof.
  intros HL HH Hmax Hd Hl53 Hnew Hv.
  destruct (new_Histogram_fresh W ar s0 e0 lowest highest digits h HL HH Hmax Hd Hnew)
    as (Hok & _).
  destruct (new_Histogram_resolution W ar s0 e0 lowest highest digits h
              HL HH Hmax Hd Hl53 Hnew) as [Hdigits [Hunit _]].
  pose proof (layout_bounds h Hok) as (Hhm & Hum & HB & Htop & Hfit).
  destruct (value_has_indexes h Hok v Hv) as (b & s & Hb & Hbu & Hs & Hcanon & Hvr).
  destruct (range_of_pair h Hok v b s Hv Hb Hbu Hs Hcanon Hvr) as (Hsize & _).
  rewrite Hsize.
  set (hm := h.(subBucketHalfCountMagnitude)) in *.
  set (um := h.(unitMagnitude)) in *.
  assert (H2k : 0 < 2 ^ (b + um)) by (apply pow2_pos; lia).
  destruct Hcanon as [->|Hhalf].
  - left. rewrite Z.add_0_l. exact Hunit.
  - right.
    assert (2 ^ (b + um) * 10 ^ digits <= 2 ^ (b + um) * 2 ^ hm)
      by (apply Z.mul_le_mono_nonneg_l; lia).
    assert (2 ^ hm * 2 ^ (b + um) <= s * 2 ^ (b + um))
      by (apply Z.mul_le_mono_nonneg_r; lia).
    lia.
Qed.

Lemma resolution_within_significant_digits_witness :
  exists h,
    new_Histogram 32 false 0 0 1 100000 3 = Ok h
    /\ (sizeOfEquivalentValueRange h 50000 <= 1
        \/ sizeOfEquivalentValueRange h 50000 * 10 ^ 3 <= 50000).
Proof.
  destruct (new_Histogram 32 false 0 0 1 100000 3) as [h|e] eqn:Hnew;
    [|vm_compute in Hnew; discriminate].
  exists h. split; [reflexivity|].
  apply (resolution_within_significant_digits 32 false 0 0 1 100000 3 h 50000);
    try (unfold U64_MAX_VALUE; lia).
  exact Hnew.
Defined.

(** ** The highest recordable value *)

(** The value of the last index of the counts array, and the end of its
    equivalent range: the end of the top bucket. *)
Lemma highest_recordable_value (h : Histogram) :
  layout_ok h ->
  highestEquivalentValue h (valueFromIndex h (i32 (h.(countsArrayLength) - 1)))
  = 2 ^ (h.(subBucketHalfCountMagnitude) + h.(unitMagnitude) + h.(bucketCount)) - 1.
Proof.
  intros Hok.
  pose proof (layout_bounds h Hok) as (Hhm & Hum & HB & Htop & Hfit).
  pose proof (lo_len h Hok) as Hlen.
  set (hm := h.(subBucketHalfCountMagnitude)) in *.
  set (um := h.(unitMagnitude)) in *.
  set (B := h.(bucketCount)) in *.
  assert (Hp : 0 < 2 ^ hm) by (apply pow2_pos; lia).
  assert (Hp17 : 2 ^ hm <= 2 ^ 17) by (apply pow2_le; lia).
  change (2 ^ 17) with 131072 in Hp17.
  assert (Hpm : 2 ^ (hm + 1) = 2 * 2 ^ hm).
  { rewrite Z.pow_add_r by lia. change (2 ^ 1) with 2. lia. }
  rewrite i32_small by (change (2 ^ 31) with 2147483648; nia).
  destruct (value_of_index h Hok (h.(countsArrayLength) - 1))
    as (s & Hs & Hcanon & Hb63 & Hi & Hval); [nia|].
  fold hm um in Hs, Hcanon, Hb63, Hi, Hval.
  assert (Hdiv : (h.(countsArrayLength) - 1) / 2 ^ hm = B).
  { symmetry.
    apply (Z.div_unique (h.(countsArrayLength) - 1) (2 ^ hm) B (2 ^ hm - 1)); lia. }
  rewrite Hdiv in *.
  rewrite Z.max_l in * by lia.
  assert (s = 2 * 2 ^ hm - 1) by lia. subst s.
  rewrite Hval.
  destruct (equivalents_of_scaled h Hok (B - 1) (2 * 2 ^ hm - 1))
    as (_ & Hhi & _); try (fold hm um; lia).
  fold hm um in Hhi. rewrite Hhi.
  replace (2 * 2 ^ hm - 1 + 1) with (2 ^ (hm + 1)) by lia.
  rewrite <- Z.pow_add_r by lia. do 2 f_equal. lia.
Qed.

(** [add] fails as a whole: when the other histogram's [maxValue] is at or
    above the end of the top bucket and the histogram does not resize, [add]
    throws and leaves the histogram as it was. *)
Theorem add_out_of_range_atomic (h other : Histogram) :
  layout_ok h ->
  h.(autoResize) = false ->
  2 ^ (h.(subBucketHalfCountMagnitude) + h.(unitMagnitude) + h.(bucketCount))
  <= other.(maxValue) ->
  add other h = Throw OtherDoesNotFit h.
Proof.
  intros Hok Har Hmax. unfold add, bind at 1, get. unfold bind at 1.
  rewrite (highest_recordable_value h Hok).
  destruct (Z.ltb_spec
              (2 ^ (h.(subBucketHalfCountMagnitude) + h.(unitMagnitude)
                    + h.(bucketCount)) - 1) other.(maxValue)); [|lia].
  rewrite Har. reflexivity.
Qed.

Lemma add_out_of_range_atomic_witness :
  exists h other0 other,
    new_Histogram 8 false 0 0 1 1000 0 = Ok h
    /\ new_Histogram 8 true 0 0 1 1000 0 = Ok other0
    /\ recordValue 5000 other0 = Return tt other
    /\ add other h = Throw OtherDoesNotFit h.
Proof.
  destruct (new_Histogram 8 false 0 0 1 1000 0) as [h|e] eqn:Hnew;
    [|vm_compute in Hnew; discriminate].
  destruct (new_Histogram 8 true 0 0 1 1000 0) as [other0|e] eqn:Hnew0;
    [|vm_compute in Hnew0; discriminate].
  destruct (recordValue 5000 other0) as [[] other|e other] eqn:Hrec;
    [|vm_compute in Hnew0; injection Hnew0 as <-; vm_compute in Hrec; discriminate].
  exists h, other0, other. do 2 (split; [reflexivity|]). split; [exact Hrec|].
  destruct (new_Histogram_fresh 8 false 0 0 1 1000 0 h) as (Hok & Har & _);
    try (unfold U64_MAX_VALUE; lia); [exact Hnew|].
  apply (add_out_of_range_atomic h other Hok Har).
  vm_compute in Hnew. injection Hnew as <-.
  vm_compute in Hnew0. injection Hnew0 as <-.
  vm_compute in Hrec. injection Hrec as <-.
  vm_compute. discriminate.
Defined.

(** ** One recorded value *)

(** The index of a value depends on the geometry only. *)
Lemma countsArrayIndex_geometry (h h' : Histogram) (v : Z) :
  geometry h' = geometry h -> countsArrayIndex h' v = countsArrayIndex h v.
Proof.
  unfold geometry. intros [= _ _ _ Hsbc _ Hhm Hum Hhalf _ _ _].
  unfold countsArrayIndex, getBucketIndex, getSubBucketIndex, computeCountsArrayIndex.
  rewrite Hsbc, Hhm, Hum, Hhalf. reflexivity.
Qed.

(** [updateMinAndMax] returns, and assigns [maxValue] and [minNonZeroValue]
    only. *)
Lemma updateMinAndMax_fields (v : Z) (h : Histogram) :
  exists h',
    updateMinAndMax v h = Return tt h'
    /\ h'.(counts) = h.(counts) /\ h'.(totalCount) = h.(totalCount)
    /\ geometry h' = geometry h /\ sizing h' = sizing h
    /\ timeStamps h' = timeStamps h
    /\ h'.(maxValue)
       = (if h.(maxValue) <? v then u64 (v + h.(unitMagnitudeMask))
          else h.(maxValue))
    /\ h'.(minNonZeroValue)
       = (if (v <? h.(minNonZeroValue)) && negb (v =? 0)
             && negb (v <=? h.(unitMagnitudeMask))
          then Z.land v (u64 (Z.lnot h.(unitMagnitudeMask)))
          else h.(minNonZeroValue)).
Proof.
  unfold updateMinAndMax, bind, get, updatedMaxValue, updateMinNonZeroValue,
    bind, get, modify, ret.
  destruct (h.(maxValue) <? v); cbn;
    destruct (v <? h.(minNonZeroValue)); destruct (v =? 0); cbn;
    destruct (v <=? h.(unitMagnitudeMask)); cbn;
    eexists; (split; [reflexivity|]); repeat split; reflexivity.
Qed.

(** A value whose index is inside the counts array: [recordSingleValue]
    returns, having put one more in its counter (modulo the counter width)
    and in [totalCount]. *)
Lemma recordSingleValue_in_range (h : Histogram) (v i c : Z) :
  0 <= h.(counterBits) ->
  countsArrayIndex h v = Ok i -> i < h.(countsArrayLength) ->
  array_get h.(counts) i = Some c ->
  exists h',
    recordSingleValue v h = Return tt h'
    /\ h'.(counts) = array_set h.(counts) i (wrapU h.(counterBits) (c + 1))
    /\ h'.(totalCount) = u64 (h.(totalCount) + 1)
    /\ geometry h' = geometry h /\ sizing h' = sizing h
    /\ timeStamps h' = timeStamps h
    /\ h'.(maxValue)
       = (if h.(maxValue) <? v then u64 (v + h.(unitMagnitudeMask))
          else h.(maxValue))
    /\ h'.(minNonZeroValue)
       = (if (v <? h.(minNonZeroValue)) && negb (v =? 0)
             && negb (v <=? h.(unitMagnitudeMask))
          then Z.land v (u64 (Z.lnot h.(unitMagnitudeMask)))
          else h.(minNonZeroValue)).
Proof.
  intros HW Hidx Hin Hc.
  unfold recordSingleValue, bind at 1, liftR. rewrite Hidx.
  unfold bind at 1, get. unfold bind at 1.
  destruct (Z.leb_spec h.(countsArrayLength) i); [lia|].
  rewrite (incrementCountAtIndex_wraps h i c HW Hc).
  set (h1 := set_counts _ h).
  destruct (updateMinAndMax_fields v h1)
    as (h2 & Hrun & Hcounts & Htot & Hg & Hs & Ht & Hmax & Hmin).
  unfold bind. rewrite Hrun. unfold incrementTotalCount, modify.
  eexists. split; [reflexivity|]. cbn.
  repeat split; assumption || (rewrite Htot; reflexivity).
Qed.

(** The same for [recordCountAtValue], with [count] in place of one. *)
Lemma recordCountAtValue_in_range (h : Histogram) (count v i c : Z) :
  countsArrayIndex h v = Ok i -> i < h.(countsArrayLength) ->
  array_get h.(counts) i = Some c ->
  exists h',
    recordCountAtValue count v h = Return tt h'
    /\ h'.(counts)
       = array_set h.(counts) i (wrapU h.(counterBits) (u64 (c + count)))
    /\ h'.(totalCount) = u64 (h.(totalCount) + count)
    /\ geometry h' = geometry h /\ sizing h' = sizing h
    /\ timeStamps h' = timeStamps h
    /\ h'.(maxValue)
       = (if h.(maxValue) <? v then u64 (v + h.(unitMagnitudeMask))
          else h.(maxValue))
    /\ h'.(minNonZeroValue)
       = (if (v <? h.(minNonZeroValue)) && negb (v =? 0)
             && negb (v <=? h.(unitMagnitudeMask))
          then Z.land v (u64 (Z.lnot h.(unitMagnitudeMask)))
          else h.(minNonZeroValue)).
Proof.
  intros Hidx Hin Hc.
  unfold recordCountAtValue, bind at 1, liftR. rewrite Hidx.
  unfold bind at 1, get. unfold bind at 1.
  destruct (Z.leb_spec h.(countsArrayLength) i); [lia|].
  rewrite (addToCountAtIndex_wraps h i c count Hc).
  set (h1 := set_counts _ h).
  destruct (updateMinAndMax_fields v h1)
    as (h2 & Hrun & Hcounts & Htot & Hg & Hs & Ht & Hmax & Hmin).
  unfold bind. rewrite Hrun. unfold modify.
  eexists. split; [reflexivity|]. cbn.
  repeat split; assumption || (rewrite Htot; reflexivity).
Qed.

(** Two values below [2^48] have one index exactly when the second lies in
    the equivalent range of the first. *)
Lemma same_index_iff_equivalent (h : Histogram) (v u : Z) :
  layout_ok h -> 0 <= v < 2 ^ 48 -> 0 <= u < 2 ^ 48 ->
  countsArrayIndex h u = countsArrayIndex h v
  <-> lowestEquivalentValue h v <= u <= highestEquivalentValue h v.
Proof.
  intros Hok Hv Hu. split;
    [|apply (equivalent_values_share_index_layout h Hok v u Hv Hu)].
  pose proof (layout_bounds h Hok) as (Hhm & Hum & HB & Htop & Hfit).
  destruct (value_has_indexes h Hok v Hv) as (b & s & Hb & Hbu & Hs & Hcanon & Hvr).
  destruct (countsArrayIndex_of_pair h Hok v b s Hv Hb Hbu Hs Hcanon Hvr)
    as (Hiv & Hlo & Hhi).
  destruct (value_has_indexes h Hok u Hu)
    as (b' & s' & Hb' & Hbu' & Hs' & Hcanon' & Hur).
  destruct (countsArrayIndex_of_pair h Hok u b' s' Hu Hb' Hbu' Hs' Hcanon' Hur)
    as (Hiu & _ & _).
  rewrite Hiv, Hiu, Hlo, Hhi. intros [= Heq].
  set (hm := h.(subBucketHalfCountMagnitude)) in *.
  set (um := h.(unitMagnitude)) in *.
  assert (Hp : 0 < 2 ^ hm) by (apply pow2_pos; lia).
  assert (Hpm : 2 ^ (hm + 1) = 2 * 2 ^ hm).
  { rewrite Z.pow_add_r by lia. change (2 ^ 1) with 2. lia. }
  assert (Hbb : b' = b).
  { destruct (Z.lt_trichotomy b' b) as [Hlt|[Heq'|Hgt]]; [exfalso|exact Heq'|exfalso].
    - assert (2 ^ hm <= s) by (destruct Hcanon; lia).
      assert ((b' + 1) * 2 ^ hm <= b * 2 ^ hm)
        by (apply Z.mul_le_mono_nonneg_r; lia).
      lia.
    - assert (2 ^ hm <= s') by (destruct Hcanon'; lia).
      assert ((b + 1) * 2 ^ hm <= b' * 2 ^ hm)
        by (apply Z.mul_le_mono_nonneg_r; lia).
      lia. }
  subst b'. assert (s' = s) by lia. subst s'. lia.
Qed.

(** [recordValue] counts a value with its equivalents: for a value below
    [2^48] and below the end of the top bucket it returns, [totalCount] is
    one more, and the counter read at the index of any value [u] is one more
    (modulo the counter width) when [u] is equivalent to the recorded value,
    and is what it was otherwise. *)
Theorem recordValue_counts_equivalents (h : Histogram) (v : Z) :
  well_formed h -> 0 <= v < 2 ^ 48 ->
  v < 2 ^ (h.(subBucketHalfCountMagnitude) + h.(unitMagnitude) + h.(bucketCount)) ->
  exists h',
    recordValue v h = Return tt h'
    /\ h'.(totalCount) = u64 (h.(totalCount) + 1)
    /\ geometry h' = geometry h /\ sizing h' = sizing h
    /\ forall u, 0 <= u < 2 ^ 48 ->
         u < 2 ^ (h.(subBucketHalfCountMagnitude) + h.(unitMagnitude)
                  + h.(bucketCount)) ->
         exists j c,
           countsArrayIndex h' u = Ok j
           /\ getCountAtIndex h j = Ok c
           /\ getCountAtIndex h' j
              = Ok (if (lowestEquivalentValue h v <=? u)
                       && (u <=? highestEquivalentValue h v)
                    then wrapU h.(counterBits) (c + 1) else c).
Proof.
  intros Hwf Hv Hcov.
  pose proof (wf_layout h Hwf) as Hok. pose proof (wf_width h Hwf) as HW.
  pose proof (wf_length h Hwf) as Hlen. pose proof (wf_range h Hwf) as Hrange.
  destruct (index_of_value h v Hok Hv) as (i & Hi & Hi0 & Hiff).
  apply Hiff in Hcov as Hin.
  assert (Hget : forall j, 0 <= j < h.(countsArrayLength) ->
            exists c, array_get h.(counts) j = Some c /\ 0 <= c < 2 ^ h.(counterBits)).
  { intros j Hj. unfold array_get. destruct (Z.ltb_spec j 0); [lia|].
    destruct (lookup_lt_is_Some_2 h.(counts) (Z.to_nat j)) as [c Hc]; [lia|].
    exists c. split; [exact Hc|].
    apply (proj1 (Forall_lookup _ _) Hrange (Z.to_nat j) c Hc). }
  destruct (Hget i ltac:(lia)) as (c & Hc & Hcr).
  destruct (recordSingleValue_in_range h v i c ltac:(lia) Hi Hin Hc)
    as (h' & Hrun & Hcounts & Htot & Hg & Hs & _).
  exists h'. split; [exact Hrun|]. split; [exact Htot|].
  split; [exact Hg|]. split; [exact Hs|].
  intros u Hu Hucov.
  destruct (index_of_value h u Hok Hu) as (j & Hj & Hj0 & Hjiff).
  apply Hjiff in Hucov as Hjin.
  destruct (Hget j ltac:(lia)) as (cu & Hcu & Hcur).
  assert (Hpow : 2 ^ h.(counterBits) <= 2 ^ 64) by (apply pow2_le; lia).
  exists j, cu. rewrite (countsArrayIndex_geometry h h' u Hg).
  split; [exact Hj|].
  unfold getCountAtIndex. rewrite Hcu, Hcounts.
  split; [rewrite u64_small by lia; reflexivity|].
  pose proof (same_index_iff_equivalent h v u Hok Hv Hu) as Hsame.
  rewrite Hi, Hj in Hsame.
  unfold array_get, array_set. destruct (Z.ltb_spec j 0); [lia|].
  destruct (Z.eq_dec j i) as [->|Hne].
  - rewrite list_lookup_insert_eq by lia.
    assert (Hc' : cu = c) by congruence. subst cu.
    destruct (proj1 Hsame eq_refl) as [Hlo Hhi].
    destruct (Z.leb_spec (lowestEquivalentValue h v) u); [|lia].
    destruct (Z.leb_spec u (highestEquivalentValue h v)); [|lia].
    cbn [andb]. f_equal. apply u64_small.
    pose proof (wrapU_range h.(counterBits) (c + 1) ltac:(lia)). lia.
  - rewrite list_lookup_insert_ne by lia.
    unfold array_get in Hcu. destruct (Z.ltb_spec j 0); [lia|]. rewrite Hcu.
    assert (Hnot : ~ (lowestEquivalentValue h v <= u <= highestEquivalentValue h v)).
    { intros Hr. apply Hsame in Hr. congruence. }
    destruct (Z.leb_spec (lowestEquivalentValue h v) u);
      destruct (Z.leb_spec u (highestEquivalentValue h v)); cbn [andb];
      try (f_equal; apply u64_small; lia).
    exfalso. apply Hnot. lia.
Qed.

Lemma recordValue_counts_equivalents_witness :
  exists h h',
    new_Histogram 8 false 0 0 1 1000 0 = Ok h
    /\ recordValue 5 h = Return tt h'
    /\ h'.(totalCount) = 1.
Proof.
  destruct (new_Histogram 8 false 0 0 1 1000 0) as [h|e] eqn:Hnew;
    [|vm_compute in Hnew; discriminate].
  assert (Hwf : well_formed h).
  { apply (new_Histogram_well_formed 8 false 0 0 1 1000 0);
      try (unfold U64_MAX_VALUE; lia). exact Hnew. }
  destruct (recordValue_counts_equivalents h 5 Hwf) as (h' & Hrun & Htot & _);
    [lia|vm_compute in Hnew; injection Hnew as <-; vm_compute; reflexivity|].
  exists h, h'. split; [reflexivity|]. split; [exact Hrun|].
  rewrite Htot. vm_compute in Hnew. injection Hnew as <-. reflexivity.
Defined.

(** ** Resizing *)

(** [resize] to a value at or above the end of the top bucket: the bucket
    count grows to the least that covers the value, and the counts array is
    the old one with zeros after it. *)
Lemma resize_grows (h : Histogram) (v : Z) :
  well_formed h ->
  u64 (2 * h.(lowestDiscernibleValue)) <= v -> v < 2 ^ 64 ->
  2 ^ (h.(subBucketHalfCountMagnitude) + h.(unitMagnitude) + h.(bucketCount)) <= v ->
  exists n,
    h.(bucketCount) < n
    /\ h.(subBucketHalfCountMagnitude) + h.(unitMagnitude) + n <= 64
    /\ v < 2 ^ (h.(subBucketHalfCountMagnitude) + h.(unitMagnitude) + n)
    /\ 2 ^ (h.(subBucketHalfCountMagnitude) + h.(unitMagnitude) + n - 1) <= v
    /\ resize v h
       = Return tt
           (set_counts
              (h.(counts)
               ++ replicate
                    (Z.to_nat ((n + 1) * 2 ^ h.(subBucketHalfCountMagnitude)
                               - h.(countsArrayLength))) 0)
              (set_highestTrackableValue v
                 (set_bucketCount n
                    (set_countsArrayLength
                       ((n + 1) * 2 ^ h.(subBucketHalfCountMagnitude)) h)))).
Proof.
  intros Hwf Hlow Hv64 Hout.
  pose proof (wf_layout h Hwf) as Hok. pose proof (wf_length h Hwf) as Hlen.
  pose proof (layout_bounds h Hok) as (Hhm & Hum & HB & Htop & Hfit).
  destruct (establishSize_spec h v (lo_base h Hok) Hlow)
    as (n & Hn & Hn1 & Hn2 & Hes).
  destruct (getBucketsNeededToCoverValue_tight h v n (lo_base h Hok) Hv64 Hn)
    as [Hcov Hmin].
  pose proof (lo_len h Hok) as Hlen'.
  set (hm := h.(subBucketHalfCountMagnitude)) in *.
  set (um := h.(unitMagnitude)) in *.
  set (B := h.(bucketCount)) in *.
  assert (Hp : 0 < 2 ^ hm) by (apply pow2_pos; lia).
  assert (HBn : B < n).
  { destruct (Z.lt_ge_cases B n) as [|Hge]; [assumption|].
    assert (2 ^ (hm + um + n) <= 2 ^ (hm + um + B)) by (apply pow2_le; lia). lia. }
  exists n. split; [exact HBn|]. split; [exact Hn2|]. split; [exact Hcov|].
  split; [destruct Hmin; [lia|assumption]|].
  unfold resize, bind at 1. rewrite Hes. unfold bind, get.
  cbn [countsArrayLength set_highestTrackableValue set_bucketCount
       set_countsArrayLength counts].
  unfold typed_array_set, instantiate. rewrite length_replicate.
  assert (Hgrow : h.(countsArrayLength) <= (n + 1) * 2 ^ hm).
  { rewrite Hlen'. apply Z.mul_le_mono_nonneg_r; lia. }
  destruct (Nat.leb_spec (length h.(counts)) (Z.to_nat ((n + 1) * 2 ^ hm))); [|lia].
  unfold modify. do 2 f_equal. rewrite drop_replicate. do 2 f_equal. lia.
Qed.

(** With [autoResize], a value at or above the end of the top bucket is
    recorded all the same: the bucket count grows to the least that covers
    the value, the old counters keep their places, the new ones are zero but
    for the counter of the value, and [highestTrackableValue] becomes the last
    value of the new top bucket. *)
Theorem recordValue_auto_resizes (h : Histogram) (v : Z) :
  well_formed h -> h.(autoResize) = true ->
  0 <= v < 2 ^ 48 -> u64 (2 * h.(lowestDiscernibleValue)) <= v ->
  2 ^ (h.(subBucketHalfCountMagnitude) + h.(unitMagnitude) + h.(bucketCount)) <= v ->
  exists h' n i,
    recordValue v h = Return tt h'
    /\ countsArrayIndex h v = Ok i
    /\ h.(countsArrayLength) <= i < h'.(countsArrayLength)
    /\ geometry h' = geometry h
    /\ h'.(bucketCount) = n /\ h.(bucketCount) < n
    /\ v < 2 ^ (h.(subBucketHalfCountMagnitude) + h.(unitMagnitude) + n)
    /\ 2 ^ (h.(subBucketHalfCountMagnitude) + h.(unitMagnitude) + n - 1) <= v
    /\ h'.(countsArrayLength) = (n + 1) * 2 ^ h.(subBucketHalfCountMagnitude)
    /\ h'.(highestTrackableValue)
       = 2 ^ (h.(subBucketHalfCountMagnitude) + h.(unitMagnitude) + n) - 1
    /\ h'.(counts)
       = array_set
           (h.(counts)
            ++ replicate (Z.to_nat (h'.(countsArrayLength) - h.(countsArrayLength))) 0)
           i (wrapU h.(counterBits) 1)
    /\ h'.(totalCount) = u64 (h.(totalCount) + 1).
Proof.
  intros Hwf Har Hv Hlow Hout.
  pose proof (wf_layout h Hwf) as Hok. pose proof (wf_length h Hwf) as Hlen.
  pose proof (layout_bounds h Hok) as (Hhm & Hum & HB & Htop & Hfit).
  destruct (index_of_value h v Hok Hv) as (i & Hi & Hi0 & Hiff).
  assert (Hin : h.(countsArrayLength) <= i).
  { destruct (Z.lt_ge_cases i h.(countsArrayLength)) as [Hlt|]; [|assumption].
    apply Hiff in Hlt. lia. }
  destruct (resize_grows h v Hwf Hlow) as (n & HBn & Hn64 & Hcov & Hmin & Hres);
    [change (2 ^ 64) with 18446744073709551616;
     change (2 ^ 48) with 281474976710656 in Hv; lia|exact Hout|].
  set (len' := (n + 1) * 2 ^ h.(subBucketHalfCountMagnitude)) in *.
  set (h2 := set_counts _ _) in Hres.
  assert (Hok2 : layout_ok h2).
  { apply layout_ok_set_counts, establishSize_layout_ok;
      [apply (lo_base h Hok)|lia|exact Hn64]. }
  destruct (index_of_value h2 v Hok2 Hv) as (i2 & Hi2 & _ & Hiff2).
  change (countsArrayIndex h2 v) with (countsArrayIndex h v) in Hi2.
  assert (i2 = i) by congruence. subst i2.
  assert (Hin2 : i < len') by (apply Hiff2; exact Hcov).
  assert (Hget0 : array_get h2.(counts) i = Some 0).
  { unfold array_get. destruct (Z.ltb_spec i 0); [lia|]. cbn [counts h2 set_counts].
    rewrite lookup_app_r by lia. apply lookup_replicate_2. lia. }
  exists (set_totalCount (u64 (h.(totalCount) + 1))
            (final (updateMinAndMax v
               (set_highestTrackableValue
                  (2 ^ (h.(subBucketHalfCountMagnitude) + h.(unitMagnitude) + n) - 1)
                  (set_counts (array_set h2.(counts) i
                                 (wrapU h.(counterBits) (u64 (0 + 1)))) h2))))),
    n, i.
  set (h3 := set_counts (array_set _ _ _) h2).
  assert (Hok3 : layout_ok h3) by (apply layout_ok_set_counts; exact Hok2).
  pose proof (highest_recordable_value h3 Hok3) as Hhigh.
  destruct (updateMinAndMax_fields v
              (set_highestTrackableValue
                 (2 ^ (h.(subBucketHalfCountMagnitude) + h.(unitMagnitude) + n) - 1) h3))
    as (h4 & Hrun & Hcounts & Htot & Hg & Hs & _).
  rewrite Hrun. cbn [final].
  split.
  - unfold recordValue, recordSingleValue, bind at 1, liftR. rewrite Hi.
    unfold bind at 1, get. unfold bind at 1.
    destruct (Z.leb_spec h.(countsArrayLength) i); [|lia].
    unfold handleRecordException, bind at 1, get. rewrite Har. cbn [negb].
    unfold bind at 1. rewrite Hres.
    unfold bind at 1, liftR.
    change (countsArrayIndex h2 v) with (countsArrayIndex h v). rewrite Hi.
    unfold bind at 1. rewrite (addToCountAtIndex_wraps h2 i 0 1 Hget0).
    change (counterBits h2) with (counterBits h). fold h3.
    unfold modify at 1. cbv beta. rewrite Hhigh.
    cbn [subBucketHalfCountMagnitude unitMagnitude bucketCount h3 h2 set_counts
         set_highestTrackableValue set_bucketCount set_countsArrayLength].
    unfold bind. rewrite Hrun. unfold incrementTotalCount, modify.
    rewrite Htot. reflexivity.
  - unfold sizing in Hs. injection Hs as Hs1 Hs2 Hs3. cbn in Hs1, Hs2, Hs3.
    cbn [countsArrayLength bucketCount highestTrackableValue counts totalCount
         set_totalCount].
    rewrite Hs1, Hs2, Hs3, Hcounts.
    split; [exact Hi|]. split; [fold len'; lia|].
    split; [change (geometry h4 = geometry h); rewrite Hg; reflexivity|].
    split; [reflexivity|]. split; [exact HBn|]. split; [exact Hcov|].
    split; [exact Hmin|]. split; [reflexivity|]. split; [reflexivity|].
    split; [|reflexivity].
    cbn. rewrite u64_small by (change (2 ^ 64) with 18446744073709551616; lia).
    reflexivity.
Qed.

Lemma recordValue_auto_resizes_witness :
  exists h h',
    new_Histogram 8 true 0 0 1 1000 0 = Ok h
    /\ recordValue 5000 h = Return tt h'
    /\ h.(countsArrayLength) < h'.(countsArrayLength)
    /\ h'.(totalCount) = 1.
Proof.
  destruct (new_Histogram 8 true 0 0 1 1000 0) as [h|e] eqn:Hnew;
    [|vm_compute in Hnew; discriminate].
  assert (Hwf : well_formed h).
  { apply (new_Histogram_well_formed 8 true 0 0 1 1000 0);
      try (unfold U64_MAX_VALUE; lia). exact Hnew. }
  vm_compute in Hnew. injection Hnew as <-.
  match goal with
  | Hwf : well_formed ?h0 |- _ =>
      destruct (recordValue_auto_resizes h0 5000 Hwf)
        as (h' & n & i & Hrun & _ & Hlen & _ & _ & _ & _ & _ & _ & _ & _ & Htot);
        [reflexivity|lia|vm_compute; discriminate|vm_compute; discriminate|];
        exists h0, h'
  end.
  split; [reflexivity|]. split; [exact Hrun|]. split; [lia|exact Htot].
Defined.

(** ** A count recorded at once, and one by one *)

(** A histogram is its fields. *)
Lemma histogram_eq (h h' : Histogram) :
  geometry h' = geometry h -> sizing h' = sizing h ->
  timeStamps h' = timeStamps h -> h'.(counts) = h.(counts) ->
  h'.(totalCount) = h.(totalCount) -> h'.(maxValue) = h.(maxValue) ->
  h'.(minNonZeroValue) = h.(minNonZeroValue) ->
  h' = h.
Proof.
  destruct h, h'. unfold geometry, sizing, timeStamps. cbn.
  intros [= -> -> -> -> -> -> -> -> -> -> ->] [= -> -> ->] [= -> ->] -> -> -> ->.
  reflexivity.
Qed.

Lemma land_le_l (a b : Z) : 0 <= a -> Z.land a b <= a.
Proof.
  intros Ha.
  pose proof (Z.add_lor_land (Z.ldiff a b) (Z.land a b)) as Hadd.
  rewrite Z.lor_ldiff_and in Hadd.
  replace (Z.land (Z.ldiff a b) (Z.land a b)) with 0 in Hadd.
  - assert (0 <= Z.ldiff a b) by (apply Z.ldiff_nonneg; left; exact Ha). lia.
  - rewrite (Z.land_comm a b), Z.land_assoc, Z.land_ldiff. reflexivity.
Qed.

(** On a counter of at most 64 bits, incrementing is adding one. *)
Lemma incrementCountAtIndex_is_add (h : Histogram) (index : Z) :
  0 <= h.(counterBits) <= 64 ->
  incrementCountAtIndex index h = addToCountAtIndex index 1 h.
Proof.
  intros HW. unfold incrementCountAtIndex, addToCountAtIndex, bind, get.
  destruct (array_get h.(counts) index) as [c|]; [|reflexivity].
  pose proof (wrapU_range h.(counterBits) (c + 1) ltac:(lia)).
  pose proof (u64_range (c + 1)).
  destruct (Z.ltb_spec (wrapU h.(counterBits) (c + 1)) 0); [lia|].
  destruct (Z.ltb_spec (u64 (c + 1)) 0); [lia|].
  rewrite wrapU_u64 by exact HW. reflexivity.
Qed.

(** [recordValue(v)] is [recordCountAtValue(1, v)], failures included. *)
Lemma recordValue_is_count_one (h : Histogram) (v : Z) :
  0 <= h.(counterBits) <= 64 ->
  recordValue v h = recordCountAtValue 1 v h.
Proof.
  intros HW. unfold recordValue, recordSingleValue, recordCountAtValue.
  unfold bind at 1 5, liftR.
  destruct (countsArrayIndex h v) as [i|e]; [|reflexivity].
  unfold bind at 1 4, get. unfold bind at 1 3.
  destruct (h.(countsArrayLength) <=? i); [reflexivity|].
  rewrite (incrementCountAtIndex_is_add h i HW). reflexivity.
Qed.

(** Two counts recorded at one value inside the counts array are their sum
    recorded at once. *)
Lemma recordCountAtValue_twice (h h1 : Histogram) (a b v : Z) :
  well_formed h -> 0 <= v < 2 ^ 48 ->
  v < 2 ^ (h.(subBucketHalfCountMagnitude) + h.(unitMagnitude) + h.(bucketCount)) ->
  recordCountAtValue a v h = Return tt h1 ->
  recordCountAtValue b v h1 = recordCountAtValue (a + b) v h.
Proof.
  intros Hwf Hv Hcov Hrun1.
  pose proof (wf_layout h Hwf) as Hok. pose proof (wf_width h Hwf) as HW.
  pose proof (wf_length h Hwf) as Hlen.
  pose proof (layout_bounds h Hok) as (Hhm & Hum & HB & Htop & Hfit).
  destruct (index_of_value h v Hok Hv) as (i & Hi & Hi0 & Hiff).
  apply Hiff in Hcov as Hin.
  assert (Hget : exists c, array_get h.(counts) i = Some c).
  { unfold array_get. destruct (Z.ltb_spec i 0); [lia|].
    apply lookup_lt_is_Some_2. lia. }
  destruct Hget as [c Hc].
  destruct (recordCountAtValue_in_range h a v i c Hi Hin Hc)
    as (h1' & Hrun1' & Hc1 & Ht1 & Hg1 & Hs1 & Hts1 & Hmax1 & Hmin1).
  assert (h1' = h1) by congruence. subst h1'.
  destruct (recordCountAtValue_in_range h (a + b) v i c Hi Hin Hc)
    as (h3 & Hrun3 & Hc3 & Ht3 & Hg3 & Hs3 & Hts3 & Hmax3 & Hmin3).
  assert (Hi1 : countsArrayIndex h1 v = Ok i).
  { rewrite (countsArrayIndex_geometry h h1 v Hg1). exact Hi. }
  assert (Hfields : h1.(countsArrayLength) = h.(countsArrayLength)
                    /\ h1.(counterBits) = h.(counterBits)
                    /\ h1.(unitMagnitudeMask) = h.(unitMagnitudeMask)).
  { unfold sizing in Hs1. unfold geometry in Hg1.
    injection Hs1 as _ _ ->. injection Hg1 as _ _ _ _ _ _ _ _ _ -> ->.
    repeat split; reflexivity. }
  destruct Hfields as (Hlen1 & HW1 & Hmask1).
  assert (Hget1 : array_get h1.(counts) i
                  = Some (wrapU h.(counterBits) (u64 (c + a)))).
  { unfold array_get. destruct (Z.ltb_spec i 0); [lia|].
    rewrite Hc1. unfold array_set. apply list_lookup_insert_eq. lia. }
  destruct (recordCountAtValue_in_range h1 b v i _ Hi1 ltac:(lia) Hget1)
    as (h2 & Hrun2 & Hc2 & Ht2 & Hg2 & Hs2 & Hts2 & Hmax2 & Hmin2).
  rewrite Hrun2, Hrun3. f_equal.
  assert (Hmask : h.(unitMagnitudeMask) = 2 ^ h.(unitMagnitude) - 1)
    by apply (lo_mask h (lo_base h Hok)).
  assert (Hm62 : 0 < 2 ^ h.(unitMagnitude) <= 2 ^ 62).
  { split; [apply pow2_pos; lia|apply pow2_le; lia]. }
  change (2 ^ 62) with 4611686018427387904 in Hm62.
  change (2 ^ 48) with 281474976710656 in Hv.
  apply histogram_eq.
  - rewrite Hg2, Hg1, Hg3. reflexivity.
  - rewrite Hs2, Hs1, Hs3. reflexivity.
  - rewrite Hts2, Hts1, Hts3. reflexivity.
  - rewrite Hc2, Hc1, Hc3, HW1. unfold array_set.
    rewrite list_insert_insert_eq. f_equal.
    rewrite !wrapU_u64 by exact HW. unfold wrapU.
    rewrite Zplus_mod_idemp_l. f_equal. lia.
  - rewrite Ht2, Ht1, Ht3, u64_add_idemp. f_equal. lia.
  - rewrite Hmax2, Hmax3, Hmax1, Hmask1.
    destruct (Z.ltb_spec h.(maxValue) v) as [Hlt|Hge].
    + rewrite (u64_small (v + h.(unitMagnitudeMask)))
        by (change (2 ^ 64) with 18446744073709551616; lia).
      destruct (Z.ltb_spec (v + h.(unitMagnitudeMask)) v); [lia|reflexivity].
    + destruct (Z.ltb_spec h.(maxValue) v); [lia|reflexivity].
  - rewrite Hmin2, Hmin3, Hmin1, Hmask1.
    destruct ((v <? h.(minNonZeroValue)) && negb (v =? 0)
              && negb (v <=? h.(unitMagnitudeMask))) eqn:Hcond.
    + pose proof (land_le_l v (u64 (Z.lnot h.(unitMagnitudeMask))) ltac:(lia)).
      destruct (Z.ltb_spec v (Z.land v (u64 (Z.lnot h.(unitMagnitudeMask)))));
        [lia|reflexivity].
    + rewrite Hcond. reflexivity.
Qed.

(** A count of zero recorded at a value inside the counts array is
    [updateMinAndMax] alone: the counters and [totalCount] stay. *)
Lemma recordCountAtValue_zero (h : Histogram) (v : Z) :
  well_formed h -> 0 <= h.(totalCount) < 2 ^ 64 -> 0 <= v < 2 ^ 48 ->
  v < 2 ^ (h.(subBucketHalfCountMagnitude) + h.(unitMagnitude) + h.(bucketCount)) ->
  recordCountAtValue 0 v h = updateMinAndMax v h.
Proof.
  intros Hwf Htot Hv Hcov.
  pose proof (wf_layout h Hwf) as Hok. pose proof (wf_width h Hwf) as HW.
  pose proof (wf_length h Hwf) as Hlen. pose proof (wf_range h Hwf) as Hrange.
  destruct (index_of_value h v Hok Hv) as (i & Hi & Hi0 & Hiff).
  apply Hiff in Hcov as Hin.
  assert (Hget : exists c, h.(counts) !! Z.to_nat i = Some c
                           /\ 0 <= c < 2 ^ h.(counterBits)).
  { destruct (lookup_lt_is_Some_2 h.(counts) (Z.to_nat i)) as [c Hc]; [lia|].
    exists c. split; [exact Hc|].
    apply (proj1 (Forall_lookup _ _) Hrange (Z.to_nat i) c Hc). }
  destruct Hget as (c & Hc & Hcr).
  assert (Hc' : array_get h.(counts) i = Some c).
  { unfold array_get. destruct (Z.ltb_spec i 0); [lia|exact Hc]. }
  destruct (recordCountAtValue_in_range h 0 v i c Hi Hin Hc')
    as (h1 & Hrun1 & Hc1 & Ht1 & Hg1 & Hs1 & Hts1 & Hmax1 & Hmin1).
  destruct (updateMinAndMax_fields v h)
    as (h2 & Hrun2 & Hc2 & Ht2 & Hg2 & Hs2 & Hts2 & Hmax2 & Hmin2).
  rewrite Hrun1, Hrun2. f_equal.
  assert (Hpow : 2 ^ h.(counterBits) <= 2 ^ 64) by (apply pow2_le; lia).
  apply histogram_eq.
  - rewrite Hg1, Hg2. reflexivity.
  - rewrite Hs1, Hs2. reflexivity.
  - rewrite Hts1, Hts2. reflexivity.
  - rewrite Hc1, Hc2. unfold array_set. apply list_insert_id.
    rewrite Hc. f_equal. rewrite Z.add_0_r, u64_small by lia.
    symmetry. apply wrapU_small. exact Hcr.
  - rewrite Ht1, Ht2, Z.add_0_r. apply u64_small. exact Htot.
  - rewrite Hmax1, Hmax2. reflexivity.
  - rewrite Hmin1, Hmin2. reflexivity.
Qed.

(** [recordCountAtValue(n, v)], for a value inside the counts array.  With
    a count [n >= 1] it leaves the histogram that [n] calls of
    [recordValue(v)] leave.  With the count zero it is [updateMinAndMax(v)]
    and nothing else: the counters and [totalCount] stay, and [maxValue]
    and [minNonZeroValue] are updated as for a recorded value, which no call
    of [recordValue] at all does not do. *)
Theorem recordCountAtValue_is_repeated_recordValue (h : Histogram) (v : Z) (n : nat) :
  well_formed h -> 0 <= h.(totalCount) < 2 ^ 64 -> 0 <= v < 2 ^ 48 ->
  v < 2 ^ (h.(subBucketHalfCountMagnitude) + h.(unitMagnitude) + h.(bucketCount)) ->
  ((1 <= n)%nat ->
   recordCountAtValue (Z.of_nat n) v h = recordValues (replicate n v) h)
  /\ recordCountAtValue 0 v h = updateMinAndMax v h
  /\ (h.(maxValue) < v ->
      exists h', recordCountAtValue 0 v h = Return tt h'
                 /\ h'.(maxValue) = v + h.(unitMagnitudeMask)
                 /\ h'.(counts) = h.(counts)
                 /\ h'.(totalCount) = h.(totalCount)).
Proof.
  intros Hwf Htot Hv Hcov.
  split; [|split; [apply recordCountAtValue_zero; assumption|]].
  - intros Hn. clear Htot. revert h Hwf Hcov.
    induction n as [|n IH]; [lia|]. intros h Hwf Hcov.
    pose proof (wf_width h Hwf) as HW.
    change (recordValues (replicate (S n) v) h)
      with (bind (recordValue v) (fun _ => recordValues (replicate n v)) h).
    unfold bind. rewrite (recordValue_is_count_one h v HW).
    destruct n as [|n].
    + change (recordValues (replicate 0 v)) with (@ret unit tt).
      change (Z.of_nat 1) with 1.
      destruct (recordCountAtValue 1 v h) as [[] h'|]; reflexivity.
    + pose proof (wf_layout h Hwf) as Hok. pose proof (wf_length h Hwf) as Hlen.
      destruct (index_of_value h v Hok Hv) as (i & Hi & Hi0 & Hiff).
      apply Hiff in Hcov as Hin.
      assert (Hget : exists c, array_get h.(counts) i = Some c).
      { unfold array_get. destruct (Z.ltb_spec i 0); [lia|].
        apply lookup_lt_is_Some_2. lia. }
      destruct Hget as [c Hc].
      destruct (recordCountAtValue_in_range h 1 v i c Hi Hin Hc)
        as (h1 & Hrun1 & _ & _ & Hg1 & Hs1 & _).
      rewrite Hrun1.
      assert (Hwf1 : well_formed h1)
        by apply (keeps_recordCountAtValue 1 v h Hwf tt h1 Hrun1).
      assert (Hcov1 : v < 2 ^ (h1.(subBucketHalfCountMagnitude) + h1.(unitMagnitude)
                               + h1.(bucketCount))).
      { unfold sizing in Hs1. unfold geometry in Hg1.
        injection Hs1 as _ -> _. injection Hg1 as _ _ _ _ _ -> -> _ _ _ _.
        exact Hcov. }
      rewrite <- (IH ltac:(lia) h1 Hwf1 Hcov1).
      rewrite (recordCountAtValue_twice h h1 1 (Z.of_nat (S n)) v Hwf Hv Hcov Hrun1).
      f_equal. lia.
  - intros Hmax. rewrite (recordCountAtValue_zero h v Hwf Htot Hv Hcov).
    destruct (updateMinAndMax_fields v h)
      as (h2 & Hrun2 & Hc2 & Ht2 & _ & _ & _ & Hmax2 & _).
    exists h2. split; [exact Hrun2|]. split; [|split; assumption].
    rewrite Hmax2. destruct (Z.ltb_spec h.(maxValue) v); [|lia].
    pose proof (wf_layout h Hwf) as Hok.
    pose proof (layout_bounds h Hok) as (_ & Hum & _).
    rewrite (lo_mask h (lo_base h Hok)).
    assert (0 < 2 ^ h.(unitMagnitude) <= 2 ^ 62)
      by (split; [apply pow2_pos; lia|apply pow2_le; lia]).
    apply u64_small. change (2 ^ 62) with 4611686018427387904 in *.
    change (2 ^ 48) with 281474976710656 in Hv.
    change (2 ^ 64) with 18446744073709551616. lia.
Qed.

Lemma recordCountAtValue_is_repeated_recordValue_witness :
  exists h h0,
    new_Histogram 8 false 0 0 1 1000 0 = Ok h
    /\ recordCountAtValue 3 7 h = recordValues [7; 7; 7] h
    /\ recordCountAtValue 0 7 h = Return tt h0
    /\ h0.(maxValue) = 7 /\ h0.(totalCount) = 0.
Proof.
  destruct (new_Histogram 8 false 0 0 1 1000 0) as [h|e] eqn:Hnew;
    [|vm_compute in Hnew; discriminate].
  assert (Hwf : well_formed h).
  { apply (new_Histogram_well_formed 8 false 0 0 1 1000 0);
      try (unfold U64_MAX_VALUE; lia). exact Hnew. }
  destruct (recordCountAtValue_is_repeated_recordValue h 7 3 Hwf)
    as (Hmany & _ & Hzero);
    [vm_compute in Hnew; injection Hnew as <-; vm_compute;
     split; [discriminate|reflexivity]
    |lia
    |vm_compute in Hnew; injection Hnew as <-; vm_compute; reflexivity|].
  destruct Hzero as (h0 & Hrun0 & Hmax0 & _ & Htot0).
  { vm_compute in Hnew. injection Hnew as <-. vm_compute. reflexivity. }
  exists h, h0. split; [reflexivity|]. split; [apply Hmany; lia|].
  split; [exact Hrun0|].
  vm_compute in Hnew. injection Hnew as <-.
  split; [rewrite Hmax0|rewrite Htot0]; reflexivity.
Defined.

(** ** A list of recorded values *)

Lemma recordedAt_cons (h : Histogram) (index v : Z) (values : list Z) :
  recordedAt h index (v :: values)
  = (if hasIndex h index v then 1 else 0) + recordedAt h index values.
Proof.
  unfold recordedAt. cbn [List.filter].
  destruct (hasIndex h index v); cbn [length]; lia.
Qed.

Lemma recordedAt_geometry (h h' : Histogram) (index : Z) (values : list Z) :
  geometry h' = geometry h -> recordedAt h' index values = recordedAt h index values.
Proof.
  intros Hg. induction values as [|v values IH]; [reflexivity|].
  rewrite !recordedAt_cons, IH. unfold hasIndex.
  rewrite (countsArrayIndex_geometry h h' v Hg). reflexivity.
Qed.

(** The histogram counts what it is given: after [recordValue] on each
    value of a list, all of them below [2^48] and below the end of the top
    bucket, every counter has grown by the number of values of the list that
    have its index (modulo the counter width), whatever their order, and
    [totalCount] by the length of the list. *)
Theorem recordValues_counts_by_index (values : list Z) :
  forall h : Histogram,
    well_formed h -> 0 <= h.(totalCount) < 2 ^ 64 ->
    Forall (fun v => 0 <= v < 2 ^ 48
                     /\ v < 2 ^ (h.(subBucketHalfCountMagnitude) + h.(unitMagnitude)
                                 + h.(bucketCount))) values ->
    exists h',
      recordValues values h = Return tt h'
      /\ h'.(totalCount) = u64 (h.(totalCount) + Z.of_nat (length values))
      /\ geometry h' = geometry h /\ sizing h' = sizing h
      /\ forall j c,
           array_get h.(counts) j = Some c ->
           array_get h'.(counts) j
           = Some (wrapU h.(counterBits) (c + recordedAt h j values)).
Proof.
  induction values as [|v values IH]; intros h Hwf Htot Hall.
  - exists h. split; [reflexivity|]. cbn [length].
    split; [rewrite Z.add_0_r, u64_small by exact Htot; reflexivity|].
    split; [reflexivity|]. split; [reflexivity|].
    intros j c Hc. rewrite Hc. f_equal.
    change (recordedAt h j []) with 0. rewrite Z.add_0_r. symmetry.
    apply wrapU_small. unfold array_get in Hc.
    destruct (j <? 0); [discriminate|].
    apply (proj1 (Forall_lookup _ _) (wf_range h Hwf) (Z.to_nat j) c Hc).
  - apply Forall_cons in Hall as [[Hv Hcov] Hall].
    pose proof (wf_layout h Hwf) as Hok. pose proof (wf_width h Hwf) as HW.
    pose proof (wf_length h Hwf) as Hlen.
    destruct (index_of_value h v Hok Hv) as (i & Hi & Hi0 & Hiff).
    apply Hiff in Hcov as Hin.
    assert (Hget : exists c, array_get h.(counts) i = Some c).
    { unfold array_get. destruct (Z.ltb_spec i 0); [lia|].
      apply lookup_lt_is_Some_2. lia. }
    destruct Hget as [ci Hci].
    destruct (recordSingleValue_in_range h v i ci ltac:(lia) Hi Hin Hci)
      as (h1 & Hrun1 & Hc1 & Ht1 & Hg1 & Hs1 & _).
    assert (Hwf1 : well_formed h1)
      by apply (keeps_recordSingleValue v h Hwf tt h1 Hrun1).
    assert (Hfields : h1.(subBucketHalfCountMagnitude) = h.(subBucketHalfCountMagnitude)
                      /\ h1.(unitMagnitude) = h.(unitMagnitude)
                      /\ h1.(bucketCount) = h.(bucketCount)
                      /\ h1.(counterBits) = h.(counterBits)).
    { unfold sizing in Hs1. unfold geometry in Hg1.
      injection Hs1 as _ -> _. injection Hg1 as _ _ _ _ _ -> -> _ _ _ ->.
      repeat split; reflexivity. }
    destruct Hfields as (Hhm1 & Hum1 & HB1 & HW1).
    destruct (IH h1 Hwf1) as (h' & Hrun & Ht & Hg & Hs & Hcounts).
    { rewrite Ht1. apply u64_range. }
    { rewrite Hhm1, Hum1, HB1. exact Hall. }
    exists h'. split.
    { change (recordValues (v :: values) h)
        with (bind (recordValue v) (fun _ => recordValues values) h).
      unfold bind, recordValue. rewrite Hrun1. exact Hrun. }
    split.
    { rewrite Ht, Ht1, u64_add_idemp. f_equal. cbn [length]. lia. }
    split; [rewrite Hg; exact Hg1|]. split; [rewrite Hs; exact Hs1|].
    intros j c Hc. rewrite recordedAt_cons. unfold hasIndex at 1. rewrite Hi.
    rewrite <- (recordedAt_geometry h h1 j values Hg1).
    unfold array_get in Hc. destruct (Z.ltb_spec j 0) as [|Hj0]; [discriminate|].
    destruct (Z.eqb_spec i j) as [->|Hne].
    + assert (c = ci).
      { unfold array_get in Hci. destruct (Z.ltb_spec j 0); [lia|]. congruence. }
      subst ci.
      rewrite (Hcounts j (wrapU h.(counterBits) (c + 1))).
      * f_equal. rewrite HW1. unfold wrapU. rewrite Zplus_mod_idemp_l.
        f_equal. lia.
      * unfold array_get. destruct (Z.ltb_spec j 0); [lia|].
        rewrite Hc1. unfold array_set. apply list_lookup_insert_eq.
        apply lookup_lt_Some in Hc. lia.
    + rewrite (Hcounts j c).
      * rewrite HW1. reflexivity.
      * unfold array_get. destruct (Z.ltb_spec j 0); [lia|].
        rewrite Hc1. unfold array_set. rewrite list_lookup_insert_ne by lia.
        exact Hc.
Qed.

Lemma recordValues_counts_by_index_witness :
  exists h h',
    new_Histogram 8 false 0 0 1 1000 0 = Ok h
    /\ recordValues [5; 900; 5] h = Return tt h'
    /\ h'.(totalCount) = 3
    /\ array_get h'.(counts) 3 = Some 2.
Proof.
  destruct (new_Histogram 8 false 0 0 1 1000 0) as [h|e] eqn:Hnew;
    [|vm_compute in Hnew; discriminate].
  assert (Hwf : well_formed h).
  { apply (new_Histogram_well_formed 8 false 0 0 1 1000 0);
      try (unfold U64_MAX_VALUE; lia). exact Hnew. }
  vm_compute in Hnew. injection Hnew as <-.
  match goal with
  | Hwf : well_formed ?h0 |- _ =>
      destruct (recordValues_counts_by_index [5; 900; 5] h0 Hwf)
        as (h' & Hrun & Htot & _ & _ & Hcounts);
        [vm_compute; split; [discriminate|reflexivity]
        |repeat constructor; vm_compute; reflexivity || discriminate
        |exists h0, h']
  end.
  split; [reflexivity|]. split; [exact Hrun|]. split; [exact Htot|].
  rewrite (Hcounts 3 0 eq_refl). vm_compute. reflexivity.
Defined.

(** ** Histograms that do not resize *)

Lemma fixed_size_autoResize (h0 h : Histogram) :
  fixed_size h0 h -> h.(autoResize) = false.
Proof.
  intros (Har & Hg & _). unfold geometry in Hg.
  injection Hg as -> _ _ _ _ _ _ _ _ _ _. exact Har.
Qed.

Lemma fixed_size_other_fields (h0 h : Histogram) (f : Histogram -> Histogram) :
  fixed_size h0 h ->
  geometry (f h) = geometry h -> sizing (f h) = sizing h ->
  length (f h).(counts) = length h.(counts) ->
  fixed_size h0 (f h).
Proof.
  intros (Har & Hg & Hs & Hl) Hg' Hs' Hl'.
  repeat split; [exact Har|congruence..].
Qed.

Lemma fixed_incrementCountAtIndex (h0 : Histogram) (index : Z) (h : Histogram) :
  fixed_size h0 h -> keeps (fixed_size h0) (incrementCountAtIndex index) h.
Proof.
  intros Hf. unfold incrementCountAtIndex. apply keeps_get_bind.
  destruct (array_get _ _); [|apply keeps_throw].
  destruct (_ <? 0); [apply keeps_throw|]. apply keeps_modify.
  apply (fixed_size_other_fields h0 h _ Hf); try reflexivity.
  cbn. unfold array_set. apply length_insert.
Qed.

Lemma fixed_addToCountAtIndex (h0 : Histogram) (index value : Z) (h : Histogram) :
  fixed_size h0 h -> keeps (fixed_size h0) (addToCountAtIndex index value) h.
Proof.
  intros Hf. unfold addToCountAtIndex. apply keeps_get_bind.
  destruct (array_get _ _); [|apply keeps_throw].
  destruct (_ <? 0); [apply keeps_throw|]. apply keeps_modify.
  apply (fixed_size_other_fields h0 h _ Hf); try reflexivity.
  cbn. unfold array_set. apply length_insert.
Qed.

Lemma fixed_updateMinAndMax (h0 : Histogram) (value : Z) (h : Histogram) :
  fixed_size h0 h -> keeps (fixed_size h0) (updateMinAndMax value) h.
Proof.
  intros Hf a h' Hrun.
  destruct (updateMinAndMax_fields value h) as (h1 & Hrun1 & Hc & _ & Hg & Hs & _).
  assert (h1 = h') by congruence. subst h1.
  destruct Hf as (Har & Hg0 & Hs0 & Hl0).
  repeat split; [exact Har|congruence..].
Qed.

Lemma fixed_handleRecordException (h0 : Histogram) (count value : Z) (h : Histogram) :
  fixed_size h0 h -> keeps (fixed_size h0) (handleRecordException count value) h.
Proof.
  intros Hf. unfold handleRecordException. apply keeps_get_bind.
  rewrite (fixed_size_autoResize h0 h Hf). apply keeps_throw.
Qed.

Lemma fixed_recordSingleValue (h0 : Histogram) (value : Z) (h : Histogram) :
  fixed_size h0 h -> keeps (fixed_size h0) (recordSingleValue value) h.
Proof.
  intros Hf. unfold recordSingleValue.
  apply (keeps_bind _ (fixed_size h0)); [apply keeps_liftR; exact Hf|].
  intros idx h1 Hf1. apply keeps_get_bind.
  apply (keeps_bind _ (fixed_size h0)).
  { destruct (_ <=? _).
    - apply fixed_handleRecordException. exact Hf1.
    - apply fixed_incrementCountAtIndex. exact Hf1. }
  intros _ h2 Hf2.
  apply (keeps_bind _ (fixed_size h0)); [apply fixed_updateMinAndMax; exact Hf2|].
  intros _ h3 Hf3. apply keeps_modify.
  apply (fixed_size_other_fields h0 h3 _ Hf3); reflexivity.
Qed.

Lemma fixed_recordCountAtValue (h0 : Histogram) (count value : Z) (h : Histogram) :
  fixed_size h0 h -> keeps (fixed_size h0) (recordCountAtValue count value) h.
Proof.
  intros Hf. unfold recordCountAtValue.
  apply (keeps_bind _ (fixed_size h0)); [apply keeps_liftR; exact Hf|].
  intros idx h1 Hf1. apply keeps_get_bind.
  apply (keeps_bind _ (fixed_size h0)).
  { destruct (_ <=? _).
    - apply fixed_handleRecordException. exact Hf1.
    - apply fixed_addToCountAtIndex. exact Hf1. }
  intros _ h2 Hf2.
  apply (keeps_bind _ (fixed_size h0)); [apply fixed_updateMinAndMax; exact Hf2|].
  intros _ h3 Hf3. apply keeps_modify.
  apply (fixed_size_other_fields h0 h3 _ Hf3); reflexivity.
Qed.

Lemma fixed_reset (h0 h : Histogram) :
  fixed_size h0 h -> keeps (fixed_size h0) reset h.
Proof.
  intros (Har & Hg & Hs & Hl) a h' [= _ <-].
  repeat split; [exact Har|exact Hg|exact Hs|].
  cbn. rewrite length_replicate. exact Hl.
Qed.

Lemma fixed_addCountsLoop (h0 other : Histogram) (n : nat) :
  forall (i observed : Z) (h : Histogram),
    fixed_size h0 h -> keeps (fixed_size h0) (addCountsLoop other n i observed) h.
Proof.
  induction n as [|n IH]; intros i observed h Hf; cbn [addCountsLoop].
  - apply keeps_ret. exact Hf.
  - apply (keeps_bind _ (fixed_size h0)); [apply keeps_liftR; exact Hf|].
    intros c h1 Hf1. destruct (0 <? c); [|apply IH; exact Hf1].
    apply (keeps_bind _ (fixed_size h0)); [apply fixed_addToCountAtIndex; exact Hf1|].
    intros _ h2 Hf2. apply IH. exact Hf2.
Qed.

Lemma fixed_recordCountsLoop (h0 other : Histogram) (n : nat) :
  forall (i : Z) (h : Histogram),
    fixed_size h0 h -> keeps (fixed_size h0) (recordCountsLoop other n i) h.
Proof.
  induction n as [|n IH]; intros i h Hf; cbn [recordCountsLoop].
  - apply keeps_ret. exact Hf.
  - apply (keeps_bind _ (fixed_size h0)); [apply keeps_liftR; exact Hf|].
    intros c h1 Hf1.
    apply (keeps_bind _ (fixed_size h0)).
    { destruct (0 <? c); [|apply keeps_ret; exact Hf1].
      apply fixed_recordCountAtValue. exact Hf1. }
    intros _ h2 Hf2. apply IH. exact Hf2.
Qed.

Lemma fixed_add (h0 other : Histogram) (h : Histogram) :
  fixed_size h0 h -> keeps (fixed_size h0) (add other) h.
Proof.
  intros Hf. unfold add. apply keeps_get_bind.
  apply (keeps_bind _ (fixed_size h0)).
  { destruct (_ <? _); [|apply keeps_ret; exact Hf].
    rewrite (fixed_size_autoResize h0 h Hf). apply keeps_throw. }
  intros _ h1 Hf1. apply keeps_get_bind.
  apply (keeps_bind _ (fixed_size h0)).
  - destruct (_ && _).
    + apply (keeps_bind _ (fixed_size h0)); [apply fixed_addCountsLoop; exact Hf1|].
      intros observed h2 Hf2.
      apply (keeps_bind _ (fixed_size h0)).
      { apply keeps_modify. apply (fixed_size_other_fields h0 h2 _ Hf2); reflexivity. }
      intros _ h3 Hf3. apply keeps_get_bind.
      apply (keeps_bind _ (fixed_size h0)).
      { unfold updatedMaxValue. apply keeps_get_bind. apply keeps_modify.
        apply (fixed_size_other_fields h0 h3 _ Hf3); reflexivity. }
      intros _ h4 Hf4. apply keeps_get_bind.
      unfold updateMinNonZeroValue. apply keeps_get_bind.
      destruct (_ <=? _); [apply keeps_ret; exact Hf4|].
      apply keeps_modify. apply (fixed_size_other_fields h0 h4 _ Hf4); reflexivity.
    + apply (keeps_bind _ (fixed_size h0)); [apply keeps_liftR; exact Hf1|].
      intros idx h2 Hf2.
      apply (keeps_bind _ (fixed_size h0)); [apply keeps_liftR; exact Hf2|].
      intros c h3 Hf3.
      apply (keeps_bind _ (fixed_size h0)); [apply fixed_recordCountAtValue; exact Hf3|].
      intros _ h4 Hf4. apply fixed_recordCountsLoop. exact Hf4.
  - intros _ h2 Hf2. apply keeps_modify.
    apply (fixed_size_other_fields h0 h2 _ Hf2); reflexivity.
Qed.

Lemma fixed_performAll (h0 : Histogram) (ops : list Operation) :
  forall h, fixed_size h0 h -> keeps (fixed_size h0) (performAll ops) h.
Proof.
  induction ops as [|op ops IH]; intros h Hf; cbn [performAll].
  - apply keeps_ret. exact Hf.
  - apply (keeps_bind _ (fixed_size h0)); [|intros _ h1 Hf1; apply IH; exact Hf1].
    destruct op as [v|c v|other|]; cbn [perform].
    + apply fixed_recordSingleValue. exact Hf.
    + apply fixed_recordCountAtValue. exact Hf.
    + apply fixed_add. exact Hf.
    + apply fixed_reset. exact Hf.
Qed.

(** [reset] undoes every sequence of operations on a histogram that does
    not resize: whatever [recordValue], [recordCountAtValue], [add] and
    [reset] calls have returned since its construction, [reset] brings back
    the constructed histogram, with both time stamps at 0. *)
Theorem reset_restores_constructed_histogram (W : Z)
  (s0 e0 lowest highest digits : Z) (ops : list Operation) (h h' : Histogram) :
  1 <= lowest -> 2 * lowest <= highest -> highest <= U64_MAX_VALUE ->
  0 <= digits <= 5 ->
  new_Histogram W false s0 e0 lowest highest digits = Ok h ->
  performAll ops h = Return tt h' ->
  reset h' = Return tt (set_timeStamps 0 0 h).
Proof.
  intros HL HH Hmax Hd Hnew Hrun.
  destruct (new_Histogram_fresh W false s0 e0 lowest highest digits h HL HH Hmax Hd Hnew)
    as (Hok & Har & _ & Hcounts & Htot & Hmaxv & Hmin & _).
  assert (Hf : fixed_size h h) by (repeat split; assumption).
  pose proof (fixed_performAll h ops h Hf tt h' Hrun) as (_ & Hg & Hs & Hl).
  unfold reset, clearCounts, bind, modify. f_equal.
  apply histogram_eq; cbn.
  - exact Hg.
  - exact Hs.
  - reflexivity.
  - rewrite Hl, Hcounts. unfold instantiate. rewrite length_replicate. reflexivity.
  - symmetry. exact Htot.
  - symmetry. exact Hmaxv.
  - symmetry. exact Hmin.
Qed.

(** ** The target count of a percentile *)

Lemma digits2_pos_lower (m : positive) :
  2 ^ (Z.pos (digits2_pos m) - 1) <= Z.pos m.
Proof.
  induction m as [m IH|m IH|]; cbn [digits2_pos]; [| |reflexivity].
  - rewrite Pos2Z.inj_succ.
    replace (Z.succ (Z.pos (digits2_pos m)) - 1)
      with (1 + (Z.pos (digits2_pos m) - 1)) by lia.
    rewrite Z.pow_add_r by lia. change (2 ^ 1) with 2. lia.
  - rewrite Pos2Z.inj_succ.
    replace (Z.succ (Z.pos (digits2_pos m)) - 1)
      with (1 + (Z.pos (digits2_pos m) - 1)) by lia.
    rewrite Z.pow_add_r by lia. change (2 ^ 1) with 2. lia.
Qed.

(** [<u64>max(x, 1)] is at least 1 whenever the conversion has a value. *)
Lemma u64_of_max_one (x : f64) (t : Z) :
  u64_of_f64 (f64_max x (f64_of_Z 1)) = Ok t -> 1 <= t.
Proof.
  assert (Hone : f64_of_Z 1 = PrimFloat.one) by (vm_compute; reflexivity).
  rewrite Hone. unfold f64_max.
  destruct (PrimFloat.is_nan x || PrimFloat.is_nan PrimFloat.one).
  { intros H. vm_compute in H. discriminate. }
  destruct (PrimFloat.ltb PrimFloat.one x) eqn:Hlt.
  - rewrite ltb_spec in Hlt.
    change (Prim2SF PrimFloat.one) with (S754_finite false 4503599627370496 (-52))
      in Hlt.
    pose proof (Prim2SF_valid x) as Hvalid.
    unfold u64_of_f64.
    destruct (Prim2SF x) as [s|s| |s m e]; try discriminate.
    destruct s; [discriminate|].
    unfold SFltb, SFcompare in Hlt.
    unfold SpecFloat.valid_binary, bounded, canonical_mantissa, fexp, SpecFloat.emin,
      prec, emax in Hvalid.
    apply andb_prop in Hvalid as [Hcanon _]. apply Z.eqb_eq in Hcanon.
    pose proof (digits2_pos_lower m) as Hm.
    destruct (Z.leb_spec 0 e) as [He|He].
    + destruct (Z.ltb_spec (Z.pos m * 2 ^ e) (2 ^ 64)); [|discriminate].
      intros [= <-]. assert (0 < 2 ^ e) by (apply Z.pow_pos_nonneg; lia). nia.
    + destruct (Z.ltb_spec (Z.pos m / 2 ^ (- e)) (2 ^ 64)); [|discriminate].
      intros [= <-].
      apply Z.div_le_lower_bound; [apply Z.pow_pos_nonneg; lia|].
      rewrite Z.mul_1_r.
      destruct (Z.compare_spec (-52) e) as [Heq|Hl|Hg].
      * subst e.
        change (PosDef.Pos.compare_cont Eq 4503599627370496 m)
          with (Pos.compare 4503599627370496 m) in Hlt.
        destruct (Pos.compare_spec 4503599627370496 m); try discriminate.
        change (- (-52)) with 52. change (2 ^ 52) with 4503599627370496. lia.
      * assert (Hd : Z.pos (digits2_pos m) = 53) by lia.
        rewrite Hd in Hm. change (2 ^ (53 - 1)) with (2 ^ 52) in Hm.
        assert (2 ^ (- e) <= 2 ^ 52) by (apply Z.pow_le_mono_r; lia). lia.
      * discriminate.
  - intros H. vm_compute in H. injection H as <-. lia.
Qed.

Lemma countAtPercentile_at_least_one (h : Histogram) (percentile : f64) (t : Z) :
  countAtPercentile h percentile = Ok t -> 1 <= t.
Proof. unfold countAtPercentile. apply u64_of_max_one. Qed.

(** [getValueAtPercentile] answers with a value that was recorded: its
    target count is at least 1 whatever the percentile, and the answer is
    the end of the equivalent range (the start, for the percentile 0) of the
    first index whose running total reaches the target, an index whose
    counter is not zero; it is 0 when the target is above the sum of the
    counters, as it is on an empty histogram. *)
Theorem percentile_value_comes_from_a_counter (h : Histogram) (percentile : f64)
  (v : Z) :
  well_formed h -> sumOfCounts h < 2 ^ 64 ->
  getValueAtPercentile h percentile = Ok v ->
  exists t,
    countAtPercentile h percentile = Ok t /\ 1 <= t
    /\ ((sumOfCounts h < t /\ v = 0)
        \/ exists k c,
             0 <= k < h.(countsArrayLength)
             /\ array_get h.(counts) k = Some c /\ 0 < c
             /\ totalToIndex h (k - 1) < t <= totalToIndex h k
             /\ v = (if PrimFloat.eqb percentile PrimFloat.zero
                     then lowestEquivalentValue h (valueFromIndex h k)
                     else highestEquivalentValue h (valueFromIndex h k))).
Proof.
  intros Hwf Hsum Hv.
  pose proof (wf_layout h Hwf) as Hok. pose proof (wf_length h Hwf) as Hlen.
  pose proof (layout_bounds h Hok) as (Hhm & Hum & HB & Htop & Hfit).
  assert (Hc : Forall (fun c => 0 <= c) h.(counts)).
  { eapply Forall_impl; [apply (wf_range h Hwf)|]. cbn. intros c Hcr. lia. }
  destruct (countAtPercentile h percentile) as [t|e] eqn:Ht;
    [|unfold getValueAtPercentile in Hv; rewrite Ht in Hv; discriminate].
  pose proof (countAtPercentile_at_least_one h percentile t Ht) as Ht1.
  exists t. split; [reflexivity|]. split; [exact Ht1|].
  assert (Hlen31 : 0 <= h.(countsArrayLength) < 2 ^ 31).
  { rewrite (lo_len h Hok).
    assert (0 < 2 ^ subBucketHalfCountMagnitude h) by (apply pow2_pos; lia).
    assert (2 ^ subBucketHalfCountMagnitude h <= 2 ^ 17) by (apply pow2_le; lia).
    change (2 ^ 17) with 131072 in *. change (2 ^ 31) with 2147483648. nia. }
  assert (Hlen1 : 1 <= h.(countsArrayLength)).
  { rewrite (lo_len h Hok).
    assert (0 < 2 ^ subBucketHalfCountMagnitude h) by (apply pow2_pos; lia). nia. }
  assert (Hcounts : (Z.to_nat h.(countsArrayLength) <= length h.(counts))%nat) by lia.
  destruct (getValueAtPercentile_scan h percentile t Hlen31 Hcounts Ht)
    as [Hfound Hnone].
  assert (Hbound : forall j, totalToIndex h j <= sumOfCounts h).
  { intros j. rewrite totalToIndex_plain by assumption.
    apply sum_take_le. exact Hc. }
  destruct (Z.lt_ge_cases (sumOfCounts h) t) as [Habove|Hreachable].
  - left. split; [exact Habove|].
    rewrite Hnone in Hv; [congruence|].
    intros j _. specialize (Hbound j). lia.
  - right.
    assert (Hlast : totalToIndex h (h.(countsArrayLength) - 1) = sumOfCounts h).
    { rewrite totalToIndex_plain by assumption.
      rewrite take_ge by lia. reflexivity. }
    destruct (first_index (fun i => t <=? totalToIndex h i)
                (Z.to_nat h.(countsArrayLength))) as (k & Hk & HPk & Hfirst).
    { exists (h.(countsArrayLength) - 1). split; [lia|].
      apply Z.leb_le. rewrite Hlast. lia. }
    apply Z.leb_le in HPk.
    assert (Hbelow : forall j, 0 <= j < k -> totalToIndex h j < t).
    { intros j Hj. apply Z.leb_gt. apply Hfirst. exact Hj. }
    assert (Hprev : totalToIndex h (k - 1) < t).
    { destruct (Z.eq_dec k 0) as [->|]; [|apply Hbelow; lia].
      change (totalToIndex h (0 - 1)) with 0. lia. }
    destruct (lookup_lt_is_Some_2 h.(counts) (Z.to_nat k)) as [c Hck]; [lia|].
    assert (Hget : array_get h.(counts) k = Some c).
    { unfold array_get. destruct (Z.ltb_spec k 0); [lia|exact Hck]. }
    exists k, c. split; [lia|]. split; [exact Hget|].
    split.
    + pose proof (proj1 (Forall_lookup _ _) Hc (Z.to_nat k) c Hck) as Hc0.
      cbn in Hc0.
      destruct (Z.eq_dec c 0) as [->|]; [|lia]. exfalso.
      rewrite (totalToIndex_step h k 0 ltac:(lia) Hget) in HPk.
      change (u64 0) with 0 in HPk. rewrite Z.add_0_r in HPk.
      assert (0 <= totalToIndex h (k - 1)).
      { rewrite totalToIndex_plain by assumption.
        apply sum_take_le. exact Hc. }
      specialize (Hbound (k - 1)).
      rewrite u64_small in HPk by lia. lia.
    + split; [lia|].
      rewrite (Hfound k ltac:(lia) HPk Hbelow) in Hv. congruence.
Qed.

Lemma percentile_value_comes_from_a_counter_witness :
  exists h h' v,
    new_Histogram 32 false 0 0 1 1000 0 = Ok h
    /\ recordValue 5 h = Return tt h'
    /\ getValueAtPercentile h' (f64_of_Z 50) = Ok v
    /\ exists t, countAtPercentile h' (f64_of_Z 50) = Ok t /\ 1 <= t.
Proof.
  destruct (new_Histogram 32 false 0 0 1 1000 0) as [h|e] eqn:Hnew;
    [|vm_compute in Hnew; discriminate].
  assert (Hwf : well_formed h).
  { apply (new_Histogram_well_formed 32 false 0 0 1 1000 0);
      try (unfold U64_MAX_VALUE; lia). exact Hnew. }
  destruct (recordValue 5 h) as [[] h'|e h'] eqn:Hrec;
    [|vm_compute in Hnew; injection Hnew as <-; vm_compute in Hrec; discriminate].
  assert (Hwf' : well_formed h')
    by apply (keeps_recordSingleValue 5 h Hwf tt h' Hrec).
  destruct (getValueAtPercentile h' (f64_of_Z 50)) as [v|e] eqn:Hv.
  - exists h, h', v. split; [reflexivity|]. split; [exact Hrec|].
    split; [exact Hv|].
    destruct (percentile_value_comes_from_a_counter h' (f64_of_Z 50) v Hwf')
      as (t & Ht & Ht1 & _); [|exact Hv|exists t; split; assumption].
    vm_compute in Hnew. injection Hnew as <-.
    vm_compute in Hrec. injection Hrec as <-. vm_compute. reflexivity.
  - exfalso. vm_compute in Hnew. injection Hnew as <-.
    vm_compute in Hrec. injection Hrec as <-. vm_compute in Hv. discriminate.
Defined.

Lemma reset_restores_constructed_histogram_witness :
  exists h h',
    new_Histogram 8 false 3 9 1 1000 0 = Ok h
    /\ performAll [RecordValue 5; RecordCountAtValue 300 70] h = Return tt h'
    /\ reset h' = Return tt (set_timeStamps 0 0 h).
Proof.
  destruct (new_Histogram 8 false 3 9 1 1000 0) as [h|e] eqn:Hnew;
    [|vm_compute in Hnew; discriminate].
  destruct (performAll [RecordValue 5; RecordCountAtValue 300 70] h)
    as [[] h'|e h'] eqn:Hrun;
    [|vm_compute in Hnew; injection Hnew as <-; vm_compute in Hrun; discriminate].
  exists h, h'. split; [reflexivity|]. split; [exact Hrun|].
  apply (reset_restores_constructed_histogram 8 3 9 1 1000 0
           [RecordValue 5; RecordCountAtValue 300 70] h h');
    try (unfold U64_MAX_VALUE; lia); assumption.
Defined.

(** ** Maximum, minimum and total over a sequence of records *)

Lemma bookkeeping_incrementCountAtIndex (index : Z) (h : Histogram) :
  keeps (fun h' => bookkeeping h' = bookkeeping h) (incrementCountAtIndex index) h.
Proof.
  unfold incrementCountAtIndex. apply keeps_get_bind.
  destruct (array_get _ _); [|apply keeps_throw].
  destruct (_ <? 0); [apply keeps_throw|]. apply keeps_modify. reflexivity.
Qed.

Lemma bookkeeping_addToCountAtIndex (index value : Z) (h : Histogram) :
  keeps (fun h' => bookkeeping h' = bookkeeping h) (addToCountAtIndex index value) h.
Proof.
  unfold addToCountAtIndex. apply keeps_get_bind.
  destruct (array_get _ _); [|apply keeps_throw].
  destruct (_ <? 0); [apply keeps_throw|]. apply keeps_modify. reflexivity.
Qed.

Lemma frame_resize {T : Type} (field : Histogram -> T) (v : Z) (h : Histogram) :
  (forall x h1, field (set_countsArrayLength x h1) = field h1) ->
  (forall x h1, field (set_bucketCount x h1) = field h1) ->
  (forall x h1, field (set_highestTrackableValue x h1) = field h1) ->
  (forall x h1, field (set_counts x h1) = field h1) ->
  keeps (fun h' => field h' = field h) (resize v) h.
Proof.
  intros Hlen Hbucket Hhigh Hcounts. unfold resize, establishSize.
  apply (keeps_bind _ (fun h' => field h' = field h)).
  - apply (keeps_bind _ (fun h' => field h' = field h));
      [apply keeps_liftR; reflexivity|].
    intros len h1 H1.
    apply (keeps_bind _ (fun h' => field h' = field h));
      [apply keeps_modify; rewrite Hlen; exact H1|].
    intros _ h2 H2.
    apply (keeps_bind _ (fun h' => field h' = field h));
      [apply keeps_liftR; exact H2|].
    intros n h3 H3.
    apply (keeps_bind _ (fun h' => field h' = field h));
      [apply keeps_modify; rewrite Hbucket; exact H3|].
    intros _ h4 H4. apply keeps_modify. rewrite Hhigh. exact H4.
  - intros _ h1 H1. apply keeps_get_bind.
    destruct (typed_array_set _ _); [|apply keeps_throw].
    apply keeps_modify. rewrite Hcounts. exact H1.
Qed.

Lemma bookkeeping_handleRecordException (count value : Z) (h : Histogram) :
  keeps (fun h' => bookkeeping h' = bookkeeping h)
    (handleRecordException count value) h.
Proof.
  unfold handleRecordException. apply keeps_get_bind.
  destruct (negb _); [apply keeps_throw|].
  apply (keeps_bind _ (fun h' => bookkeeping h' = bookkeeping h)).
  { apply (frame_resize bookkeeping); reflexivity. }
  intros _ h1 H1.
  apply (keeps_bind _ (fun h' => bookkeeping h' = bookkeeping h));
    [apply keeps_liftR; exact H1|].
  intros idx h2 H2.
  apply (keeps_bind _ (fun h' => bookkeeping h' = bookkeeping h)).
  { intros a h3 Hrun. rewrite <- H2.
    apply (bookkeeping_addToCountAtIndex idx count h2 a h3 Hrun). }
  intros _ h3 H3. apply keeps_modify. exact H3.
Qed.

(** What [recordCountAtValue] does to [totalCount], [maxValue] and
    [minNonZeroValue] whenever it returns, resized or not. *)
Lemma recordCountAtValue_bookkeeping (count v : Z) (h h' : Histogram) :
  recordCountAtValue count v h = Return tt h' ->
  h'.(totalCount) = u64 (h.(totalCount) + count)
  /\ h'.(unitMagnitudeMask) = h.(unitMagnitudeMask)
  /\ h'.(maxValue)
     = (if h.(maxValue) <? v then u64 (v + h.(unitMagnitudeMask))
        else h.(maxValue))
  /\ h'.(minNonZeroValue)
     = (if (v <? h.(minNonZeroValue)) && negb (v =? 0)
           && negb (v <=? h.(unitMagnitudeMask))
        then Z.land v (u64 (Z.lnot h.(unitMagnitudeMask)))
        else h.(minNonZeroValue)).
Proof.
  unfold recordCountAtValue, bind at 1, liftR.
  destruct (countsArrayIndex h v) as [i|e]; [|discriminate].
  unfold bind at 1, get. unfold bind at 1.
  destruct ((if h.(countsArrayLength) <=? i
             then handleRecordException count v
             else addToCountAtIndex i count) h) as [[] h1|e h1] eqn:Hupd;
    [|discriminate].
  assert (Hb : bookkeeping h1 = bookkeeping h).
  { destruct (h.(countsArrayLength) <=? i).
    - apply (bookkeeping_handleRecordException count v h tt h1 Hupd).
    - apply (bookkeeping_addToCountAtIndex i count h tt h1 Hupd). }
  unfold bookkeeping in Hb. injection Hb as Hmax Hmin Hmask Htot.
  destruct (updateMinAndMax_fields v h1)
    as (h2 & Hrun & _ & Htot2 & Hg2 & _ & _ & Hmax2 & Hmin2).
  unfold bind. rewrite Hrun. unfold modify. intros [= <-]. cbn.
  rewrite Htot2, Htot, Hmax2, Hmin2, Hmax, Hmin, Hmask.
  unfold geometry in Hg2. injection Hg2 as _ _ _ _ _ _ _ _ _ Hmask2 _.
  rewrite Hmask2, Hmask. repeat split; reflexivity.
Qed.

Lemma recordSingleValue_bookkeeping (v : Z) (h h' : Histogram) :
  recordSingleValue v h = Return tt h' ->
  h'.(totalCount) = u64 (h.(totalCount) + 1)
  /\ h'.(unitMagnitudeMask) = h.(unitMagnitudeMask)
  /\ h'.(maxValue)
     = (if h.(maxValue) <? v then u64 (v + h.(unitMagnitudeMask))
        else h.(maxValue))
  /\ h'.(minNonZeroValue)
     = (if (v <? h.(minNonZeroValue)) && negb (v =? 0)
           && negb (v <=? h.(unitMagnitudeMask))
        then Z.land v (u64 (Z.lnot h.(unitMagnitudeMask)))
        else h.(minNonZeroValue)).
Proof.
  unfold recordSingleValue, bind at 1, liftR.
  destruct (countsArrayIndex h v) as [i|e]; [|discriminate].
  unfold bind at 1, get. unfold bind at 1.
  destruct ((if h.(countsArrayLength) <=? i
             then handleRecordException 1 v
             else incrementCountAtIndex i) h) as [[] h1|e h1] eqn:Hupd;
    [|discriminate].
  assert (Hb : bookkeeping h1 = bookkeeping h).
  { destruct (h.(countsArrayLength) <=? i).
    - apply (bookkeeping_handleRecordException 1 v h tt h1 Hupd).
    - apply (bookkeeping_incrementCountAtIndex i h tt h1 Hupd). }
  unfold bookkeeping in Hb. injection Hb as Hmax Hmin Hmask Htot.
  destruct (updateMinAndMax_fields v h1)
    as (h2 & Hrun & _ & Htot2 & Hg2 & _ & _ & Hmax2 & Hmin2).
  unfold bind. rewrite Hrun. unfold incrementTotalCount, modify.
  intros [= <-]. cbn.
  rewrite Htot2, Htot, Hmax2, Hmin2, Hmax, Hmin, Hmask.
  unfold geometry in Hg2. injection Hg2 as _ _ _ _ _ _ _ _ _ Hmask2 _.
  rewrite Hmask2, Hmask. repeat split; reflexivity.
Qed.

(** Values at or below [unitMagnitudeMask] are always recorded, at the
    index 0, and [minNonZeroValue] is after them what it was before. *)
Lemma recordValues_below_unit (values : list Z) :
  forall h : Histogram,
    well_formed h ->
    Forall (fun v => 0 <= v <= h.(unitMagnitudeMask)) values ->
    exists h',
      recordValues values h = Return tt h'
      /\ h'.(minNonZeroValue) = h.(minNonZeroValue).
Proof.
  induction values as [|v values IH]; intros h Hwf Hall.
  - exists h. split; reflexivity.
  - apply Forall_cons in Hall as [Hv Hall].
    pose proof (wf_layout h Hwf) as Hok. pose proof (wf_width h Hwf) as HW.
    pose proof (wf_length h Hwf) as Hlen.
    pose proof (layout_bounds h Hok) as (Hhm & Hum & HB & Htop & Hfit).
    pose proof (countsArrayIndex_below_unit h Hok v Hv) as Hi.
    assert (Hin : 0 < h.(countsArrayLength)).
    { rewrite (lo_len h Hok).
      assert (0 < 2 ^ h.(subBucketHalfCountMagnitude)) by (apply pow2_pos; lia).
      nia. }
    assert (Hget : exists c, array_get h.(counts) 0 = Some c).
    { unfold array_get. cbn [Z.ltb Z.compare]. apply lookup_lt_is_Some_2. lia. }
    destruct Hget as [c Hc].
    destruct (recordSingleValue_in_range h v 0 c ltac:(lia) Hi Hin Hc)
      as (h1 & Hrun1 & _ & _ & Hg1 & _ & _ & _ & Hmin1).
    assert (Hwf1 : well_formed h1)
      by apply (keeps_recordSingleValue v h Hwf tt h1 Hrun1).
    assert (Hmask1 : h1.(unitMagnitudeMask) = h.(unitMagnitudeMask)).
    { unfold geometry in Hg1. injection Hg1 as _ _ _ _ _ _ _ _ _ -> _. reflexivity. }
    destruct (IH h1 Hwf1) as (h' & Hrun & Hmin); [rewrite Hmask1; exact Hall|].
    exists h'. split.
    + change (recordValues (v :: values) h)
        with (bind (recordValue v) (fun _ => recordValues values) h).
      unfold bind, recordValue. rewrite Hrun1. exact Hrun.
    + rewrite Hmin, Hmin1.
      destruct (Z.leb_spec v h.(unitMagnitudeMask)); [|lia].
      rewrite andb_false_r. reflexivity.
Qed.

(** C6, as the code has it, on every histogram of a well-formed layout.
    When [recordValue(v)] returns, [maxValue] has become
    [v + unitMagnitudeMask] (as a [u64]) if [v] was above it, and is what it
    was otherwise; [minNonZeroValue] has become [v & ~unitMagnitudeMask] if
    [v] was below it and above [unitMagnitudeMask] (hence not zero), and is
    what it was otherwise, so for [0 < v <= unitMagnitudeMask] too.  And
    values that are all at or below [unitMagnitudeMask] are recorded without
    fail and leave [minNonZeroValue] what it was: the sentinel, on a
    histogram that has recorded nothing else. *)
Theorem recordValue_updates_min_and_max (h : Histogram) :
  well_formed h ->
  (forall v h',
     recordValue v h = Return tt h' ->
     h'.(maxValue)
     = (if h.(maxValue) <? v then u64 (v + h.(unitMagnitudeMask))
        else h.(maxValue))
     /\ h'.(minNonZeroValue)
        = (if (v <? h.(minNonZeroValue)) && (h.(unitMagnitudeMask) <? v)
           then Z.land v (u64 (Z.lnot h.(unitMagnitudeMask)))
           else h.(minNonZeroValue)))
  /\ (forall values,
        Forall (fun v => 0 <= v <= h.(unitMagnitudeMask)) values ->
        exists h',
          recordValues values h = Return tt h'
          /\ h'.(minNonZeroValue) = h.(minNonZeroValue)).
Proof.
  intros Hwf. split.
  - intros v h' Hrun.
    destruct (recordSingleValue_bookkeeping v h h' Hrun) as (_ & _ & Hmax & Hmin).
    split; [exact Hmax|]. rewrite Hmin.
    pose proof (wf_layout h Hwf) as Hok.
    pose proof (layout_bounds h Hok) as (_ & Hum & _).
    assert (Hmask : 0 <= h.(unitMagnitudeMask)).
    { rewrite (lo_mask h (lo_base h Hok)).
      pose proof (pow2_pos h.(unitMagnitude) ltac:(lia)). lia. }
    destruct (Z.ltb_spec v h.(minNonZeroValue)); cbn [andb]; [|reflexivity].
    destruct (Z.eqb_spec v 0) as [->|Hne]; cbn [negb andb].
    + destruct (Z.ltb_spec h.(unitMagnitudeMask) 0); [lia|reflexivity].
    + destruct (Z.leb_spec v h.(unitMagnitudeMask));
        destruct (Z.ltb_spec h.(unitMagnitudeMask) v); cbn [negb];
        reflexivity || lia.
  - intros values Hall. apply recordValues_below_unit; assumption.
Qed.

Lemma recordValue_updates_min_and_max_witness :
  exists h h1 h2,
    new_Histogram 32 false 0 0 4 1000 0 = Ok h
    /\ recordValue 100 h = Return tt h1
    /\ h1.(maxValue) = 103 /\ h1.(minNonZeroValue) = 100
    /\ recordValues [2; 3; 1] h = Return tt h2
    /\ h2.(minNonZeroValue) = U64_MAX_VALUE.
Proof.
  destruct (new_Histogram 32 false 0 0 4 1000 0) as [h|e] eqn:Hnew;
    [|vm_compute in Hnew; discriminate].
  assert (Hwf : well_formed h).
  { apply (new_Histogram_well_formed 32 false 0 0 4 1000 0);
      try (unfold U64_MAX_VALUE; lia). exact Hnew. }
  destruct (recordValue 100 h) as [[] h1|e h1] eqn:Hrec;
    [|vm_compute in Hnew; injection Hnew as <-; vm_compute in Hrec; discriminate].
  destruct (recordValue_updates_min_and_max h Hwf) as [Hone Hsmall].
  destruct (Hone 100 h1 Hrec) as [Hmax Hmin].
  destruct (Hsmall [2; 3; 1]) as (h2 & Hrun & Hmin2).
  { vm_compute in Hnew. injection Hnew as <-. repeat constructor; discriminate. }
  exists h, h1, h2. split; [reflexivity|]. split; [exact Hrec|].
  split; [rewrite Hmax; vm_compute in Hnew; injection Hnew as <-; reflexivity|].
  split; [rewrite Hmin; vm_compute in Hnew; injection Hnew as <-; reflexivity|].
  split; [exact Hrun|].
  rewrite Hmin2. vm_compute in Hnew. injection Hnew as <-. reflexivity.
Defined.

(** [maxValue] and [minNonZeroValue] over a list of recorded values that do
    not wrap when the mask is added.  [maxValue] never decreases, is at
    least every recorded value, and is what it was or a recorded value plus
    [unitMagnitudeMask].  [minNonZeroValue] never increases, is at most
    every recorded value above the mask, and is what it was or a recorded
    value above the mask with its [unitMagnitude] low bits cleared. *)
Theorem recordValues_track_extremes (values : list Z) :
  forall h h' : Histogram,
    0 <= h.(unitMagnitudeMask) ->
    Forall (fun v => 0 <= v /\ v + h.(unitMagnitudeMask) < 2 ^ 64) values ->
    recordValues values h = Return tt h' ->
    h.(maxValue) <= h'.(maxValue)
    /\ Forall (fun v => v <= h'.(maxValue)) values
    /\ (h'.(maxValue) = h.(maxValue)
        \/ Exists (fun v => h'.(maxValue) = v + h.(unitMagnitudeMask)) values)
    /\ h'.(minNonZeroValue) <= h.(minNonZeroValue)
    /\ Forall (fun v => h.(unitMagnitudeMask) < v -> h'.(minNonZeroValue) <= v) values
    /\ (h'.(minNonZeroValue) = h.(minNonZeroValue)
        \/ Exists (fun v => h.(unitMagnitudeMask) < v
                            /\ h'.(minNonZeroValue)
                               = Z.land v (u64 (Z.lnot h.(unitMagnitudeMask))))
             values).
Proof.
  induction values as [|v values IH]; intros h h' Hmask Hall Hrun.
  - injection Hrun as <-.
    repeat split; try lia; try (left; reflexivity); constructor.
  - apply Forall_cons in Hall as [[Hv0 Hvw] Hall].
    change (recordValues (v :: values) h)
      with (bind (recordValue v) (fun _ => recordValues values) h) in Hrun.
    unfold bind, recordValue in Hrun.
    destruct (recordSingleValue v h) as [[] h1|] eqn:Hrec; [|discriminate].
    destruct (recordSingleValue_bookkeeping v h h1 Hrec)
      as (_ & Hmask1 & Hmax1 & Hmin1).
    destruct (IH h1 h') as (Hmono & Hup & Hfrom & Hmono' & Hlow & Hfrom');
      [rewrite Hmask1; exact Hmask|rewrite Hmask1; exact Hall|exact Hrun|].
    rewrite Hmask1 in *.
    assert (Hstep : h.(maxValue) <= h1.(maxValue) /\ v <= h1.(maxValue)).
    { rewrite Hmax1. destruct (Z.ltb_spec h.(maxValue) v);
        [rewrite u64_small by lia|]; lia. }
    assert (Hstep' : h1.(minNonZeroValue) <= h.(minNonZeroValue)
                     /\ (h.(unitMagnitudeMask) < v -> h1.(minNonZeroValue) <= v)).
    { rewrite Hmin1.
      pose proof (land_le_l v (u64 (Z.lnot h.(unitMagnitudeMask))) Hv0).
      destruct (Z.ltb_spec v h.(minNonZeroValue)); cbn [andb];
        destruct (Z.eqb_spec v 0); cbn [andb negb];
        destruct (Z.leb_spec v h.(unitMagnitudeMask)); cbn [negb]; lia. }
    split; [lia|]. split.
    { constructor; [lia|exact Hup]. }
    split.
    { destruct Hfrom as [Heq|Hex]; [|right; right; exact Hex].
      rewrite Heq, Hmax1. destruct (Z.ltb_spec h.(maxValue) v);
        [|left; reflexivity].
      right. left. apply u64_small. lia. }
    split; [lia|]. split.
    { constructor; [lia|exact Hlow]. }
    destruct Hfrom' as [Heq|Hex]; [|right; right; exact Hex].
    rewrite Heq, Hmin1.
    destruct ((v <? h.(minNonZeroValue)) && negb (v =? 0)
              && negb (v <=? h.(unitMagnitudeMask))) eqn:Hcond;
      [|left; reflexivity].
    right. left. split; [|reflexivity].
    apply andb_prop in Hcond as [_ Hcond]. apply negb_true_iff in Hcond.
    apply Z.leb_gt in Hcond. exact Hcond.
Qed.

Lemma recordValues_track_extremes_witness :
  exists h h',
    new_Histogram 32 false 0 0 4 1000 1 = Ok h
    /\ recordValues [100; 2; 300; 50] h = Return tt h'
    /\ 300 <= h'.(maxValue) /\ h'.(minNonZeroValue) <= 50.
Proof.
  destruct (new_Histogram 32 false 0 0 4 1000 1) as [h|e] eqn:Hnew;
    [|vm_compute in Hnew; discriminate].
  destruct (recordValues [100; 2; 300; 50] h) as [[] h'|e h'] eqn:Hrun;
    [|vm_compute in Hnew; injection Hnew as <-; vm_compute in Hrun; discriminate].
  exists h, h'. split; [reflexivity|]. split; [exact Hrun|].
  assert (Hmask : h.(unitMagnitudeMask) = 3).
  { vm_compute in Hnew. injection Hnew as <-. reflexivity. }
  destruct (recordValues_track_extremes [100; 2; 300; 50] h h')
    as (_ & Hup & _ & _ & Hlow & _).
  - rewrite Hmask. lia.
  - rewrite Hmask. repeat constructor; lia.
  - exact Hrun.
  - rewrite Hmask in Hlow.
    apply Forall_cons in Hup as [_ Hup]. apply Forall_cons in Hup as [_ Hup].
    apply Forall_cons in Hup as [H300 _].
    apply Forall_cons in Hlow as [_ Hlow]. apply Forall_cons in Hlow as [_ Hlow].
    apply Forall_cons in Hlow as [_ Hlow]. apply Forall_cons in Hlow as [H50 _].
    split; [exact H300|apply H50; lia].
Defined.

(** ** [add] across layouts *)

(** The loop of the branch of [add] for another layout: [totalCount] grows
    by the counters it reads. *)
Lemma recordCountsLoop_total (other : Histogram) (n : nat) :
  forall (i : Z) (h h' : Histogram),
    0 <= h.(totalCount) < 2 ^ 64 ->
    0 <= i -> i + Z.of_nat n < 2 ^ 31 ->
    Forall (fun c => 0 <= c < 2 ^ 64) other.(counts) ->
    recordCountsLoop other n i h = Return tt h' ->
    h'.(totalCount)
    = u64 (h.(totalCount)
           + foldr Z.add 0 (take n (drop (Z.to_nat i) other.(counts)))).
Proof.
  induction n as [|n IH]; intros i h h' Htot Hi Hn Hother Hrun.
  - injection Hrun as <-. cbn. rewrite Z.add_0_r, u64_small by exact Htot.
    reflexivity.
  - cbn [recordCountsLoop] in Hrun. unfold bind at 1, liftR, getCountAtIndex in Hrun.
    unfold array_get in Hrun. destruct (Z.ltb_spec i 0); [lia|].
    destruct (other.(counts) !! Z.to_nat i) as [c|] eqn:Hc; [|discriminate].
    pose proof (proj1 (Forall_lookup _ _) Hother (Z.to_nat i) c Hc) as Hcr.
    cbn in Hcr. rewrite (u64_small c) in Hrun by exact Hcr.
    rewrite (drop_S _ _ _ Hc). cbn [take foldr].
    rewrite i32_small in Hrun by (change (2 ^ 31) with 2147483648 in *; lia).
    unfold bind in Hrun.
    destruct (Z.ltb_spec 0 c).
    + destruct (recordCountAtValue c (valueFromIndex other i) h)
        as [[] h1|] eqn:Hrec; [|discriminate].
      destruct (recordCountAtValue_bookkeeping c _ h h1 Hrec) as (Ht1 & _).
      rewrite (IH (i + 1) h1 h'); try lia; try assumption.
      * rewrite Ht1, u64_add_idemp.
        replace (Z.to_nat (i + 1)) with (S (Z.to_nat i)) by lia. f_equal. lia.
      * rewrite Ht1. apply u64_range.
    + unfold ret in Hrun.
      rewrite (IH (i + 1) h h'); try lia; try assumption.
      replace (Z.to_nat (i + 1)) with (S (Z.to_nat i)) by lia. f_equal. lia.
Qed.

Lemma keeps_liftR_bind {A B : Type} (P : Histogram -> Prop)
  (r : Histogram -> Result A) (k : A -> M B) (h : Histogram) :
  (forall a, r h = Ok a -> keeps P (k a) h) ->
  keeps P (bind (liftR r) k) h.
Proof.
  intros Hk b h' Hrun. unfold bind, liftR in Hrun.
  destruct (r h) as [a|] eqn:Hr; [|discriminate].
  apply (Hk a eq_refl b h' Hrun).
Qed.

(** [add] of a histogram with another geometry: when it returns,
    [totalCount] has grown by the other histogram's counters up to the index
    of its [maxValue], that index included. *)
Theorem add_other_layout_total (h other h' : Histogram) :
  h.(subBucketCount) <> other.(subBucketCount)
  \/ h.(unitMagnitude) <> other.(unitMagnitude) ->
  Forall (fun c => 0 <= c < 2 ^ 64) other.(counts) ->
  Z.of_nat (length other.(counts)) < 2 ^ 31 ->
  add other h = Return tt h' ->
  exists index,
    countsArrayIndex other other.(maxValue) = Ok index
    /\ 0 <= index < Z.of_nat (length other.(counts))
    /\ h'.(totalCount)
       = u64 (h.(totalCount)
              + foldr Z.add 0 (take (S (Z.to_nat index)) other.(counts))).
Proof.
  intros Hdiff Hother Hlen. revert h'.
  set (P := fun h' : Histogram =>
    exists index,
      countsArrayIndex other other.(maxValue) = Ok index
      /\ 0 <= index < Z.of_nat (length other.(counts))
      /\ h'.(totalCount)
         = u64 (h.(totalCount)
                + foldr Z.add 0 (take (S (Z.to_nat index)) other.(counts)))).
  set (Q := fun h1 : Histogram =>
    (h1.(subBucketCount), h1.(unitMagnitude), h1.(totalCount))
    = (h.(subBucketCount), h.(unitMagnitude), h.(totalCount))).
  enough (Hkeeps : keeps P (add other) h) by (intros h'; apply (Hkeeps tt h')).
  unfold add. apply keeps_get_bind.
  apply (keeps_bind _ Q).
  { destruct (_ <? _); [|apply keeps_ret; reflexivity].
    destruct (negb _); [apply keeps_throw|].
    apply (frame_resize
             (fun x => (x.(subBucketCount), x.(unitMagnitude), x.(totalCount))));
      reflexivity. }
  intros _ h1 H1. unfold Q in H1. injection H1 as Hsbc Hum Htot.
  apply keeps_get_bind.
  apply (keeps_bind _ P); [|intros _ h2 HP; apply keeps_modify; exact HP].
  assert (Hcond : (h1.(bucketCount) =? other.(bucketCount))
                  && (h1.(subBucketCount) =? other.(subBucketCount))
                  && (h1.(unitMagnitude) =? other.(unitMagnitude)) = false).
  { rewrite Hsbc, Hum. destruct Hdiff as [Hd|Hd].
    - apply Z.eqb_neq in Hd. rewrite Hd, andb_false_r. reflexivity.
    - apply Z.eqb_neq in Hd. rewrite Hd, andb_false_r. reflexivity. }
  rewrite Hcond.
  apply keeps_liftR_bind. intros index Hidx.
  apply keeps_liftR_bind. intros c' Hcount.
  unfold getCountAtIndex, array_get in Hcount.
  destruct (Z.ltb_spec index 0) as [|Hi0]; [discriminate|].
  destruct (other.(counts) !! Z.to_nat index) as [c|] eqn:Hc; [|discriminate].
  injection Hcount as <-.
  pose proof (proj1 (Forall_lookup _ _) Hother (Z.to_nat index) c Hc) as Hcr.
  cbn in Hcr. rewrite (u64_small c) by exact Hcr.
  apply lookup_lt_Some in Hc as Hlt.
  intros [] h3 Hrun. unfold bind in Hrun.
  destruct (recordCountAtValue c other.(maxValue) h1) as [[] h2|] eqn:Hrec;
    [|discriminate].
  destruct (recordCountAtValue_bookkeeping c _ h1 h2 Hrec) as (Ht2 & _).
  exists index. split; [exact Hidx|]. split; [lia|].
  rewrite (recordCountsLoop_total other (Z.to_nat index) 0 h2 h3);
    try assumption; try lia.
  - rewrite Ht2, Htot, u64_add_idemp. change (Z.to_nat 0) with 0%nat.
    rewrite drop_0, (take_S_r _ _ _ Hc), sum_app. cbn [foldr]. f_equal. lia.
  - rewrite Ht2. apply u64_range.
Qed.

Lemma add_other_layout_total_witness :
  exists h other0 other h',
    new_Histogram 8 true 0 0 1 1000 0 = Ok h
    /\ new_Histogram 8 false 0 0 4 1000 1 = Ok other0
    /\ recordValues [100; 200] other0 = Return tt other
    /\ add other h = Return tt h'
    /\ h'.(totalCount) = 2.
Proof.
  destruct (new_Histogram 8 true 0 0 1 1000 0) as [h|e] eqn:Hnew;
    [|vm_compute in Hnew; discriminate].
  destruct (new_Histogram 8 false 0 0 4 1000 1) as [other0|e] eqn:Hnew0;
    [|vm_compute in Hnew0; discriminate].
  destruct (recordValues [100; 200] other0) as [[] other|e other] eqn:Hrec;
    [|vm_compute in Hnew0; injection Hnew0 as <-; vm_compute in Hrec; discriminate].
  destruct (add other h) as [[] h'|e h'] eqn:Hadd.
  - exists h, other0, other, h'.
    split; [reflexivity|]. split; [reflexivity|]. split; [exact Hrec|].
    split; [exact Hadd|].
    vm_compute in Hnew. injection Hnew as <-.
    vm_compute in Hnew0. injection Hnew0 as <-.
    vm_compute in Hrec. injection Hrec as <-.
    match type of Hadd with
    | add ?o ?h0 = _ =>
        destruct (add_other_layout_total h0 o h') as (index & Hidx & _ & Htot);
          [left; vm_compute; discriminate
          |apply (bool_decide_eq_true_1 _); vm_compute; reflexivity
          |vm_compute; reflexivity
          |exact Hadd
          |]
    end.
    vm_compute in Hidx. injection Hidx as <-.
    rewrite Htot. vm_compute. reflexivity.
  - exfalso. vm_compute in Hnew. injection Hnew as <-.
    vm_compute in Hnew0. injection Hnew0 as <-.
    vm_compute in Hrec. injection Hrec as <-.
    vm_compute in Hadd. discriminate.
Defined.

(** ** The indexes tile the covered range *)

(** The equivalent ranges of the indexes lie end to end: index 0 starts at
    the value 0, each index starts at its own value, the next index starts
    one above the highest equivalent value of the one before, and the last
    index ends at [2^(hm + um + bucketCount) - 1].  This holds up to [2^64]:
    the values of the indexes convert to doubles exactly. *)
Theorem index_ranges_tile_the_covered_range (h : Histogram) :
  layout_ok h ->
  valueFromIndex h 0 = 0
  /\ (forall i, 0 <= i < h.(countsArrayLength) ->
        lowestEquivalentValue h (valueFromIndex h i) = valueFromIndex h i
        /\ valueFromIndex h i <= highestEquivalentValue h (valueFromIndex h i))
  /\ (forall i, 0 <= i -> i + 1 < h.(countsArrayLength) ->
        highestEquivalentValue h (valueFromIndex h i) + 1
        = valueFromIndex h (i + 1))
  /\ highestEquivalentValue h (valueFromIndex h (h.(countsArrayLength) - 1))
     = 2 ^ (h.(subBucketHalfCountMagnitude) + h.(unitMagnitude) + h.(bucketCount))
       - 1.
Proof.
  intros Hok.
  pose proof (layout_bounds h Hok) as (Hhm & Hum & HB & Htop & Hfit).
  pose proof (lo_len h Hok) as Hlen.
  pose proof (highest_recordable_value h Hok) as Hlast.
  set (hm := h.(subBucketHalfCountMagnitude)) in *.
  set (um := h.(unitMagnitude)) in *.
  set (B := h.(bucketCount)) in *.
  assert (Hp : 0 < 2 ^ hm) by (apply pow2_pos; lia).
  assert (Hp17 : 2 ^ hm <= 2 ^ 17) by (apply pow2_le; lia).
  change (2 ^ 17) with 131072 in Hp17.
  assert (Hpm : 2 ^ (hm + 1) = 2 * 2 ^ hm).
  { rewrite Z.pow_add_r by lia. change (2 ^ 1) with 2. lia. }
  assert (HlenB : h.(countsArrayLength) <= 65 * 131072) by nia.
  split; [rewrite (valueFromIndex_lower h Hok 0) by (fold hm; lia); lia|].
  split; [|split].
  - intros i Hi.
    destruct (value_of_index h Hok i Hi) as (s & Hs & Hcanon & Hb63 & _ & Hval).
    rewrite Hval.
    destruct (equivalents_of_scaled h Hok (Z.max (i / 2 ^ hm - 1) 0) s)
      as (Hlo & Hhi & _); try assumption; [lia|].
    fold hm um in Hlo, Hhi |- *. rewrite Hlo, Hhi.
    assert (0 < 2 ^ (Z.max (i / 2 ^ hm - 1) 0 + um)) by (apply pow2_pos; lia).
    split; [reflexivity|lia].
  - intros i Hi0 Hi1.
    destruct (Z.lt_ge_cases i (2 ^ hm)) as [Hlow|Hup].
    + rewrite (valueFromIndex_lower h Hok i) by (fold hm; lia). fold um.
      destruct (equivalents_of_scaled h Hok 0 i) as (_ & Hhi & _);
        try (fold hm um; lia).
      rewrite Z.add_0_l in Hhi. fold um in Hhi. rewrite Hhi.
      destruct (Z.lt_ge_cases (i + 1) (2 ^ hm)) as [Hlow'|Hup'].
      * rewrite (valueFromIndex_lower h Hok (i + 1)) by (fold hm; lia).
        fold um. lia.
      * assert (Hi' : i + 1 = 2 ^ hm) by lia.
        destruct (valueFromIndex_upper h Hok (i + 1)) as [Hv _];
          [fold hm B; nia|].
        fold hm um in Hv. rewrite Hv, Hi'.
        rewrite Z_mod_same_full, Z_div_same_full by lia.
        replace (1 - 1 + um) with um by lia. lia.
    + destruct (valueFromIndex_upper h Hok i) as [Hv Hq]; [fold hm B; lia|].
      destruct (valueFromIndex_upper h Hok (i + 1)) as [Hv' Hq'];
        [fold hm B; lia|].
      fold hm um B in Hv, Hq, Hv', Hq'. rewrite Hv, Hv'.
      pose proof (Z.div_mod i (2 ^ hm) ltac:(lia)) as Hdm.
      pose proof (Z.mod_pos_bound i (2 ^ hm) Hp) as Hr.
      set (q := i / 2 ^ hm) in *. set (r := i mod 2 ^ hm) in *.
      destruct (equivalents_of_scaled h Hok (q - 1) (r + 2 ^ hm))
        as (_ & Hhi & _); try (fold hm um; lia).
      fold hm um in Hhi. rewrite Hhi.
      assert (Hk : 0 < 2 ^ (q - 1 + um)) by (apply pow2_pos; lia).
      destruct (Z.lt_ge_cases (r + 1) (2 ^ hm)) as [Hr1|Hr1].
      * assert (Hq1 : (i + 1) / 2 ^ hm = q).
        { symmetry. apply (Z.div_unique (i + 1) (2 ^ hm) q (r + 1)); lia. }
        assert (Hm1 : (i + 1) mod 2 ^ hm = r + 1).
        { symmetry. apply (Z.mod_unique (i + 1) (2 ^ hm) q (r + 1)); lia. }
        rewrite Hq1, Hm1. lia.
      * assert (Hq1 : (i + 1) / 2 ^ hm = q + 1).
        { symmetry. apply (Z.div_unique (i + 1) (2 ^ hm) (q + 1) 0); lia. }
        assert (Hm1 : (i + 1) mod 2 ^ hm = 0).
        { symmetry. apply (Z.mod_unique (i + 1) (2 ^ hm) (q + 1) 0); lia. }
        rewrite Hq1, Hm1.
        replace (q + 1 - 1 + um) with (1 + (q - 1 + um)) by lia.
        rewrite (Z.pow_add_r 2 1) by lia. change (2 ^ 1) with 2.
        assert (r + 1 = 2 ^ hm) by lia. nia.
  - rewrite i32_small in Hlast by (change (2 ^ 31) with 2147483648; lia).
    exact Hlast.
Qed.

Lemma index_ranges_tile_the_covered_range_witness :
  exists h,
    new_Histogram 32 false 0 0 1 3000 3 = Ok h
    /\ highestEquivalentValue h (valueFromIndex h 2500) + 1
       = valueFromIndex h 2501.
Proof.
  destruct (new_Histogram 32 false 0 0 1 3000 3) as [h|e] eqn:Hnew;
    [|vm_compute in Hnew; discriminate].
  exists h. split; [reflexivity|].
  destruct (new_Histogram_fresh 32 false 0 0 1 3000 3 h) as (Hok & _);
    try (unfold U64_MAX_VALUE; lia); [exact Hnew|].
  destruct (index_ranges_tile_the_covered_range h Hok) as (_ & _ & Hnext & _).
  apply (Hnext 2500); [lia|].
  vm_compute in Hnew. injection Hnew as <-. vm_compute. reflexivity.
Defined.

(** ** Conservation below the counter width *)

Lemma counter_le_sum (l : list Z) (i : nat) (c : Z) :
  Forall (fun x => 0 <= x) l -> l !! i = Some c -> c <= foldr Z.add 0 l.
Proof.
  intros Hl Hc.
  pose proof (sum_insert l i c 0 Hc) as Hsum.
  assert (0 <= foldr Z.add 0 (<[i := 0]> l)).
  { apply sum_nonneg. apply Forall_insert; [exact Hl|lia]. }
  lia.
Qed.

(** As long as fewer than [2^W] values have been recorded, no counter wraps
    and the total is exact: on a histogram whose [totalCount] is the sum of
    its counters, after recording a list of values inside the covered range
    that keeps [totalCount] below [2^W], [totalCount] has grown by the
    length of the list and is still the sum of the counters. *)
Theorem recordValues_conserve_below_width (values : list Z) :
  forall h : Histogram,
    well_formed h ->
    h.(totalCount) = sumOfCounts h ->
    Forall (fun v => 0 <= v < 2 ^ 48
                     /\ v < 2 ^ (h.(subBucketHalfCountMagnitude) + h.(unitMagnitude)
                                 + h.(bucketCount))) values ->
    h.(totalCount) + Z.of_nat (length values) < 2 ^ h.(counterBits) ->
    exists h',
      recordValues values h = Return tt h'
      /\ h'.(totalCount) = h.(totalCount) + Z.of_nat (length values)
      /\ h'.(totalCount) = sumOfCounts h'.
Proof.
  induction values as [|v values IH]; intros h Hwf Hcons Hall Hbelow.
  - exists h. split; [reflexivity|]. cbn [length]. split; [lia|exact Hcons].
  - apply Forall_cons in Hall as [[Hv Hcov] Hall]. cbn [length] in Hbelow.
    pose proof (wf_layout h Hwf) as Hok. pose proof (wf_width h Hwf) as HW.
    pose proof (wf_length h Hwf) as Hlen.
    assert (Hnonneg : Forall (fun c => 0 <= c) h.(counts)).
    { eapply Forall_impl; [apply (wf_range h Hwf)|]. cbn. intros c Hcr. lia. }
    assert (Hsum0 : 0 <= sumOfCounts h) by (apply sum_nonneg; exact Hnonneg).
    assert (Hpow : 2 ^ h.(counterBits) <= 2 ^ 64) by (apply pow2_le; lia).
    destruct (index_of_value h v Hok Hv) as (i & Hi & Hi0 & Hiff).
    apply Hiff in Hcov as Hin.
    destruct (lookup_lt_is_Some_2 h.(counts) (Z.to_nat i)) as [c Hc]; [lia|].
    assert (Hget : array_get h.(counts) i = Some c).
    { unfold array_get. destruct (Z.ltb_spec i 0); [lia|exact Hc]. }
    pose proof (counter_le_sum h.(counts) (Z.to_nat i) c Hnonneg Hc) as Hcle.
    fold (sumOfCounts h) in Hcle.
    pose proof (proj1 (Forall_lookup _ _) Hnonneg (Z.to_nat i) c Hc) as Hc0.
    cbn in Hc0.
    destruct (recordSingleValue_in_range h v i c ltac:(lia) Hi Hin Hget)
      as (h1 & Hrun1 & Hc1 & Ht1 & Hg1 & Hs1 & _).
    assert (Hwf1 : well_formed h1)
      by apply (keeps_recordSingleValue v h Hwf tt h1 Hrun1).
    assert (Hfields : h1.(subBucketHalfCountMagnitude) = h.(subBucketHalfCountMagnitude)
                      /\ h1.(unitMagnitude) = h.(unitMagnitude)
                      /\ h1.(bucketCount) = h.(bucketCount)
                      /\ h1.(counterBits) = h.(counterBits)).
    { unfold sizing in Hs1. unfold geometry in Hg1.
      injection Hs1 as _ -> _. injection Hg1 as _ _ _ _ _ -> -> _ _ _ ->.
      repeat split; reflexivity. }
    destruct Hfields as (Hhm1 & Hum1 & HB1 & HW1).
    rewrite u64_small in Ht1 by lia.
    assert (Hcons1 : h1.(totalCount) = sumOfCounts h1).
    { unfold sumOfCounts. rewrite Hc1, (sum_array_set _ _ c _ Hget).
      rewrite wrapU_small by lia. fold (sumOfCounts h). lia. }
    destruct (IH h1 Hwf1 Hcons1) as (h' & Hrun & Ht & Hcons').
    { rewrite Hhm1, Hum1, HB1. exact Hall. }
    { rewrite HW1, Ht1. lia. }
    exists h'. split.
    { change (recordValues (v :: values) h)
        with (bind (recordValue v) (fun _ => recordValues values) h).
      unfold bind, recordValue. rewrite Hrun1. exact Hrun. }
    split; [cbn [length]; lia|exact Hcons'].
Qed.

Lemma recordValues_conserve_below_width_witness :
  exists h h',
    new_Histogram 8 false 0 0 1 1000 0 = Ok h
    /\ recordValues [5; 900; 5] h = Return tt h'
    /\ h'.(totalCount) = 3 /\ sumOfCounts h' = 3.
Proof.
  destruct (new_Histogram 8 false 0 0 1 1000 0) as [h|e] eqn:Hnew;
    [|vm_compute in Hnew; discriminate].
  assert (Hwf : well_formed h).
  { apply (new_Histogram_well_formed 8 false 0 0 1 1000 0);
      try (unfold U64_MAX_VALUE; lia). exact Hnew. }
  vm_compute in Hnew. injection Hnew as <-.
  match goal with
  | Hwf : well_formed ?h0 |- _ =>
      destruct (recordValues_conserve_below_width [5; 900; 5] h0 Hwf)
        as (h' & Hrun & Htot & Hcons);
        [reflexivity
        |repeat constructor; vm_compute; reflexivity || discriminate
        |vm_compute; reflexivity
        |exists h0, h']
  end.
  split; [reflexivity|]. split; [exact Hrun|].
  split; [exact Htot|]. rewrite <- Hcons. exact Htot.
Defined.

(** ** How many samples the correction for coordinated omission counts *)

Lemma forEach_total (body : Z -> M unit) (d : Z) (values : list Z) :
  (forall v h h', body v h = Return tt h' ->
     h'.(totalCount) = u64 (h.(totalCount) + d)) ->
  forall h h',
    0 <= h.(totalCount) < 2 ^ 64 ->
    forEach values body h = Return tt h' ->
    h'.(totalCount) = u64 (h.(totalCount) + d * Z.of_nat (length values)).
Proof.
  intros Hbody. induction values as [|v values IH]; intros h h' Htot Hrun.
  - injection Hrun as <-. cbn [length]. rewrite Z.mul_0_r, Z.add_0_r.
    symmetry. apply u64_small. exact Htot.
  - cbn [forEach] in Hrun. unfold bind in Hrun.
    destruct (body v h) as [[] h1|] eqn:Hv; [|discriminate].
    pose proof (Hbody v h h1 Hv) as H1.
    rewrite (IH h1 h'); [|rewrite H1; apply u64_range|exact Hrun].
    rewrite H1, u64_add_idemp. f_equal. cbn [length]. lia.
Qed.

Lemma length_stepsDown (n : nat) (from step : Z) :
  length (stepsDown n from step) = n.
Proof.
  revert from. induction n as [|n IH]; intros from; cbn; [reflexivity|].
  rewrite IH. reflexivity.
Qed.

(** For [0 < E <= v], recording [v] with the expected interval [E] counts
    [v / E] samples, the value itself and the synthetic ones: whenever the
    single variant returns, [totalCount] has grown by [v / E], and whenever
    the count variant returns, by [count * (v / E)]. *)
Theorem expected_interval_total (fuel : nat) (v count E : Z) (h h' : Histogram) :
  0 < E -> E <= v -> v < 2 ^ 64 -> (Z.to_nat (v / E) <= fuel)%nat ->
  0 <= h.(totalCount) < 2 ^ 64 ->
  (recordSingleValueWithExpectedInterval fuel v E h = Return tt h' ->
   h'.(totalCount) = u64 (h.(totalCount) + v / E))
  /\ (recordValueWithCountAndExpectedInterval fuel v count E h = Return tt h' ->
      h'.(totalCount) = u64 (h.(totalCount) + count * (v / E))).
Proof.
  intros HE Hv Hmax Hfuel Htot.
  assert (Hq : (v - E) / E = v / E - 1).
  { replace (v - E) with (v + (-1) * E) by lia. rewrite Z.div_add by lia. lia. }
  assert (Hq1 : 1 <= v / E) by (apply Z.div_le_lower_bound; lia).
  split.
  - unfold recordSingleValueWithExpectedInterval, bind.
    destruct (recordSingleValue v h) as [[] h1|] eqn:Hrec; [|discriminate].
    destruct (recordSingleValue_bookkeeping v h h1 Hrec) as (H1 & _).
    destruct (Z.leb_spec E 0); [lia|].
    rewrite (u64_small (v - E)) by lia.
    rewrite (missingValuesLoop_forEach recordSingleValue E
               (Z.to_nat ((v - E) / E)) fuel (v - E) h1) by lia.
    intros Hloop.
    assert (Hrange : 0 <= h1.(totalCount) < 2 ^ 64)
      by (rewrite H1; apply u64_range).
    rewrite (forEach_total recordSingleValue 1 _
               (fun x a b Hx => proj1 (recordSingleValue_bookkeeping x a b Hx))
               h1 h' Hrange Hloop).
    rewrite H1, u64_add_idemp, length_stepsDown. f_equal. lia.
  - unfold recordValueWithCountAndExpectedInterval, bind.
    destruct (recordCountAtValue count v h) as [[] h1|] eqn:Hrec; [|discriminate].
    destruct (recordCountAtValue_bookkeeping count v h h1 Hrec) as (H1 & _).
    destruct (Z.leb_spec v E).
    + assert (v = E) by lia. subst v. rewrite Z.div_same by lia.
      intros [= <-]. rewrite H1. f_equal. lia.
    + rewrite (u64_small (v - E)) by lia.
      rewrite (missingValuesLoop_forEach (recordCountAtValue count) E
                 (Z.to_nat ((v - E) / E)) fuel (v - E) h1) by lia.
      intros Hloop.
      assert (Hrange : 0 <= h1.(totalCount) < 2 ^ 64)
        by (rewrite H1; apply u64_range).
      rewrite (forEach_total (recordCountAtValue count) count _
                 (fun x a b Hx =>
                    proj1 (recordCountAtValue_bookkeeping count x a b Hx))
                 h1 h' Hrange Hloop).
      rewrite H1, u64_add_idemp, length_stepsDown. f_equal.
      rewrite Z2Nat.id, Hq by lia. ring.
Qed.

Lemma expected_interval_total_witness :
  exists h h',
    new_Histogram 32 true 0 0 1 2 3 = Ok h
    /\ recordSingleValueWithExpectedInterval 10 1000 100 h = Return tt h'
    /\ h'.(totalCount) = 10.
Proof.
  destruct (new_Histogram 32 true 0 0 1 2 3) as [h|e] eqn:Hnew;
    [|vm_compute in Hnew; discriminate].
  destruct (recordSingleValueWithExpectedInterval 10 1000 100 h)
    as [[] h'|e h'] eqn:Hrun;
    [|vm_compute in Hnew; injection Hnew as <-; vm_compute in Hrun; discriminate].
  exists h, h'. split; [reflexivity|]. split; [exact Hrun|].
  assert (Htot : h.(totalCount) = 0).
  { vm_compute in Hnew. injection Hnew as <-. reflexivity. }
  pose proof (expected_interval_total 10 1000 0 100 h h') as Htotal.
  rewrite Htot in Htotal.
  destruct Htotal as [Hsingle _]; [lia|lia|lia|vm_compute; lia|lia|].
  rewrite (Hsingle Hrun). reflexivity.
Defined.

(** ** Values right below a power of two *)

(** From [2^49] on, the logarithm of the last integer below a power of two
    is the exponent of that power. *)
Lemma floor_log2_before_power (K : Z) :
  49 <= K <= 64 -> floor_log2 (f64_of_u64 (2 ^ K - 1)) = Some K.
Proof.
  intros HK.
  assert (Hcases : K = 49 \/ K = 50 \/ K = 51 \/ K = 52 \/ K = 53 \/ K = 54
                   \/ K = 55 \/ K = 56 \/ K = 57 \/ K = 58 \/ K = 59 \/ K = 60
                   \/ K = 61 \/ K = 62 \/ K = 63 \/ K = 64) by lia.
  repeat (destruct Hcases as [->|Hcases]; [vm_compute; reflexivity|]).
  subst K. vm_compute. reflexivity.
Qed.

(** The last value below a power of two cannot be recorded, from [2^49] on:
    for [49 <= K <= 63] and a layout whose bucket 0 ends at or below
    [2^K], [Math.log2(2^K - 1)] is [K], so [getBucketIndex] answers the
    bucket above the one the value lies in, the sub-bucket index
    [subBucketHalfCount - 1] falls in the lower half, and the second
    assertion of [computeCountsArrayIndex] fails: [countsArrayIndex] has no
    index for the value, [recordValue] fails and leaves the histogram as it
    was, and [sizeOfEquivalentValueRange] is twice the size of the range. *)
Theorem recordValue_fails_before_powers_of_two (h : Histogram) (K : Z) :
  layout_ok h -> 49 <= K <= 63 ->
  h.(subBucketHalfCountMagnitude) + h.(unitMagnitude) < K ->
  getBucketIndex h (2 ^ K - 1)
  = K - h.(subBucketHalfCountMagnitude) - h.(unitMagnitude)
  /\ getSubBucketIndex h (2 ^ K - 1) (getBucketIndex h (2 ^ K - 1))
     = h.(subBucketHalfCount) - 1
  /\ countsArrayIndex h (2 ^ K - 1) = Err AssertionFailed
  /\ recordValue (2 ^ K - 1) h = Throw AssertionFailed h
  /\ sizeOfEquivalentValueRange h (2 ^ K - 1)
     = 2 ^ (K - h.(subBucketHalfCountMagnitude)).
Proof.
  intros Hok HK Hfar.
  pose proof (layout_bounds h Hok) as (Hhm & Hum & HB & Htop & Hfit).
  pose proof (lo_half h (lo_base h Hok)) as Hhalf.
  pose proof (lo_sbc h (lo_base h Hok)) as Hsbc.
  set (hm := h.(subBucketHalfCountMagnitude)) in *.
  set (um := h.(unitMagnitude)) in *.
  assert (H2hm : 0 < 2 ^ hm) by (apply pow2_pos; lia).
  assert (Hs17 : 2 ^ hm <= 2 ^ 17) by (apply pow2_le; lia).
  change (2 ^ 17) with 131072 in Hs17.
  assert (H2s : 0 < 2 ^ (K - hm)) by (apply pow2_pos; lia).
  assert (HK2 : 2 ^ K = 2 ^ (K - hm) * 2 ^ hm).
  { rewrite <- Z.pow_add_r by lia. f_equal. lia. }
  assert (Hb : getBucketIndex h (2 ^ K - 1) = K - hm - um).
  { unfold getBucketIndex. rewrite floor_log2_before_power by lia.
    fold hm um. rewrite Z.max_l by lia.
    apply i32_small. change (2 ^ 31) with 2147483648. lia. }
  assert (Hs : getSubBucketIndex h (2 ^ K - 1) (K - hm - um) = 2 ^ hm - 1).
  { unfold getSubBucketIndex. fold um.
    replace (K - hm - um + um) with (K - hm) by lia.
    rewrite shr64_spec by lia.
    assert (Hdiv : (2 ^ K - 1) / 2 ^ (K - hm) = 2 ^ hm - 1).
    { symmetry.
      apply (Z.div_unique (2 ^ K - 1) (2 ^ (K - hm)) (2 ^ hm - 1)
               (2 ^ (K - hm) - 1)); [lia|]. rewrite HK2. ring. }
    rewrite Hdiv. apply i32_small. change (2 ^ 31) with 2147483648. lia. }
  assert (Hidx : countsArrayIndex h (2 ^ K - 1) = Err AssertionFailed).
  { unfold countsArrayIndex.
    assert (0 < 2 ^ K) by (apply pow2_pos; lia).
    destruct (Z.ltb_spec (2 ^ K - 1) 0); [lia|].
    rewrite Hb, Hs. unfold computeCountsArrayIndex. rewrite Hhalf, Hsbc. fold hm.
    rewrite Z.add_1_r, Z.pow_succ_r by lia.
    destruct (Z.ltb_spec (2 ^ hm - 1) (2 * 2 ^ hm)); [|lia]. cbn [negb].
    destruct (Z.eqb_spec (K - hm - um) 0); [lia|].
    destruct (Z.leb_spec (2 ^ hm) (2 ^ hm - 1)); [lia|]. reflexivity. }
  split; [exact Hb|]. split; [rewrite Hb, Hhalf; exact Hs|].
  split; [exact Hidx|]. split.
  { unfold recordValue, recordSingleValue, bind, liftR. rewrite Hidx. reflexivity. }
  unfold sizeOfEquivalentValueRange. rewrite Hb. fold um.
  replace (um + (K - hm - um)) with (K - hm) by lia.
  rewrite shl64_spec by lia. rewrite Z.mul_1_l.
  apply u64_small. split; [lia|]. apply pow2_lt. lia.
Qed.

Lemma recordValue_fails_before_powers_of_two_witness :
  exists h,
    new_Histogram 32 false 0 0 1 (2 ^ 53 - 1) 0 = Ok h
    /\ 2 ^ 53 - 1 <= h.(highestTrackableValue)
    /\ recordValue (2 ^ 53 - 1) h = Throw AssertionFailed h.
Proof.
  assert (Hrun : new_Histogram 32 false 0 0 1 (2 ^ 53 - 1) 0
                 = Ok (mkHistogram false 1 (2 ^ 53 - 1) 0 53 2 54 0 0 52 0 0 1 1 0 0
                         U64_MAX_VALUE 32 (replicate 54 0) 0))
    by (vm_compute; reflexivity).
  eexists. split; [exact Hrun|]. split; [cbn; lia|].
  apply (recordValue_fails_before_powers_of_two _ 53).
  - split; [split|..]; cbn; try reflexivity; lia.
  - lia.
  - cbn. lia.
Defined.
